(** * Elasticsearch shard exporter: the collector, embedded and verified

    The development follows [collector/collector.go].  The collector's own
    functions ([NewShardCollector], [Describe], [Collect],
    [fetchClusterHealth], [fetchMaxReplicaCount]) are written as programs of
    a small free monad whose actions are the effects the Go code performs:
    taking and releasing the mutex, reading the clock, sending an HTTP
    request, logging, sending on the output channel and ranging over a map.
    The Go standard-library functions the code calls on its data
    ([fmt.Sscanf] with the verb [%d], [strconv.ParseInt], the UTF-8
    decoder, [time.Since]) are modelled as executable functions.

    [main.go] comes after the collector: the command line as package
    [flag] reads it, [parseFlags], [validateConfig], the two handlers
    and [main], whose effects (reading the environment, writing and
    logging, registering, serving, leaving the process) are the actions
    of a second free monad. *)

From Stdlib Require Import ZArith Ascii String List Lia Permutation.
From stdpp Require Import base tactics option list gmap fin_maps strings pretty.

Local Open Scope string_scope.
Local Open Scope list_scope.
Local Open Scope Z_scope.

(** ** Go's [int] on the 64-bit targets of the Makefile (amd64, arm64) *)

Definition intBits : Z := 64.
Definition minInt64 : Z := - 2 ^ 63.
Definition maxInt64 : Z := 2 ^ 63 - 1.
Definition maxUint64 : Z := 2 ^ 64 - 1.

(** Conversion of an integer to [int64]: two's complement wrap-around. *)
Definition wrap64 (z : Z) : Z := (z + 2 ^ 63) mod 2 ^ 64 - 2 ^ 63.

Definition inInt64 (z : Z) : Prop := minInt64 <= z <= maxInt64.

(** ** Package [unicode/utf8]: decoding the runes of a Go string *)

Module utf8.

Definition RuneError : Z := 0xFFFD.

Definition byteOf (a : ascii) : Z := Z.of_N (N_of_ascii a).

(** The table [first]: what the first byte of a sequence announces.
    [AS] is an ASCII byte, [XX] an invalid first byte, [SZ n lo hi] a
    sequence of [n] bytes whose second byte lies in [lo..hi]. *)
Inductive firstInfo : Type :=
| AS
| XX
| SZ (size : nat) (lo hi : Z).

Definition first (b : Z) : firstInfo :=
  if b <? 0x80 then AS
  else if b <? 0xC2 then XX
  else if b <? 0xE0 then SZ 2 0x80 0xBF
  else if b =? 0xE0 then SZ 3 0xA0 0xBF
  else if b <? 0xED then SZ 3 0x80 0xBF
  else if b =? 0xED then SZ 3 0x80 0x9F
  else if b <? 0xF0 then SZ 3 0x80 0xBF
  else if b =? 0xF0 then SZ 4 0x90 0xBF
  else if b <? 0xF4 then SZ 4 0x80 0xBF
  else if b =? 0xF4 then SZ 4 0x80 0x8F
  else XX.

Definition locb : Z := 0x80.
Definition hicb : Z := 0xBF.
Definition maskx : Z := 0x3F.
Definition mask2 : Z := 0x1F.
Definition mask3 : Z := 0x0F.
Definition mask4 : Z := 0x07.

Definition between (lo hi b : Z) : bool := (lo <=? b) && (b <=? hi).

(** [DecodeRuneInString]: the first rune of [s] and its width in bytes;
    an invalid or truncated sequence gives [(RuneError, 1)]. *)
Definition DecodeRuneInString (s : string) : Z * nat :=
  match s with
  | EmptyString => (RuneError, 0%nat)
  | String a0 t0 =>
    let s0 := byteOf a0 in
    match first s0 with
    | AS => (s0, 1%nat)
    | XX => (RuneError, 1%nat)
    | SZ sz lo hi =>
      match t0 with
      | EmptyString => (RuneError, 1%nat)
      | String a1 t1 =>
        let s1 := byteOf a1 in
        if negb (between lo hi s1) then (RuneError, 1%nat)
        else if (sz <=? 2)%nat
        then (Z.lor (Z.shiftl (Z.land s0 mask2) 6) (Z.land s1 maskx), 2%nat)
        else
          match t1 with
          | EmptyString => (RuneError, 1%nat)
          | String a2 t2 =>
            let s2 := byteOf a2 in
            if negb (between locb hicb s2) then (RuneError, 1%nat)
            else if (sz <=? 3)%nat
            then (Z.lor (Z.lor (Z.shiftl (Z.land s0 mask3) 12)
                               (Z.shiftl (Z.land s1 maskx) 6))
                        (Z.land s2 maskx), 3%nat)
            else
              match t2 with
              | EmptyString => (RuneError, 1%nat)
              | String a3 _ =>
                let s3 := byteOf a3 in
                if negb (between locb hicb s3) then (RuneError, 1%nat)
                else (Z.lor (Z.lor (Z.lor (Z.shiftl (Z.land s0 mask4) 18)
                                          (Z.shiftl (Z.land s1 maskx) 12))
                                   (Z.shiftl (Z.land s2 maskx) 6))
                            (Z.land s3 maskx), 4%nat)
              end
          end
      end
    end
  end.

(** The runes a reader delivers for [s], one [DecodeRuneInString] after
    the other.  [skip] counts the bytes that still belong to the rune
    decoded last. *)
Fixpoint runesFrom (skip : nat) (s : string) : list Z :=
  match s with
  | EmptyString => []
  | String _ t =>
    match skip with
    | S k => runesFrom k t
    | O => let '(r, size) := DecodeRuneInString s in r :: runesFrom (size - 1) t
    end
  end.

Definition runes (s : string) : list Z := runesFrom 0 s.

(** [ValidString]: no step of the decoding hits an invalid or truncated
    sequence, which is what [(RuneError, 1)] reports. *)
Fixpoint validFrom (skip : nat) (s : string) : bool :=
  match s with
  | EmptyString => true
  | String _ t =>
    match skip with
    | S k => validFrom k t
    | O =>
      let '(r, size) := DecodeRuneInString s in
      if (size =? 1)%nat && (r =? RuneError) then false
      else validFrom (size - 1) t
    end
  end.

Definition ValidString (s : string) : bool := validFrom 0 s.

End utf8.

(** ** Package [strconv]: [ParseUint] and [ParseInt] in base 10, 64 bits *)

Module strconv.

Inductive NumError : Type :=
| ErrSyntax
| ErrRange.

Definition isDigit (c : Z) : bool := (0x30 <=? c) && (c <=? 0x39).

(** The digit loop of [ParseUint(s, 10, 64)], from the accumulator [n]. *)
Fixpoint parseUintLoop (cs : list Z) (n : Z) : Z * option NumError :=
  match cs with
  | [] => (n, None)
  | c :: cs' =>
    if negb (isDigit c) then (0, Some ErrSyntax)
    else
      let d := c - 0x30 in
      if maxUint64 / 10 + 1 <=? n then (maxUint64, Some ErrRange)
      else
        let n0 := n * 10 in
        let n1 := (n0 + d) mod 2 ^ 64 in
        if (n1 <? n0) || (maxUint64 <? n1) then (maxUint64, Some ErrRange)
        else parseUintLoop cs' n1
  end.

Definition ParseUint (cs : list Z) : Z * option NumError :=
  match cs with
  | [] => (0, Some ErrSyntax)
  | _ => parseUintLoop cs 0
  end.

(** [ParseInt(s, 10, 64)] on the characters [cs] of [s]. *)
Definition ParseInt (cs : list Z) : Z * option NumError :=
  match cs with
  | [] => (0, Some ErrSyntax)
  | c0 :: rest =>
    let '(neg, digits) :=
      if c0 =? 0x2B then (false, rest)
      else if c0 =? 0x2D then (true, rest)
      else (false, cs) in
    let '(un, err) := ParseUint digits in
    match err with
    | Some ErrSyntax => (0, Some ErrSyntax)
    | _ =>
      let cutoff := 2 ^ 63 in
      if negb neg && (cutoff <=? un) then (cutoff - 1, Some ErrRange)
      else if neg && (cutoff <? un) then (- cutoff, Some ErrRange)
      else (if neg then - un else un, None)
    end
  end.

(** [Atoi]: the whole string must be one decimal integer. *)
Definition Atoi (s : string) : Z * option NumError :=
  ParseInt (utf8.byteOf <$> list_ascii_of_string s).

End strconv.

(** ** Package [fmt]: [Sscanf(str, "%d", &v)] *)

Module fmt.

(** The white space table of [fmt/scan.go]. *)
Definition space : list (Z * Z) :=
  [ (0x0009, 0x000d); (0x0020, 0x0020); (0x0085, 0x0085); (0x00a0, 0x00a0);
    (0x1680, 0x1680); (0x2000, 0x200a); (0x2028, 0x2029); (0x202f, 0x202f);
    (0x205f, 0x205f); (0x3000, 0x3000) ].

Fixpoint inRanges (tbl : list (Z * Z)) (rx : Z) : bool :=
  match tbl with
  | [] => false
  | (lo, hi) :: tbl' =>
    if rx <? lo then false
    else if rx <=? hi then true
    else inRanges tbl' rx
  end.

Definition isSpace (r : Z) : bool :=
  if 2 ^ 16 <=? r then false else inRanges space r.

Definition hugeWid : Z := 2 ^ 30.

Definition decimalDigits : list Z :=
  [0x30; 0x31; 0x32; 0x33; 0x34; 0x35; 0x36; 0x37; 0x38; 0x39].
Definition sign : list Z := [0x2B; 0x2D].

Definition indexRune (ok : list Z) (r : Z) : bool :=
  existsb (Z.eqb r) ok.

(** What a scan can fail with; [Sscanf] recovers each of them and
    returns it as its error. *)
Inductive scanError : Type :=
| errEOF
| errUnexpectedNewline
| errExpectedInteger
| errParse (e : strconv.NumError)
| errIntegerOverflow.

(** The scan state [ss]: the runes not yet read, the number of runes
    read so far, the limit on that number and the token buffer. *)
Record ss : Type := mkSS {
  rs : list Z;
  count : Z;
  argLimit : Z;
  buf : list Z
}.

(** [ReadRune]: [None] is end of input, also once [argLimit] runes
    have been read. *)
Definition ReadRune (s : ss) : option (Z * ss) :=
  if argLimit s <=? count s then None
  else
    match rs s with
    | [] => None
    | r :: rest => Some (r, mkSS rest (count s + 1) (argLimit s) (buf s))
    end.

(** [peek]: is the next rune one of [ok]? The rune stays unread. *)
Definition peek (ok : list Z) (s : ss) : bool :=
  match ReadRune s with
  | None => false
  | Some (r, _) => indexRune ok r
  end.

(** [accept]: read the next rune into the token buffer when it is one
    of [ok]; otherwise it stays unread. *)
Definition accept (ok : list Z) (s : ss) : bool * ss :=
  match ReadRune s with
  | None => (false, s)
  | Some (r, s') =>
    if indexRune ok r
    then (true, mkSS (rs s') (count s') (argLimit s') (buf s' ++ [r]))
    else (false, s)
  end.

Definition notEOF (s : ss) : scanError + ss :=
  match ReadRune s with
  | None => inl errEOF
  | Some _ => inr s
  end.

(** [SkipSpace] with [nlIsSpace = false], as [Sscanf] sets it: spaces
    are skipped, a newline is an error.  The recursion is on the runes
    left, [n] and [lim] being [count] and [argLimit]. *)
Fixpoint skipSpaceFrom (l : list Z) (n lim : Z) (tok : list Z) : scanError + ss :=
  if lim <=? n then inr (mkSS l n lim tok)
  else
    match l with
    | [] => inr (mkSS l n lim tok)
    | r :: rest =>
      if r =? 0x0A then inl errUnexpectedNewline
      else if isSpace r then skipSpaceFrom rest (n + 1) lim tok
      else inr (mkSS l n lim tok)
    end.

Definition SkipSpace (s : ss) : scanError + ss :=
  skipSpaceFrom (rs s) (count s) (argLimit s) (buf s).

(** The loop [for s.accept(digits) {}] of [scanNumber]. *)
Fixpoint acceptAllFrom (ok : list Z) (l : list Z) (n lim : Z) (tok : list Z) : ss :=
  if lim <=? n then mkSS l n lim tok
  else
    match l with
    | [] => mkSS l n lim tok
    | r :: rest =>
      if indexRune ok r then acceptAllFrom ok rest (n + 1) lim (tok ++ [r])
      else mkSS l n lim tok
    end.

Definition scanNumber (digits : list Z) (haveDigits : bool) (s : ss)
  : scanError + (list Z * ss) :=
  match (if haveDigits then inr s
         else match notEOF s with
              | inl e => inl e
              | inr s1 =>
                let '(ok, s2) := accept digits s1 in
                if ok then inr s2 else inl errExpectedInteger
              end) with
  | inl e => inl e
  | inr s3 =>
    let s4 := acceptAllFrom digits (rs s3) (count s3) (argLimit s3) (buf s3) in
    inr (buf s4, s4)
  end.

(** [scanInt('d', bitSize)]. *)
Definition scanInt (bitSize : Z) (s : ss) : scanError + (Z * ss) :=
  match SkipSpace s with
  | inl e => inl e
  | inr s1 =>
    match notEOF s1 with
    | inl e => inl e
    | inr s2 =>
      let '(_, s3) := accept sign s2 in
      match scanNumber decimalDigits false s3 with
      | inl e => inl e
      | inr (tok, s4) =>
        match strconv.ParseInt tok with
        | (_, Some e) => inl (errParse e)
        | (i, None) =>
          let n := 64 - bitSize in
          let x := Z.shiftr (wrap64 (Z.shiftl i n)) n in
          if negb (x =? i) then inl errIntegerOverflow
          else inr (i, s4)
        end
      end
    end
  end.

(** [Sscanf(str, "%d", &v)] for [v] of type [int]: the new value of [v]
    (unchanged when the scan fails), the number of operands stored and
    the error. *)
Definition Sscanf_d (str : string) (v : Z) : Z * Z * option scanError :=
  let s0 := mkSS (utf8.runes str) 0 hugeWid [] in
  match SkipSpace s0 with
  | inl e => (v, 0, Some e)
  | inr s1 =>
    match scanInt intBits (mkSS (rs s1) (count s1) (argLimit s1) []) with
    | inl e => (v, 0, Some e)
    | inr (i, _) => (i, 1, None)
    end
  end.

(** [Sprintf("%d", n)]. *)
Definition Sprintf_d (n : Z) : string := pretty n.

End fmt.

(** ** Package [time]: monotonic clock readings and [Duration] *)

Module time.

(** A [Duration] is an [int64] count of nanoseconds. *)
Definition Nanosecond : Z := 1.
Definition Second : Z := 1000000000 * Nanosecond.
Definition minDuration : Z := minInt64.
Definition maxDuration : Z := maxInt64.

(** [subMono t u]: the difference of two monotonic readings, saturated
    when [t - u] leaves [int64]. *)
Definition subMono (t u : Z) : Z :=
  let d := wrap64 (t - u) in
  if (d <? 0) && (u <? t) then maxDuration
  else if (0 <? d) && (t <? u) then minDuration
  else d.

End time.

(** ** The data of [collector.go] *)

Record CollectorConfig : Type := {
  ESURL : string;
  ESUser : string;
  ESPass : string;
  SSLEnable : bool;
  SSLSkipVerify : bool
}.

(** [ActiveShardsPercentAsNumber] is a [float64]; it is kept as the text
    of the JSON number, no computation ever reads it. *)
Record ClusterHealthResponse : Type := {
  ClusterName : string;
  Status : string;
  TimedOut : bool;
  NumberOfNodes : Z;
  NumberOfDataNodes : Z;
  ActivePrimaryShards : Z;
  ActiveShards : Z;
  RelocatingShards : Z;
  InitializingShards : Z;
  UnassignedShards : Z;
  DelayedUnassignedShards : Z;
  NumberOfPendingTasks : Z;
  NumberOfInFlightFetch : Z;
  TaskMaxWaitingInQueueMillis : Z;
  ActiveShardsPercentAsNumber : string
}.

Record IndexSection : Type := {
  NumberOfReplicas : string;
  NumberOfShards : string
}.

Record SettingsSection : Type := { Index : IndexSection }.

Record IndexSettings : Type := { Settings : SettingsSection }.

(** [IndexSettingsResponse] is [map[string]IndexSettings]. *)
Abbreviation IndexSettingsResponse := (gmap string IndexSettings).

(** Go's [error] values: a message, or a message wrapping another error
    ([fmt.Errorf] with [%w]). *)
Inductive error : Type :=
| errorString (msg : string)
| wrapError (msg : string) (err : error).

Definition Error (e : error) : string :=
  match e with
  | errorString msg => msg
  | wrapError msg _ => msg
  end.

Definition Errorf_w (prefix : string) (err : error) : error :=
  wrapError (prefix +:+ Error err) err.

(** ** Package [net/http]: requests, responses and the client *)

Module http.

Definition StatusOK : Z := 200.

Record Request : Type := {
  Method : string;
  URL : string;
  Header : gmap string (list string)
}.

Record Response : Type := {
  StatusCode : Z;
  Body : string
}.

Record tlsConfig : Type := { InsecureSkipVerify : bool }.

Record Transport : Type := {
  MaxIdleConns : Z;
  IdleConnTimeout : Z;
  DisableCompression : bool;
  TLSHandshakeTimeout : Z;
  TLSClientConfig : option tlsConfig
}.

Record Client : Type := {
  transport : Transport;
  Timeout : Z
}.

(** [Header.Set]; the two keys the collector sets are already in
    canonical form. *)
Definition HeaderSet (req : Request) (key value : string) : Request :=
  {| Method := Method req; URL := URL req;
     Header := <[key := [value]]> (Header req) |}.

End http.

(** ** Package [prometheus]: descriptors and constant metrics *)

Module prometheus.

Record Desc : Type := {
  fqName : string;
  help : string;
  variableLabels : list string
}.

Inductive ValueType : Type :=
| CounterValue
| GaugeValue
| UntypedValue.

(** The [float64] values the collector hands over: a constant, or the
    seconds of a [Duration], which has the sign of the duration. *)
Inductive float64 : Type :=
| Const (z : Z)
| Seconds (d : Z).

Record Metric : Type := {
  desc : Desc;
  valType : ValueType;
  val : float64;
  labelValues : list string
}.

Definition BuildFQName (namespace subsystem name : string) : string :=
  if String.eqb name "" then ""
  else if negb (String.eqb namespace "") && negb (String.eqb subsystem "")
  then namespace +:+ "_" +:+ subsystem +:+ "_" +:+ name
  else if negb (String.eqb namespace "") then namespace +:+ "_" +:+ name
  else if negb (String.eqb subsystem "") then subsystem +:+ "_" +:+ name
  else name.

(** [NewDesc] without constant labels.  The names the collector passes
    are valid metric and label names, so the descriptor carries no
    error. *)
Definition NewDesc (fqName help : string) (variableLabels : list string) : Desc :=
  {| fqName := fqName; help := help; variableLabels := variableLabels |}.

(** [validateLabelValues]: as many label values as the descriptor has
    variable labels, each of them valid UTF-8. *)
Definition validateLabelValues (vals : list string) (expectedNumberOfValues : nat)
  : option error :=
  if negb (length vals =? expectedNumberOfValues)%nat
  then Some (errorString "inconsistent label cardinality")
  else if negb (forallb utf8.ValidString vals)
  then Some (errorString "label value is not valid UTF-8")
  else None.

Definition NewConstMetric (d : Desc) (vt : ValueType) (v : float64)
           (lvs : list string) : error + Metric :=
  match validateLabelValues lvs (length (variableLabels d)) with
  | Some err => inl err
  | None => inr {| desc := d; valType := vt; val := v; labelValues := lvs |}
  end.

End prometheus.

Record ShardCollector : Type := {
  config : CollectorConfig;
  client : http.Client;
  shardRelocationMetric : prometheus.Desc;
  shardReplicaMetric : prometheus.Desc;
  scrapeErrorMetric : prometheus.Desc;
  scrapeDurationMetric : prometheus.Desc
}.

Definition namespace : string := "trendyol_nosql".

(** ** Programs: the effects of the collector *)

(** A program returns a value, panics, or performs one action and goes
    on with the action's answer.  The actions are those of
    [collector.go]: [c.mutex.Lock()], [c.mutex.Unlock()], [time.Now()],
    [c.client.Do(req)], [log.Printf], the two channel sends and
    [range] over a map (whose order Go leaves open). *)
Inductive Prog (A : Type) : Type :=
| Ret (a : A)
| Panic (v : string)
| MutexLock (k : Prog A)
| MutexUnlock (k : Prog A)
| TimeNow (k : Z -> Prog A)
| ClientDo (c : http.Client) (req : http.Request)
           (k : error + http.Response -> Prog A)
| LogPrintf (msg : string) (k : Prog A)
| SendMetric (m : prometheus.Metric) (k : Prog A)
| SendDesc (d : prometheus.Desc) (k : Prog A)
| MapRange (m : IndexSettingsResponse)
           (k : list (string * IndexSettings) -> Prog A).

Arguments Ret {A} a.
Arguments Panic {A} v.
Arguments MutexLock {A} k.
Arguments MutexUnlock {A} k.
Arguments TimeNow {A} k.
Arguments ClientDo {A} c req k.
Arguments LogPrintf {A} msg k.
Arguments SendMetric {A} m k.
Arguments SendDesc {A} d k.
Arguments MapRange {A} m k.

Fixpoint bind {A B : Type} (p : Prog A) (f : A -> Prog B) : Prog B :=
  match p with
  | Ret a => f a
  | Panic v => Panic v
  | MutexLock k => MutexLock (bind k f)
  | MutexUnlock k => MutexUnlock (bind k f)
  | TimeNow k => TimeNow (fun t => bind (k t) f)
  | ClientDo c req k => ClientDo c req (fun r => bind (k r) f)
  | LogPrintf msg k => LogPrintf msg (bind k f)
  | SendMetric m k => SendMetric m (bind k f)
  | SendDesc d k => SendDesc d (bind k f)
  | MapRange m k => MapRange m (fun l => bind (k l) f)
  end.

#[export] Instance Prog_ret : MRet Prog := @Ret.
#[export] Instance Prog_bind : MBind Prog := fun A B f p => bind p f.

(** [defer d] around [p]: [d] runs when [p] returns and when it panics;
    the panic goes on after it. *)
Fixpoint defer {A : Type} (d : Prog unit) (p : Prog A) : Prog A :=
  match p with
  | Ret a => bind d (fun _ => Ret a)
  | Panic v => bind d (fun _ => Panic v)
  | MutexLock k => MutexLock (defer d k)
  | MutexUnlock k => MutexUnlock (defer d k)
  | TimeNow k => TimeNow (fun t => defer d (k t))
  | ClientDo c req k => ClientDo c req (fun r => defer d (k r))
  | LogPrintf msg k => LogPrintf msg (defer d k)
  | SendMetric m k => SendMetric m (defer d k)
  | SendDesc dd k => SendDesc dd (defer d k)
  | MapRange m k => MapRange m (fun l => defer d (k l))
  end.

Definition mutexLock : Prog unit := MutexLock (Ret tt).
Definition mutexUnlock : Prog unit := MutexUnlock (Ret tt).
Definition timeNow : Prog Z := TimeNow Ret.
Definition clientDo (c : http.Client) (req : http.Request)
  : Prog (error + http.Response) := ClientDo c req Ret.
Definition logPrintf (msg : string) : Prog unit := LogPrintf msg (Ret tt).
Definition sendMetric (m : prometheus.Metric) : Prog unit := SendMetric m (Ret tt).
Definition sendDesc (d : prometheus.Desc) : Prog unit := SendDesc d (Ret tt).
Definition mapRange (m : IndexSettingsResponse)
  : Prog (list (string * IndexSettings)) := MapRange m Ret.

(** [time.Since(start)]: a new reading of the monotonic clock, less
    [start]. *)
Definition timeSince (start : Z) : Prog Z :=
  t ← timeNow; mret (time.subMono t start).

(** [MustNewConstMetric] panics where [NewConstMetric] fails. *)
Definition MustNewConstMetric (d : prometheus.Desc) (vt : prometheus.ValueType)
           (v : prometheus.float64) (lvs : list string) : Prog prometheus.Metric :=
  match prometheus.NewConstMetric d vt v lvs with
  | inl err => Panic (Error err)
  | inr m => Ret m
  end.

(** ** The library functions the collector calls on its data

    [url.Parse] (through [http.NewRequest]), the base-64 encoder
    (through [SetBasicAuth]) and the JSON decoder for the two response
    types belong to the Go standard library; the collector is verified
    for every behaviour they may have. *)
Record Library : Type := {
  url_Parse : string -> option error;
  base64_EncodeToString : string -> string;
  json_DecodeHealth : string -> error + ClusterHealthResponse;
  json_DecodeSettings : string -> error + IndexSettingsResponse
}.

Section Programs.

Variable L : Library.

(** [http.NewRequest(method, url, nil)] with a valid method. *)
Definition NewRequest (method url : string) : error + http.Request :=
  match url_Parse L url with
  | Some err => inl err
  | None => inr {| http.Method := method; http.URL := url; http.Header := ∅ |}
  end.

Definition basicAuth (username password : string) : string :=
  base64_EncodeToString L (username +:+ ":" +:+ password).

Definition SetBasicAuth (req : http.Request) (username password : string)
  : http.Request :=
  http.HeaderSet req "Authorization" ("Basic " +:+ basicAuth username password).

(** The test [s != ""]. *)
Definition nonEmpty (s : string) : bool := negb (String.eqb s "").

Definition NewShardCollector (cfg : CollectorConfig) : ShardCollector * option error :=
  let transport :=
    {| http.MaxIdleConns := 10;
       http.IdleConnTimeout := 30 * time.Second;
       http.DisableCompression := false;
       http.TLSHandshakeTimeout := 10 * time.Second;
       http.TLSClientConfig :=
         if SSLEnable cfg
         then Some {| http.InsecureSkipVerify := SSLSkipVerify cfg |}
         else None |} in
  let client := {| http.transport := transport; http.Timeout := 30 * time.Second |} in
  ({| config := cfg;
      client := client;
      shardRelocationMetric :=
        prometheus.NewDesc "trendyol_nosql_shard_relocation"
                           "Elasticsearch shard relocation status" ["status"];
      shardReplicaMetric :=
        prometheus.NewDesc "trendyol_nosql_shard_replica"
                           "Elasticsearch shard replica count" ["count"];
      scrapeErrorMetric :=
        prometheus.NewDesc (prometheus.BuildFQName namespace "exporter" "scrape_error")
                           "Scrape error status" [];
      scrapeDurationMetric :=
        prometheus.NewDesc
          (prometheus.BuildFQName namespace "exporter" "scrape_duration_seconds")
          "Duration of the scrape in seconds" [] |}, None).

Definition Describe (c : ShardCollector) : Prog unit :=
  sendDesc (shardRelocationMetric c);;
  sendDesc (shardReplicaMetric c);;
  sendDesc (scrapeErrorMetric c);;
  sendDesc (scrapeDurationMetric c).

Definition statusError (resp : http.Response) : error :=
  errorString ("unexpected status code " +:+ fmt.Sprintf_d (http.StatusCode resp)
               +:+ ": " +:+ http.Body resp).

(** [fetchClusterHealth] returns a pointer and an error; [None] is
    the nil pointer.  The body of a response is the text read from it. *)
Definition fetchClusterHealth (c : ShardCollector)
  : Prog (option ClusterHealthResponse * option error) :=
  let url := ESURL (config c) +:+ "/_cluster/health" in
  match NewRequest "GET" url with
  | inl err => mret (None, Some (Errorf_w "failed to create request: " err))
  | inr req =>
    let req :=
      if nonEmpty (ESUser (config c)) && nonEmpty (ESPass (config c))
      then SetBasicAuth req (ESUser (config c)) (ESPass (config c))
      else req in
    let req := http.HeaderSet req "Accept" "application/json" in
    r ← clientDo (client c) req;
    match r with
    | inl err => mret (None, Some (Errorf_w "failed to fetch cluster health: " err))
    | inr resp =>
      if negb (http.StatusCode resp =? http.StatusOK)
      then mret (None, Some (statusError resp))
      else
        match json_DecodeHealth L (http.Body resp) with
        | inl err => mret (None, Some (Errorf_w "failed to decode response: " err))
        | inr health => mret (Some health, None)
        end
    end
  end.

(** One pass of the loop body of [fetchMaxReplicaCount]. *)
Definition replicaStep (maxReplicas : Z) (indexSettings : IndexSettings) : Z :=
  let replicas := 0 in
  let '(replicas, _, _) :=
    fmt.Sscanf_d (NumberOfReplicas (Index (Settings indexSettings))) replicas in
  if replicas >? maxReplicas then replicas else maxReplicas.

Definition replicaLoop (entries : list (string * IndexSettings)) : Z :=
  fold_left (fun maxReplicas kv => replicaStep maxReplicas kv.2) entries 0.

Definition fetchMaxReplicaCount (c : ShardCollector) : Prog (Z * option error) :=
  let url := ESURL (config c) +:+ "/_settings" in
  match NewRequest "GET" url with
  | inl err => mret (0, Some (Errorf_w "failed to create request: " err))
  | inr req =>
    let req :=
      if nonEmpty (ESUser (config c)) && nonEmpty (ESPass (config c))
      then SetBasicAuth req (ESUser (config c)) (ESPass (config c))
      else req in
    let req := http.HeaderSet req "Accept" "application/json" in
    r ← clientDo (client c) req;
    match r with
    | inl err => mret (0, Some (Errorf_w "failed to fetch index settings: " err))
    | inr resp =>
      if negb (http.StatusCode resp =? http.StatusOK)
      then mret (0, Some (statusError resp))
      else
        match json_DecodeSettings L (http.Body resp) with
        | inl err => mret (0, Some (Errorf_w "failed to decode response: " err))
        | inr settings =>
          entries ← mapRange settings;
          mret (replicaLoop entries, None)
        end
    end
  end.

(** [Collect]; each [if err != nil ... else ...] block yields the new
    value of [scrapeError]. *)
Definition Collect (c : ShardCollector) : Prog unit :=
  mutexLock;;
  defer mutexUnlock (
    start ← timeNow;
    let scrapeError := 0 in
    '(health, err) ← fetchClusterHealth c;
    scrapeError ←
      match err with
      | Some e =>
        logPrintf ("Error fetching cluster health: " +:+ Error e);;
        mret 1
      | None =>
        match health with
        | None => Panic "invalid memory address or nil pointer dereference"
        | Some h =>
          let relocationStatus := "inactive" in
          let relocationStatus :=
            if RelocatingShards h >? 0 then "active" else relocationStatus in
          m ← MustNewConstMetric (shardRelocationMetric c) prometheus.GaugeValue
                                 (prometheus.Const 1) [relocationStatus];
          sendMetric m;;
          mret scrapeError
        end
      end;
    '(replicas, err) ← fetchMaxReplicaCount c;
    scrapeError ←
      match err with
      | Some e =>
        logPrintf ("Error fetching replica count: " +:+ Error e);;
        mret 1
      | None =>
        m ← MustNewConstMetric (shardReplicaMetric c) prometheus.GaugeValue
                               (prometheus.Const 1) [fmt.Sprintf_d replicas];
        sendMetric m;;
        mret scrapeError
      end;
    m ← MustNewConstMetric (scrapeErrorMetric c) prometheus.GaugeValue
                           (prometheus.Const scrapeError) [];
    sendMetric m;;
    d ← timeSince start;
    m ← MustNewConstMetric (scrapeDurationMetric c) prometheus.GaugeValue
                           (prometheus.Seconds d) [];
    sendMetric m).

End Programs.

(** ** The environment and the execution of one goroutine *)

(** Everything outside the process: the upstream server and the network
    behind [client.Do], the monotonic clock, and the order in which the
    runtime walks a map.  [tick] is the world moving on until the clock
    is read. *)
Record Environment : Type := {
  World : Type;
  monotonic : World -> Z;
  tick : World -> World;
  RoundTrip : World -> http.Client -> http.Request -> (error + http.Response) * World;
  rangeOrder : World -> IndexSettingsResponse -> list (string * IndexSettings)
}.

(** Readings of the monotonic clock are [int64] values and never go back. *)
Definition clockLaws (E : Environment) : Prop :=
  (forall w, inInt64 (monotonic E w)) /\
  (forall w, monotonic E w <= monotonic E (tick E w)) /\
  (forall w c req, monotonic E w <= monotonic E (RoundTrip E w c req).2).

(** [range] visits every entry of the map once, in some order. *)
Definition rangeLaw (E : Environment) : Prop :=
  forall w (m : IndexSettingsResponse), rangeOrder E w m ≡ₚ map_to_list m.

Inductive Event : Type :=
| EvLock
| EvUnlock
| EvNow (t : Z)
| EvDo (c : http.Client) (req : http.Request) (res : error + http.Response)
| EvLog (msg : string)
| EvMetric (m : prometheus.Metric)
| EvDesc (d : prometheus.Desc)
| EvRange (keys : list string).

(** How a goroutine ends: it returns, it panics, it waits for ever on a
    mutex nobody will release, or the runtime stops the process (an
    [Unlock] of a mutex that is not locked). *)
Inductive Outcome (A : Type) : Type :=
| Returned (a : A)
| Panicked (v : string)
| Blocked
| Fatal (msg : string).

Arguments Returned {A} a.
Arguments Panicked {A} v.
Arguments Blocked {A}.
Arguments Fatal {A} msg.

Section Execution.

Variable E : Environment.

(** The state a goroutine runs in: the world and the collector's
    mutex. *)
Record Machine : Type := {
  world : World E;
  locked : bool
}.

Definition Run (A : Type) : Type := list Event * Outcome A * Machine.

Definition after {A : Type} (ev : Event) (r : Run A) : Run A :=
  let '(tr, o, m) := r in (ev :: tr, o, m).

Fixpoint exec {A : Type} (p : Prog A) (m : Machine) : Run A :=
  match p with
  | Ret a => ([], Returned a, m)
  | Panic v => ([], Panicked v, m)
  | MutexLock k =>
    if locked m then ([], Blocked, m)
    else after EvLock (exec k {| world := world m; locked := true |})
  | MutexUnlock k =>
    if locked m
    then after EvUnlock (exec k {| world := world m; locked := false |})
    else ([], Fatal "sync: Unlock of unlocked RWMutex", m)
  | TimeNow k =>
    let w := tick E (world m) in
    let t := monotonic E w in
    after (EvNow t) (exec (k t) {| world := w; locked := locked m |})
  | ClientDo c req k =>
    let '(res, w) := RoundTrip E (world m) c req in
    after (EvDo c req res) (exec (k res) {| world := w; locked := locked m |})
  | LogPrintf msg k => after (EvLog msg) (exec k m)
  | SendMetric x k => after (EvMetric x) (exec k m)
  | SendDesc d k => after (EvDesc d) (exec k m)
  | MapRange s k =>
    let entries := rangeOrder E (world m) s in
    after (EvRange entries.*1) (exec (k entries) m)
  end.

Definition traceOf {A : Type} (r : Run A) : list Event := r.1.1.
Definition outcomeOf {A : Type} (r : Run A) : Outcome A := r.1.2.
Definition machineOf {A : Type} (r : Run A) : Machine := r.2.

(** The samples sent on the metric channel, the descriptors sent on
    the descriptor channel, the requests handed to [client.Do] and
    the lines logged, each in order. *)
Definition metricsOf (tr : list Event) : list prometheus.Metric :=
  omap (fun ev => match ev with EvMetric x => Some x | _ => None end) tr.

Definition descsOf (tr : list Event) : list prometheus.Desc :=
  omap (fun ev => match ev with EvDesc d => Some d | _ => None end) tr.

Definition requestsOf (tr : list Event) : list http.Request :=
  omap (fun ev => match ev with EvDo _ req _ => Some req | _ => None end) tr.

Definition logsOf (tr : list Event) : list string :=
  omap (fun ev => match ev with EvLog msg => Some msg | _ => None end) tr.

Definition locksOf (tr : list Event) : list Event :=
  omap (fun ev => match ev with
                  | EvLock => Some EvLock
                  | EvUnlock => Some EvUnlock
                  | _ => None
                  end) tr.

End Execution.

Arguments world {E} m.
Arguments locked {E} m.
Arguments Build_Machine {E} world locked.
Arguments after {E A} ev r.
Arguments traceOf {E A} r.
Arguments outcomeOf {E A} r.
Arguments machineOf {E A} r.

(** ** Goroutines: one action at a time *)

Section Goroutines.

Variable E : Environment.

(** One action of a goroutine: the event, the rest of the program and
    the new machine.  [None]: the goroutine is at rest, or it waits for
    the mutex, or it unlocks a mutex that is not locked. *)
Definition act {A : Type} (p : Prog A) (m : Machine E)
  : option (Event * Prog A * Machine E) :=
  match p with
  | Ret _ | Panic _ => None
  | MutexLock k =>
    if locked m then None else Some (EvLock, k, Build_Machine (world m) true)
  | MutexUnlock k =>
    if locked m then Some (EvUnlock, k, Build_Machine (world m) false) else None
  | TimeNow k =>
    let w := tick E (world m) in
    let t := monotonic E w in
    Some (EvNow t, k t, Build_Machine w (locked m))
  | ClientDo c req k =>
    let '(res, w) := RoundTrip E (world m) c req in
    Some (EvDo c req res, k res, Build_Machine w (locked m))
  | LogPrintf msg k => Some (EvLog msg, k, m)
  | SendMetric x k => Some (EvMetric x, k, m)
  | SendDesc d k => Some (EvDesc d, k, m)
  | MapRange s k =>
    let entries := rangeOrder E (world m) s in
    Some (EvRange entries.*1, k entries, m)
  end.

(** How a goroutine that cannot act has ended. *)
Definition ended {A : Type} (p : Prog A) : Outcome A :=
  match p with
  | Ret a => Returned a
  | Panic v => Panicked v
  | MutexUnlock _ => Fatal "sync: Unlock of unlocked RWMutex"
  | _ => Blocked
  end.

(** The goroutines of the process, the machine they share, and what
    happened so far: each event with the goroutine that did it. *)
Record Pool : Type := {
  goroutines : list (Prog unit);
  shared : Machine E;
  history : list (nat * Event)
}.

(** Goroutine [i] does its next action. *)
Inductive step : Pool -> Pool -> Prop :=
| step_goroutine (P : Pool) (i : nat) (p p' : Prog unit) (ev : Event) (m' : Machine E) :
    goroutines P !! i = Some p ->
    act p (shared P) = Some (ev, p', m') ->
    step P {| goroutines := <[i := p']> (goroutines P);
              shared := m';
              history := history P ++ [(i, ev)] |}.

End Goroutines.

Arguments goroutines {E} p.
Arguments shared {E} p.
Arguments history {E} p.
Arguments Build_Pool {E} goroutines shared history.
Arguments act {E A} p m.
Arguments step {E} _ _.
Arguments step_goroutine {E} P i p p' ev m' _ _.

(** Reading a history as a sequence of critical sections.  The state
    is the goroutine holding the mutex, if any; [None] as a result means
    the history is not such a sequence. *)
Definition serialStep (holder : option nat) (e : nat * Event) : option (option nat) :=
  match holder, e with
  | None, (i, EvLock) => Some (Some i)
  | None, _ => None
  | Some h, (i, ev) =>
    if negb (h =? i)%nat then None
    else match ev with
         | EvLock => None
         | EvUnlock => Some None
         | _ => Some (Some h)
         end
  end.

Definition serialFrom (st : option (option nat)) (h : list (nat * Event))
  : option (option nat) :=
  fold_left (fun st e => match st with
                         | Some holder => serialStep holder e
                         | None => None
                         end) h st.

Definition serialRun (h : list (nat * Event)) : option (option nat) :=
  serialFrom (Some None) h.

(** The outcome of a program whose deferred call ended with [od]. *)
Definition andThen {A : Type} (o : Outcome A) (od : Outcome unit) : Outcome A :=
  match od with
  | Returned _ => o
  | Panicked v => Panicked v
  | Blocked => Blocked
  | Fatal msg => Fatal msg
  end.

(** ** Notions the properties are stated with *)

Fixpoint isASCII (s : string) : bool :=
  match s with
  | EmptyString => true
  | String a t => (utf8.byteOf a <? 0x80) && isASCII t
  end.

#[export] Instance Desc_eq_dec : EqDecision prometheus.Desc.
Proof. solve_decision. Defined.

(** The samples of one descriptor among [ms]. *)
Definition samplesFor (d : prometheus.Desc) (ms : list prometheus.Metric)
  : list prometheus.Metric :=
  filter (fun x => prometheus.desc x = d) ms.

(** What an entry contributes.  [scannedReplicas] is what the loop body
    computes: the value [fmt.Sscanf] with [%d] leaves in a variable that
    was 0 before.  [parsedReplicas] follows the specification's words:
    the integer the string denotes, and 0 for a string that is not a
    valid integer. *)
Definition scannedReplicas (s : IndexSettings) : Z :=
  (fmt.Sscanf_d (NumberOfReplicas (Index (Settings s))) 0).1.1.

Definition parsedReplicas (s : IndexSettings) : Z :=
  match strconv.Atoi (NumberOfReplicas (Index (Settings s))) with
  | (n, None) => n
  | (_, Some _) => 0
  end.

(** [r] is the maximum of 0 and of the contributions of the entries. *)
Definition isMaxOver (f : IndexSettings -> Z) (settings : IndexSettingsResponse)
           (r : Z) : Prop :=
  0 <= r /\
  (forall k s, settings !! k = Some s -> f s <= r) /\
  (r = 0 \/ exists k s, settings !! k = Some s /\ f s = r).

(** The same library with another decoder for the health response. *)
Definition withHealthDecoder (L : Library)
           (d : string -> error + ClusterHealthResponse) : Library :=
  {| url_Parse := url_Parse L;
     base64_EncodeToString := base64_EncodeToString L;
     json_DecodeHealth := d;
     json_DecodeSettings := json_DecodeSettings L |}.

(** Two decoding results agree when both are the same error, or both
    are responses with the same [RelocatingShards]; the other fields of
    the two responses are free. *)
Definition agreeOnRelocating (r1 r2 : error + ClusterHealthResponse) : Prop :=
  match r1, r2 with
  | inr h1, inr h2 => RelocatingShards h1 = RelocatingShards h2
  | inl e1, inl e2 => e1 = e2
  | _, _ => False
  end.

(** A program that never touches the mutex. *)
Inductive lockFree {A : Type} : Prog A -> Prop :=
| lockFree_Ret a : lockFree (Ret a)
| lockFree_Panic v : lockFree (Panic v)
| lockFree_TimeNow k : (forall t, lockFree (k t)) -> lockFree (TimeNow k)
| lockFree_ClientDo c req k : (forall r, lockFree (k r)) -> lockFree (ClientDo c req k)
| lockFree_LogPrintf msg k : lockFree k -> lockFree (LogPrintf msg k)
| lockFree_SendMetric x k : lockFree k -> lockFree (SendMetric x k)
| lockFree_SendDesc d k : lockFree k -> lockFree (SendDesc d k)
| lockFree_MapRange s k : (forall l, lockFree (k l)) -> lockFree (MapRange s k).

(** A program at rest has returned or panicked. *)
Definition atRest {A : Type} (p : Prog A) : Prop :=
  match p with
  | Ret _ | Panic _ => True
  | _ => False
  end.

(** A program inside the critical section: it never locks, and on every
    path its one use of the mutex is the [Unlock] it ends with. *)
Inductive inCritical {A : Type} : Prog A -> Prop :=
| inCritical_Unlock k : atRest k -> inCritical (MutexUnlock k)
| inCritical_TimeNow k : (forall t, inCritical (k t)) -> inCritical (TimeNow k)
| inCritical_ClientDo c req k :
    (forall r, inCritical (k r)) -> inCritical (ClientDo c req k)
| inCritical_LogPrintf msg k : inCritical k -> inCritical (LogPrintf msg k)
| inCritical_SendMetric x k : inCritical k -> inCritical (SendMetric x k)
| inCritical_SendDesc d k : inCritical k -> inCritical (SendDesc d k)
| inCritical_MapRange s k : (forall l, inCritical (k l)) -> inCritical (MapRange s k).

(** ** One scrape cycle *)

Section Cycle.

Variable L : Library.
Variable E : Environment.

(** [Collect] in pieces: what it does with the result of each fetch,
    and its body between [Lock] and [Unlock]. *)
Definition reportHealth (c : ShardCollector) (scrapeError : Z)
           (health : option ClusterHealthResponse) (err : option error) : Prog Z :=
  match err with
  | Some e =>
    logPrintf ("Error fetching cluster health: " +:+ Error e);;
    mret 1
  | None =>
    match health with
    | None => Panic "invalid memory address or nil pointer dereference"
    | Some h =>
      let relocationStatus := "inactive" in
      let relocationStatus :=
        if RelocatingShards h >? 0 then "active" else relocationStatus in
      m ← MustNewConstMetric (shardRelocationMetric c) prometheus.GaugeValue
                             (prometheus.Const 1) [relocationStatus];
      sendMetric m;;
      mret scrapeError
    end
  end.

Definition reportReplicas (c : ShardCollector) (scrapeError : Z)
           (replicas : Z) (err : option error) : Prog Z :=
  match err with
  | Some e =>
    logPrintf ("Error fetching replica count: " +:+ Error e);;
    mret 1
  | None =>
    m ← MustNewConstMetric (shardReplicaMetric c) prometheus.GaugeValue
                           (prometheus.Const 1) [fmt.Sprintf_d replicas];
    sendMetric m;;
    mret scrapeError
  end.

Definition collectBody (c : ShardCollector) : Prog unit :=
  start ← timeNow;
  let scrapeError := 0 in
  '(health, err) ← fetchClusterHealth L c;
  scrapeError ← reportHealth c scrapeError health err;
  '(replicas, err) ← fetchMaxReplicaCount L c;
  scrapeError ← reportReplicas c scrapeError replicas err;
  m ← MustNewConstMetric (scrapeErrorMetric c) prometheus.GaugeValue
                         (prometheus.Const scrapeError) [];
  sendMetric m;;
  d ← timeSince start;
  m ← MustNewConstMetric (scrapeDurationMetric c) prometheus.GaugeValue
                         (prometheus.Seconds d) [];
  sendMetric m.

(** The two fetches as [Collect] runs them: with the mutex held. *)
Definition healthFetch (c : ShardCollector) (w : World E)
  : Run E (option ClusterHealthResponse * option error) :=
  exec E (fetchClusterHealth L c) (Build_Machine w true).

Definition settingsFetch (c : ShardCollector) (w : World E)
  : Run E (Z * option error) :=
  exec E (fetchMaxReplicaCount L c) (Build_Machine w true).

(** A fetch failed when it did not return a nil error. *)
Definition failed {A : Type} (r : Run E (A * option error)) : bool :=
  match outcomeOf r with
  | Returned (_, None) => false
  | _ => true
  end.

(** Events of the upstream side only: requests and map walks. *)
Definition upstreamEvent (ev : Event) : Prop :=
  match ev with
  | EvDo _ _ _ | EvRange _ => True
  | _ => False
  end.

(** The request a fetch hands to [client.Do] for the endpoint [path]. *)
Definition requestTo (c : ShardCollector) (path : string) : http.Request :=
  let req := {| http.Method := "GET"; http.URL := ESURL (config c) +:+ path;
                http.Header := ∅ |} in
  let req :=
    if nonEmpty (ESUser (config c)) && nonEmpty (ESPass (config c))
    then SetBasicAuth L req (ESUser (config c)) (ESPass (config c))
    else req in
  http.HeaderSet req "Accept" "application/json".

Definition healthRequest (c : ShardCollector) : http.Request :=
  requestTo c "/_cluster/health".

Definition settingsRequest (c : ShardCollector) : http.Request :=
  requestTo c "/_settings".

Definition sentIf (err : option error) (req : http.Request) : list http.Request :=
  match err with
  | Some _ => []
  | None => [req]
  end.

(** The samples of a cycle. *)
Definition gauge (d : prometheus.Desc) (v : prometheus.float64) (lvs : list string)
  : prometheus.Metric :=
  {| prometheus.desc := d; prometheus.valType := prometheus.GaugeValue;
     prometheus.val := v; prometheus.labelValues := lvs |}.

Definition relocationLabel (h : ClusterHealthResponse) : string :=
  if RelocatingShards h >? 0 then "active" else "inactive".

Definition relocationSample (c : ShardCollector) (h : ClusterHealthResponse) :=
  gauge (shardRelocationMetric c) (prometheus.Const 1) [relocationLabel h].

Definition replicaSample (c : ShardCollector) (n : Z) :=
  gauge (shardReplicaMetric c) (prometheus.Const 1) [fmt.Sprintf_d n].

Definition scrapeErrorSample (c : ShardCollector) (v : Z) :=
  gauge (scrapeErrorMetric c) (prometheus.Const v) [].

Definition scrapeDurationSample (c : ShardCollector) (d : Z) :=
  gauge (scrapeDurationMetric c) (prometheus.Seconds d) [].

(** What [Collect] does with the result of each fetch. *)
Definition healthEvents (c : ShardCollector)
           (h : option ClusterHealthResponse) (err : option error) : list Event :=
  match err, h with
  | Some e, _ => [EvLog ("Error fetching cluster health: " +:+ Error e)]
  | None, Some h => [EvMetric (relocationSample c h)]
  | None, None => []
  end.

Definition replicaEvents (c : ShardCollector) (n : Z) (err : option error)
  : list Event :=
  match err with
  | Some e => [EvLog ("Error fetching replica count: " +:+ Error e)]
  | None => [EvMetric (replicaSample c n)]
  end.

Definition errorFlag (errH errS : option error) : Z :=
  match errH, errS with
  | None, None => 0
  | _, _ => 1
  end.

(** The cycle started in world [w], and its two fetches: the health
    fetch runs once the start time is read, the settings fetch in
    the world the health fetch leaves. *)
Definition cycle (cfg : CollectorConfig) (w : World E) : Run E unit :=
  exec E (Collect L (NewShardCollector cfg).1) (Build_Machine w false).

Definition cycleHealth (cfg : CollectorConfig) (w : World E) :=
  healthFetch (NewShardCollector cfg).1 (tick E w).

Definition cycleSettings (cfg : CollectorConfig) (w : World E) :=
  settingsFetch (NewShardCollector cfg).1 (world (machineOf (cycleHealth cfg w))).

Definition healthSamples (c : ShardCollector)
           (h : option ClusterHealthResponse) (err : option error)
  : list prometheus.Metric :=
  match err, h with
  | None, Some h => [relocationSample c h]
  | _, _ => []
  end.

Definition replicaSamples (c : ShardCollector) (n : Z) (err : option error)
  : list prometheus.Metric :=
  match err with
  | None => [replicaSample c n]
  | Some _ => []
  end.

(** The [Authorization] header of a request, if it has one. *)
Definition authorization (req : http.Request) : option (list string) :=
  http.Header req !! "Authorization".

End Cycle.

Section Statements.

Variable L : Library.
Variable E : Environment.

(** The relocation samples of a cycle whose health fetch returned [h]
    are one gauge of value 1; [inactiveWhen] says for which counts its
    label is ["inactive"]. *)
Definition relocationLabelled (inactiveWhen : Z -> Prop)
           (cfg : CollectorConfig) (w : World E) (h : ClusterHealthResponse) : Prop :=
  let c := (NewShardCollector cfg).1 in
  exists l,
    samplesFor (shardRelocationMetric c) (metricsOf (traceOf (cycle L E cfg w)))
    = [gauge (shardRelocationMetric c) (prometheus.Const 1) [l]] /\
    (l = "active" <-> 0 < RelocatingShards h) /\
    (l = "inactive" <-> inactiveWhen (RelocatingShards h)).

(** The settings endpoint answered the request of [c] in world [w] with
    status 200 and a body that decodes to [settings]. *)
Definition settingsDecoded (c : ShardCollector) (w : World E)
           (settings : IndexSettingsResponse) : Prop :=
  url_Parse L (ESURL (config c) +:+ "/_settings") = None /\
  exists resp w',
    RoundTrip E w (client c) (settingsRequest L c) = (inr resp, w') /\
    http.StatusCode resp = http.StatusOK /\
    json_DecodeSettings L (http.Body resp) = inr settings.

(** For a decoded map the fetch returns no error, so it does not count
    as failed, and it returns the maximum of 0 and of what the entries
    contribute according to [f]. *)
Definition derivesMaxOver (f : IndexSettings -> Z) (c : ShardCollector)
           (w : World E) (settings : IndexSettingsResponse) : Prop :=
  exists r,
    outcomeOf (settingsFetch L E c w) = Returned (r, None) /\
    failed E (settingsFetch L E c w) = false /\
    isMaxOver f settings r.

End Statements.

(** ** Goroutines that scrape *)

Section Scraping.

Variable L : Library.
Variable E : Environment.
Variable c : ShardCollector.

(** [n] goroutines, each about to call [Collect] on the same collector. *)
Definition scraping (n : nat) (w : World E) : Pool E :=
  {| goroutines := replicate n (Collect L c);
     shared := Build_Machine w false;
     history := [] |}.

Definition held (holder : option nat) : bool :=
  match holder with
  | Some _ => true
  | None => false
  end.

(** The goroutine holding the mutex is inside its critical section; any
    other has not started or is at rest. *)
Definition goroutineOK (holder : option nat) (j : nat) (p : Prog unit) : Prop :=
  if decide (holder = Some j) then inCritical p
  else p = Collect L c \/ atRest p.

Definition invariant (P : Pool E) : Prop :=
  exists holder,
    serialRun (history P) = Some holder /\
    locked (shared P) = held holder /\
    (forall i, holder = Some i -> is_Some (goroutines P !! i)) /\
    forall j p, goroutines P !! j = Some p -> goroutineOK holder j p.

End Scraping.

(** ** A scripted upstream

    A library and an environment with fixed answers: every URL is well
    formed, every body decodes to the given values, every request is
    answered with the given status, and a round trip takes five
    nanoseconds of a clock that stops at one second. *)

Module Fixture.

Definition health (relocating : Z) : ClusterHealthResponse :=
  {| ClusterName := "es"; Status := "green"; TimedOut := false;
     NumberOfNodes := 3; NumberOfDataNodes := 3;
     ActivePrimaryShards := 5; ActiveShards := 10;
     RelocatingShards := relocating;
     InitializingShards := 0; UnassignedShards := 0;
     DelayedUnassignedShards := 0; NumberOfPendingTasks := 0;
     NumberOfInFlightFetch := 0; TaskMaxWaitingInQueueMillis := 0;
     ActiveShardsPercentAsNumber := "100.0" |}.

Definition index (replicas : string) : IndexSettings :=
  {| Settings := {| Index := {| NumberOfReplicas := replicas;
                                NumberOfShards := "1" |} |} |}.

Definition library (h : error + ClusterHealthResponse)
           (s : error + IndexSettingsResponse) : Library :=
  {| url_Parse := fun _ => None;
     base64_EncodeToString := fun x => x;
     json_DecodeHealth := fun _ => h;
     json_DecodeSettings := fun _ => s |}.

Definition upstream (status : Z) : Environment :=
  {| World := Z;
     monotonic := fun w => Z.max 0 (Z.min w time.Second);
     tick := fun w => w + 1;
     RoundTrip := fun w _ _ =>
                    (inr {| http.StatusCode := status; http.Body := "{}" |}, w + 5);
     rangeOrder := fun _ m => map_to_list m |}.

Definition cfg (user pass : string) : CollectorConfig :=
  {| ESURL := "http://localhost:9200"; ESUser := user; ESPass := pass;
     SSLEnable := false; SSLSkipVerify := false |}.

End Fixture.

(** ** Further notions: clock readings, log lines, finished goroutines *)

(** The readings of the clock in a trace, in order. *)
Definition clockReads (tr : list Event) : list Z :=
  omap (fun ev => match ev with EvNow t => Some t | _ => None end) tr.

(** The line [log.Printf(what + "%v", err)] writes when [err] is not nil. *)
Definition logLine (what : string) (err : option error) : list string :=
  match err with
  | Some e => [what +:+ Error e]
  | None => []
  end.

(** The URL of a request that was built, none when [url.Parse] refused it. *)
Definition urlIfParsed (L : Library) (url : string) : list string :=
  match url_Parse L url with
  | Some _ => []
  | None => [url]
  end.

(** The same environment with another order of walking a map. *)
Definition withRangeOrder (E : Environment)
           (order : World E -> IndexSettingsResponse -> list (string * IndexSettings))
  : Environment :=
  {| World := World E;
     monotonic := monotonic E;
     tick := tick E;
     RoundTrip := RoundTrip E;
     rangeOrder := order |}.

(** [within n p]: on every path [p] does at most [n] actions. *)
Inductive within {A : Type} : nat -> Prog A -> Prop :=
| within_Ret n a : within n (Ret a)
| within_Panic n v : within n (Panic v)
| within_MutexLock n k : within n k -> within (S n) (MutexLock k)
| within_MutexUnlock n k : within n k -> within (S n) (MutexUnlock k)
| within_TimeNow n k : (forall t, within n (k t)) -> within (S n) (TimeNow k)
| within_ClientDo n c req k :
    (forall r, within n (k r)) -> within (S n) (ClientDo c req k)
| within_LogPrintf n msg k : within n k -> within (S n) (LogPrintf msg k)
| within_SendMetric n x k : within n k -> within (S n) (SendMetric x k)
| within_SendDesc n d k : within n k -> within (S n) (SendDesc d k)
| within_MapRange n s k : (forall l, within n (k l)) -> within (S n) (MapRange s k).

(** The decimal digits of a string, as [strconv] sees them. *)
Definition allDigits (s : string) : bool :=
  forallb strconv.isDigit (utf8.byteOf <$> list_ascii_of_string s).

(** A goroutine that returned or panicked, as opposed to one that
    waits for the mutex or was stopped by the runtime. *)
Definition ends {A : Type} (o : Outcome A) : Prop :=
  match o with
  | Returned _ | Panicked _ => True
  | Blocked | Fatal _ => False
  end.

(** ** Histories made of whole cycles *)

Section Serial.

Variable L : Library.
Variable E : Environment.
Variable c : ShardCollector.

(** The events [tr], done by goroutine [i]. *)
Definition doneBy (i : nat) (tr : list Event) : list (nat * Event) := pair i <$> tr.

(** The call of [Collect] that finds the world [w0] and the mutex free,
    with no other goroutine around. *)
Definition alone (w0 : World E) : Run E unit :=
  exec E (Collect L c) (Build_Machine w0 false).

(** [serial w h w']: the history [h] is a sequence of whole calls of
    [Collect], each done by one goroutine and each exactly what the call
    alone does in the world it finds: the first one finds [w], every
    other one the world the call before it leaves, and the last one
    leaves [w']. *)
Inductive serial : World E -> list (nat * Event) -> World E -> Prop :=
| serial_nil w : serial w [] w
| serial_snoc w h w' i :
    serial w h w' ->
    serial w (h ++ doneBy i (traceOf (alone w'))) (world (machineOf (alone w'))).

(** While goroutine [i] holds the mutex: whole calls, then the part
    done of the call of [i], which goes on as that call alone would. *)
Definition underway (w : World E) (P : Pool E) (i : nat) : Prop :=
  exists h0 w0 prefix p,
    goroutines P !! i = Some p /\
    history P = h0 ++ doneBy i prefix /\
    serial w h0 w0 /\
    prefix ++ traceOf (exec E p (shared P)) = traceOf (alone w0) /\
    machineOf (exec E p (shared P)) = machineOf (alone w0).

(** The pool once goroutine [i], whose program is [p], has run [p] to
    its end with no other goroutine moving, and is left with [q]. *)
Definition ranAlone (P : Pool E) (i : nat) (p q : Prog unit) : Pool E :=
  {| goroutines := <[i := q]> (goroutines P);
     shared := machineOf (exec E p (shared P));
     history := history P ++ doneBy i (traceOf (exec E p (shared P))) |}.

Definition serialized (w : World E) (P : Pool E) : Prop :=
  match serialRun (history P) with
  | Some None => serial w (history P) (world (shared P))
  | Some (Some i) => underway w P i
  | None => False
  end.

End Serial.

(** ** Package [flag]: the command line, as [main.go] uses it

    [main.go] binds string and boolean flags to the fields of a struct
    and calls [flag.Parse()].  A flag set is kept with the struct its
    flags are bound to; a pointer to a field is the function that
    stores into it. *)

Module flag.

(** [strconv.ParseBool], to which a boolean flag hands its text. *)
Definition ParseBool (str : string) : option bool :=
  if bool_decide (str ∈ ["1"; "t"; "T"; "true"; "TRUE"; "True"]) then Some true
  else if bool_decide (str ∈ ["0"; "f"; "F"; "false"; "FALSE"; "False"]) then Some false
  else None.

(** What [parseOne] fails with.  [failf] writes the message of the
    error and the usage text to standard error; the messages are
    [bad flag syntax: %s], [flag provided but not defined: -%s],
    [invalid boolean value %q for -%s: %v], [invalid boolean flag %s: %v],
    [flag needs an argument: -%s] and [invalid value %q for flag -%s: %v].
    [ErrHelp] is the answer to [-h] and [-help]. *)
Inductive Error : Type :=
| ErrHelp
| errBadSyntax (s : string)
| errNotDefined (name : string)
| errInvalidBoolValue (value name : string)
| errInvalidBoolFlag (name : string)
| errNeedsArgument (name : string)
| errInvalidValue (value name : string).

(** [s[i]] and [s[n:]] on the bytes of a string. *)
Definition byteAt (s : string) (i : nat) : ascii :=
  default Ascii.zero (String.get i s).

Fixpoint sliceFrom (n : nat) (s : string) : string :=
  match n, s with
  | O, _ => s
  | S n', String _ t => sliceFrom n' t
  | S _, EmptyString => EmptyString
  end.

(** [s[0:n]]. *)
Fixpoint sliceTo (n : nat) (s : string) : string :=
  match n, s with
  | O, _ => EmptyString
  | S n', String a t => String a (sliceTo n' t)
  | S _, EmptyString => EmptyString
  end.

(** The loop [for i := 1; i < len(name); i++] of [parseOne], from
    index [i] on [rest = name[i:]]: the index of the first [=]. *)
Fixpoint indexEquals (rest : string) (i : nat) : option nat :=
  match rest with
  | EmptyString => None
  | String c t => if Ascii.eqb c "=" then Some i else indexEquals t (S i)
  end.

Section FlagSet.

(** The struct the flags are bound to. *)
Variable T : Type.

(** The two kinds of [Value] of [main.go]: [*stringValue] and
    [*boolValue], each a pointer into the struct. *)
Inductive Value : Type :=
| stringValue (p : string -> T -> T)
| boolValue (p : bool -> T -> T).

Record Flag : Type := {
  Name : string;
  Usage : string;
  FlagValue : Value;
  DefValue : string
}.

Record FlagSet : Type := {
  formal : gmap string Flag;
  actual : gmap string Flag;
  args : list string;
  vars : T
}.

Definition setArgs (f : FlagSet) (arguments : list string) : FlagSet :=
  {| formal := formal f; actual := actual f; args := arguments; vars := vars f |}.

(** [StringVar(p, name, value, usage)] and [BoolVar]: the default is
    stored through the pointer and the flag is added to [formal].  (A
    name defined twice would panic; the names of [main.go] differ.) *)
Definition StringVar (p : string -> T -> T) (name value usage : string)
           (f : FlagSet) : FlagSet :=
  {| formal := <[name := {| Name := name; Usage := usage;
                            FlagValue := stringValue p; DefValue := value |}]> (formal f);
     actual := actual f;
     args := args f;
     vars := p value (vars f) |}.

Definition formatBool (b : bool) : string := if b then "true" else "false".

Definition BoolVar (p : bool -> T -> T) (name : string) (value : bool) (usage : string)
           (f : FlagSet) : FlagSet :=
  {| formal := <[name := {| Name := name; Usage := usage;
                            FlagValue := boolValue p; DefValue := formatBool value |}]> (formal f);
     actual := actual f;
     args := args f;
     vars := p value (vars f) |}.

(** [Value.Set]: the new content of the struct, and whether the text
    was refused.  A boolean flag stores [false] when it refuses. *)
Definition Set_ (v : Value) (s : string) (x : T) : T * bool :=
  match v with
  | stringValue p => (p s x, true)
  | boolValue p =>
    match ParseBool s with
    | Some b => (p b x, true)
    | None => (p false x, false)
    end
  end.

Definition isBoolFlag (v : Value) : bool :=
  match v with
  | boolValue _ => true
  | stringValue _ => false
  end.

Definition stored (f : FlagSet) (name : string) (flag : Flag) (x : T) : FlagSet :=
  {| formal := formal f; actual := <[name := flag]> (actual f);
     args := args f; vars := x |}.

Definition failed (f : FlagSet) (x : T) : FlagSet :=
  {| formal := formal f; actual := actual f; args := args f; vars := x |}.

(** [parseOne]: whether a flag was seen, the error, and the flag set
    after it. *)
Definition parseOne (f : FlagSet) : bool * option Error * FlagSet :=
  match args f with
  | [] => (false, None, f)
  | s :: rest =>
    if (String.length s <? 2)%nat || negb (Ascii.eqb (byteAt s 0) "-")
    then (false, None, f)
    else
      let numMinuses := if Ascii.eqb (byteAt s 1) "-" then 2%nat else 1%nat in
      if Ascii.eqb (byteAt s 1) "-" && (String.length s =? 2)%nat
      then (false, None, setArgs f rest)
      else
        let name := sliceFrom numMinuses s in
        if (String.length name =? 0)%nat
           || Ascii.eqb (byteAt name 0) "-" || Ascii.eqb (byteAt name 0) "="
        then (false, Some (errBadSyntax s), f)
        else
          let f := setArgs f rest in
          let '(name, hasValue, value) :=
            match indexEquals (sliceFrom 1 name) 1 with
            | Some i => (sliceTo i name, true, sliceFrom (S i) name)
            | None => (name, false, "")
            end in
          match formal f !! name with
          | None =>
            if String.eqb name "help" || String.eqb name "h"
            then (false, Some ErrHelp, f)
            else (false, Some (errNotDefined name), f)
          | Some flag =>
            if isBoolFlag (FlagValue flag)
            then
              if hasValue
              then
                let '(x, ok) := Set_ (FlagValue flag) value (vars f) in
                if ok then (true, None, stored f name flag x)
                else (false, Some (errInvalidBoolValue value name), failed f x)
              else
                let '(x, ok) := Set_ (FlagValue flag) "true" (vars f) in
                if ok then (true, None, stored f name flag x)
                else (false, Some (errInvalidBoolFlag name), failed f x)
            else
              let '(hasValue, value, f) :=
                match hasValue, args f with
                | false, next :: rest' => (true, next, setArgs f rest')
                | _, _ => (hasValue, value, f)
                end in
              if negb hasValue
              then (false, Some (errNeedsArgument name), f)
              else
                let '(x, ok) := Set_ (FlagValue flag) value (vars f) in
                if ok then (true, None, stored f name flag x)
                else (false, Some (errInvalidValue value name), failed f x)
          end
  end.

(** The loop of [Parse]: [parseOne] as long as it sees a flag.  Each
    flag seen takes at least one argument away, so as many rounds as
    there are arguments are enough. *)
Fixpoint parseLoop (rounds : nat) (f : FlagSet) : option Error * FlagSet :=
  let '(seen, err, f') := parseOne f in
  if seen
  then match rounds with
       | S rounds' => parseLoop rounds' f'
       | O => (err, f')
       end
  else (err, f').

Definition parseFrom (f : FlagSet) : option Error * FlagSet :=
  parseLoop (length (args f)) f.

(** [f.Parse(arguments)], before the error handling of the flag set. *)
Definition Parse (f : FlagSet) (arguments : list string) : option Error * FlagSet :=
  parseFrom (setArgs f arguments).

End FlagSet.

Arguments stringValue {T} p.
Arguments boolValue {T} p.
Arguments Name {T} f.
Arguments Usage {T} f.
Arguments FlagValue {T} f.
Arguments DefValue {T} f.
Arguments formal {T} f.
Arguments actual {T} f.
Arguments args {T} f.
Arguments vars {T} f.
Arguments Build_Flag {T} Name Usage FlagValue DefValue.
Arguments Build_FlagSet {T} formal actual args vars.
Arguments setArgs {T} f arguments.
Arguments StringVar {T} p name value usage f.
Arguments BoolVar {T} p name value usage f.
Arguments Set_ {T} v s x.
Arguments isBoolFlag {T} v.
Arguments stored {T} f name flag x.
Arguments failed {T} f x.
Arguments parseOne {T} f.
Arguments parseLoop {T} rounds f.
Arguments parseFrom {T} f.
Arguments Parse {T} f arguments.

End flag.

(** ** [main.go]: the process around the collector *)

Module main.

(** [Version] and [BuildTime] are package variables the linker may set
    ([-ldflags -X] in the Makefile). *)
Record Build : Type := {
  Version : string;
  BuildTime : string
}.

Definition sourceBuild : Build := {| Version := "1.0.0"; BuildTime := "unknown" |}.

Record Config : Type := {
  ListenAddr : string;
  MetricsPath : string;
  ESUrl : string;
  ESUser : string;
  ESPass : string;
  SSLEnable : bool;
  SSLSkipVerify : bool;
  ShowVersion : bool
}.

(** The pointers [&config.ListenAddr], ..., [&config.ShowVersion]. *)
Definition atListenAddr (v : string) (c : Config) : Config :=
  {| ListenAddr := v; MetricsPath := MetricsPath c; ESUrl := ESUrl c;
     ESUser := ESUser c; ESPass := ESPass c; SSLEnable := SSLEnable c;
     SSLSkipVerify := SSLSkipVerify c; ShowVersion := ShowVersion c |}.

Definition atMetricsPath (v : string) (c : Config) : Config :=
  {| ListenAddr := ListenAddr c; MetricsPath := v; ESUrl := ESUrl c;
     ESUser := ESUser c; ESPass := ESPass c; SSLEnable := SSLEnable c;
     SSLSkipVerify := SSLSkipVerify c; ShowVersion := ShowVersion c |}.

Definition atESUrl (v : string) (c : Config) : Config :=
  {| ListenAddr := ListenAddr c; MetricsPath := MetricsPath c; ESUrl := v;
     ESUser := ESUser c; ESPass := ESPass c; SSLEnable := SSLEnable c;
     SSLSkipVerify := SSLSkipVerify c; ShowVersion := ShowVersion c |}.

Definition atESUser (v : string) (c : Config) : Config :=
  {| ListenAddr := ListenAddr c; MetricsPath := MetricsPath c; ESUrl := ESUrl c;
     ESUser := v; ESPass := ESPass c; SSLEnable := SSLEnable c;
     SSLSkipVerify := SSLSkipVerify c; ShowVersion := ShowVersion c |}.

Definition atESPass (v : string) (c : Config) : Config :=
  {| ListenAddr := ListenAddr c; MetricsPath := MetricsPath c; ESUrl := ESUrl c;
     ESUser := ESUser c; ESPass := v; SSLEnable := SSLEnable c;
     SSLSkipVerify := SSLSkipVerify c; ShowVersion := ShowVersion c |}.

Definition atSSLEnable (v : bool) (c : Config) : Config :=
  {| ListenAddr := ListenAddr c; MetricsPath := MetricsPath c; ESUrl := ESUrl c;
     ESUser := ESUser c; ESPass := ESPass c; SSLEnable := v;
     SSLSkipVerify := SSLSkipVerify c; ShowVersion := ShowVersion c |}.

Definition atSSLSkipVerify (v : bool) (c : Config) : Config :=
  {| ListenAddr := ListenAddr c; MetricsPath := MetricsPath c; ESUrl := ESUrl c;
     ESUser := ESUser c; ESPass := ESPass c; SSLEnable := SSLEnable c;
     SSLSkipVerify := v; ShowVersion := ShowVersion c |}.

Definition atShowVersion (v : bool) (c : Config) : Config :=
  {| ListenAddr := ListenAddr c; MetricsPath := MetricsPath c; ESUrl := ESUrl c;
     ESUser := ESUser c; ESPass := ESPass c; SSLEnable := SSLEnable c;
     SSLSkipVerify := SSLSkipVerify c; ShowVersion := v |}.

(** The response a handler writes: [w.Header()], the status and the
    headers as [WriteHeader] sent them, and the body written. *)
Record ResponseWriter : Type := {
  header : gmap string (list string);
  sent : option (Z * gmap string (list string));
  written : string
}.

Definition HeaderSet (key val : string) (w : ResponseWriter) : ResponseWriter :=
  {| header := <[key := [val]]> (header w); sent := sent w; written := written w |}.

(** [WriteHeader]: a second call changes nothing. *)
Definition WriteHeader (statusCode : Z) (w : ResponseWriter) : ResponseWriter :=
  match sent w with
  | Some _ => w
  | None => {| header := header w; sent := Some (statusCode, header w);
               written := written w |}
  end.

(** [Write] first sends the header with status 200 if none was sent. *)
Definition Write (b : string) (w : ResponseWriter) : ResponseWriter :=
  let w := WriteHeader http.StatusOK w in
  {| header := header w; sent := sent w; written := written w +:+ b |}.

Inductive Handler : Type :=
| promhttp_Handler
| HandlerFunc (f : http.Request -> ResponseWriter -> ResponseWriter).

(** The effects of [main.go]: reading the command line and the
    environment, writing to standard output and to the log, what [flag]
    writes when it fails, registering the collector and the handlers,
    serving, and leaving the process. *)
Inductive Proc (A : Type) : Type :=
| Done (a : A)
| Exit (code : Z)
| Args (k : list string -> Proc A)
| Getenv (key : string) (k : string -> Proc A)
| Printf (text : string) (k : Proc A)
| FlagFailure (e : flag.Error) (k : Proc A)
| LogPrintf (msg : string) (k : Proc A)
| MustRegister (c : ShardCollector) (k : Proc A)
| Handle (pattern : string) (h : Handler) (k : Proc A)
| ListenAndServe (addr : string) (k : option error -> Proc A).

Arguments Done {A} a.
Arguments Exit {A} code.
Arguments Args {A} k.
Arguments Getenv {A} key k.
Arguments Printf {A} text k.
Arguments FlagFailure {A} e k.
Arguments LogPrintf {A} msg k.
Arguments MustRegister {A} c k.
Arguments Handle {A} pattern h k.
Arguments ListenAndServe {A} addr k.

Fixpoint bind {A B : Type} (p : Proc A) (f : A -> Proc B) : Proc B :=
  match p with
  | Done a => f a
  | Exit code => Exit code
  | Args k => Args (fun l => bind (k l) f)
  | Getenv key k => Getenv key (fun v => bind (k v) f)
  | Printf text k => Printf text (bind k f)
  | FlagFailure e k => FlagFailure e (bind k f)
  | LogPrintf msg k => LogPrintf msg (bind k f)
  | MustRegister c k => MustRegister c (bind k f)
  | Handle pattern h k => Handle pattern h (bind k f)
  | ListenAndServe addr k => ListenAndServe addr (fun r => bind (k r) f)
  end.

#[export] Instance Proc_ret : MRet Proc := @Done.
#[export] Instance Proc_bind : MBind Proc := fun A B f p => bind p f.

Definition osArgs : Proc (list string) := Args Done.
Definition getenv (key : string) : Proc string := Getenv key Done.
Definition printf (text : string) : Proc unit := Printf text (Done tt).
Definition logPrintf (msg : string) : Proc unit := LogPrintf msg (Done tt).
Definition mustRegister (c : ShardCollector) : Proc unit := MustRegister c (Done tt).
Definition handle (pattern : string) (h : Handler) : Proc unit :=
  Handle pattern h (Done tt).
Definition listenAndServe (addr : string) : Proc (option error) :=
  ListenAndServe addr Done.

(** [log.Fatalf]: the line is logged and the process exits with 1. *)
Definition logFatalf {A : Type} (msg : string) : Proc A := LogPrintf msg (Exit 1).

(** [flag.Parse()]: the flags of [os.Args[1:]], the flag set being
    [CommandLine], which exits on an error: with 0 for [ErrHelp],
    with 2 otherwise. *)
Definition flagParse (f : flag.FlagSet Config) : Proc (flag.FlagSet Config) :=
  arguments ← osArgs;
  match flag.Parse f arguments with
  | (None, f') => mret f'
  | (Some flag.ErrHelp, _) => FlagFailure flag.ErrHelp (Exit 0)
  | (Some e, _) => FlagFailure e (Exit 2)
  end.

(** The flag set once [parseFlags] has bound its eight flags to the
    zero [Config]. *)
Definition commandLine : flag.FlagSet Config :=
  let config := {| ListenAddr := ""; MetricsPath := ""; ESUrl := ""; ESUser := "";
                   ESPass := ""; SSLEnable := false; SSLSkipVerify := false;
                   ShowVersion := false |} in
  let f := flag.Build_FlagSet ∅ ∅ [] config in
  let f := flag.StringVar atListenAddr "listen-address" ":9061"
                          "Address to listen on for HTTP requests" f in
  let f := flag.StringVar atMetricsPath "metrics-path" "/metrics"
                          "Path under which to expose metrics" f in
  let f := flag.StringVar atESUrl "es-url" "" "Elasticsearch URL (required)" f in
  let f := flag.StringVar atESUser "es-user" ""
                          "Elasticsearch username for authentication" f in
  let f := flag.StringVar atESPass "es-pass" ""
                          "Elasticsearch password for authentication" f in
  let f := flag.BoolVar atSSLEnable "ssl-enable" false
                        "Enable SSL/TLS for Elasticsearch connection" f in
  let f := flag.BoolVar atSSLSkipVerify "ssl-skip-verify" false
                        "Skip SSL certificate verification" f in
  flag.BoolVar atShowVersion "version" false "Show version information" f.

Definition parseFlags : Proc Config :=
  f ← flagParse commandLine;
  let config := flag.vars f in
  envURL ← getenv "ES_URL";
  let config := if nonEmpty envURL then atESUrl envURL config else config in
  envUser ← getenv "ES_USER";
  let config := if nonEmpty envUser then atESUser envUser config else config in
  envPass ← getenv "ES_PASS";
  let config := if nonEmpty envPass then atESPass envPass config else config in
  mret config.

Definition validateConfig (config : Config) : option error :=
  if String.eqb (ESUrl config) ""
  then Some (errorString "--es-url is required (or set ES_URL environment variable)")
  else None.

Definition newline : string := String "010"%char EmptyString.
Definition quote : string := String "034"%char EmptyString.

(** The landing page. *)
Definition landingPage (b : Build) (config : Config) : string :=
  "<!DOCTYPE html>" +:+ newline +:+
  "<html>" +:+ newline +:+
  "<head><title>Elasticsearch Shard Exporter</title></head>" +:+ newline +:+
  "<body>" +:+ newline +:+
  "<h1>Elasticsearch Shard Exporter</h1>" +:+ newline +:+
  "<p><a href=" +:+ quote +:+ MetricsPath config +:+ quote +:+ ">Metrics</a></p>"
    +:+ newline +:+
  "<p>Version: " +:+ Version b +:+ "</p>" +:+ newline +:+
  "</body>" +:+ newline +:+
  "</html>".

Definition rootHandler (b : Build) (config : Config) : Handler :=
  HandlerFunc (fun r w =>
    let w := HeaderSet "Content-Type" "text/html; charset=utf-8" w in
    Write (landingPage b config) w).

Definition healthHandler : Handler :=
  HandlerFunc (fun r w =>
    let w := WriteHeader http.StatusOK w in
    Write "OK" w).

Definition collectorConfig (config : Config) : CollectorConfig :=
  Build_CollectorConfig (ESUrl config) (ESUser config) (ESPass config)
                        (SSLEnable config) (SSLSkipVerify config).

Definition main (b : Build) : Proc unit :=
  config ← parseFlags;
  if ShowVersion config
  then
    printf ("elasticsearch-shard-exporter version " +:+ Version b
              +:+ " (built: " +:+ BuildTime b +:+ ")" +:+ newline);;
    Exit 0
  else
    match validateConfig config with
    | Some err => logFatalf ("Configuration error: " +:+ Error err)
    | None =>
      let '(shardCollector, err) := NewShardCollector (collectorConfig config) in
      match err with
      | Some err => logFatalf ("Failed to create collector: " +:+ Error err)
      | None =>
        mustRegister shardCollector;;
        handle (MetricsPath config) promhttp_Handler;;
        handle "/" (rootHandler b config);;
        handle "/health" healthHandler;;
        logPrintf ("Starting Elasticsearch Shard Exporter v" +:+ Version b);;
        logPrintf ("Elasticsearch URL: " +:+ ESUrl config);;
        logPrintf ("Listening on " +:+ ListenAddr config);;
        logPrintf ("Metrics available at http://" +:+ ListenAddr config
                     +:+ MetricsPath config);;
        err ← listenAndServe (ListenAddr config);
        match err with
        | Some err => logFatalf ("Failed to start HTTP server: " +:+ Error err)
        | None => mret tt
        end
      end
    end.

(** Outside the process: the command line, the environment, and the
    libraries [main] hands over to.  [MustRegister] and [Handle] may
    panic; [ListenAndServe] serves for ever ([None]) or returns. *)
Record Host : Type := {
  commandLineArgs : list string;
  environ : gmap string string;
  registerPanic : ShardCollector -> option string;
  handlePanic : list string -> string -> option string;
  served : string -> option (option error)
}.

Inductive Effect : Type :=
| Printed (text : string)
| FlagFailed (e : flag.Error)
| Logged (msg : string)
| Registered (c : ShardCollector)
| Handled (pattern : string) (h : Handler)
| Listening (addr : string).

(** How the process goes on: [main] returned, [os.Exit] was called, a
    panic stopped it, or it is serving. *)
Inductive Ending (A : Type) : Type :=
| Returned (a : A)
| Exited (code : Z)
| Panicked (v : string)
| Serving.

Arguments Returned {A} a.
Arguments Exited {A} code.
Arguments Panicked {A} v.
Arguments Serving {A}.

Definition lookupEnv (H : Host) (key : string) : string :=
  default "" (environ H !! key).

Definition andAfter {A : Type} (e : Effect) (r : list Effect * Ending A)
  : list Effect * Ending A :=
  (e :: r.1, r.2).

(** [patterns]: the patterns handed to [Handle] so far. *)
Fixpoint run {A : Type} (H : Host) (patterns : list string) (p : Proc A)
  : list Effect * Ending A :=
  match p with
  | Done a => ([], Returned a)
  | Exit code => ([], Exited code)
  | Args k => run H patterns (k (commandLineArgs H))
  | Getenv key k => run H patterns (k (lookupEnv H key))
  | Printf text k => andAfter (Printed text) (run H patterns k)
  | FlagFailure e k => andAfter (FlagFailed e) (run H patterns k)
  | LogPrintf msg k => andAfter (Logged msg) (run H patterns k)
  | MustRegister c k =>
    match registerPanic H c with
    | Some v => ([], Panicked v)
    | None => andAfter (Registered c) (run H patterns k)
    end
  | Handle pattern h k =>
    match handlePanic H patterns pattern with
    | Some v => ([], Panicked v)
    | None => andAfter (Handled pattern h) (run H (patterns ++ [pattern]) k)
    end
  | ListenAndServe addr k =>
    match served H addr with
    | None => ([Listening addr], Serving)
    | Some r => andAfter (Listening addr) (run H patterns (k r))
    end
  end.

(** A new response, as the server hands it to a handler. *)
Definition newResponse : ResponseWriter :=
  {| header := ∅; sent := None; written := "" |}.

Definition serve (h : Handler) (r : http.Request) : option ResponseWriter :=
  match h with
  | promhttp_Handler => None
  | HandlerFunc f => Some (f r newResponse)
  end.

(** The string flags and the boolean flags of [parseFlags], each with
    the pointer it is bound to. *)
Definition stringFlags : list (string * (string -> Config -> Config)) :=
  [("listen-address", atListenAddr); ("metrics-path", atMetricsPath);
   ("es-url", atESUrl); ("es-user", atESUser); ("es-pass", atESPass)].

Definition boolFlags : list (string * (bool -> Config -> Config)) :=
  [("ssl-enable", atSSLEnable); ("ssl-skip-verify", atSSLSkipVerify);
   ("version", atShowVersion)].

(** The patterns registered by the effects [evs]. *)
Definition handledPatterns (evs : list Effect) : list string :=
  omap (fun e => match e with Handled pattern _ => Some pattern | _ => None end) evs.

(** An argument that ends the flags without being one: the empty
    string, a lone dash, or anything that does not start with a dash. *)
Definition isOperand (a : string) : Prop :=
  a = "" \/ a = "-" \/ exists c t, a = String c t /\ c <> "-"%char.

End main.

(** ** A scripted host

    A command line and an environment, libraries that accept every
    collector and every pattern, and a listener that fails at once. *)

Module Hosts.

Definition host (arguments : list string) (env : gmap string string) : main.Host :=
  {| main.commandLineArgs := arguments;
     main.environ := env;
     main.registerPanic := fun _ => None;
     main.handlePanic := fun _ _ => None;
     main.served := fun _ => Some (Some (errorString "listen tcp :9061: bind: address already in use")) |}.

End Hosts.

(** * Verification *)

Example Sscanf_d_3 : fmt.Sscanf_d "3" 0 = (3, 1, None).
Proof. reflexivity. Qed.

(** ** Equations of the execution *)

Section ExecFacts.

Variable E : Environment.

(** Case analysis on every run the goal inspects. *)
Ltac exec_cases :=
  repeat match goal with
         | |- context [match exec ?E0 ?p ?m with _ => _ end] =>
           destruct (exec E0 p m) as [[? [?|?| |?]] ?]; cbn [after andThen]
         end;
  rewrite ?app_nil_r; try reflexivity.

(** Sequencing: the second program runs in the machine the first one
    leaves, and only when the first one returns. *)
Lemma exec_bind {A B : Type} (p : Prog A) (f : A -> Prog B) (m : Machine E) :
  exec E (bind p f) m =
  match exec E p m with
  | (tr, Returned a, m') =>
    let '(tr', o, m'') := exec E (f a) m' in (tr ++ tr', o, m'')
  | (tr, Panicked v, m') => (tr, Panicked v, m')
  | (tr, Blocked, m') => (tr, Blocked, m')
  | (tr, Fatal msg, m') => (tr, Fatal msg, m')
  end.
Proof.
  revert m.
  induction p as [a|v|k IH|k IH|k IH|c req k IH|msg k IH|x k IH|d k IH|s k IH];
    intros m; cbn [bind exec app];
    try (destruct (locked m); [try reflexivity|try reflexivity]);
    try (destruct (RoundTrip E (world m) c req) as [res w]);
    rewrite ?IH; exec_cases.
Qed.

(** A deferred call runs after a return and after a panic alike. *)
Lemma exec_defer {A : Type} (d : Prog unit) (p : Prog A) (m : Machine E) :
  exec E (defer d p) m =
  match exec E p m with
  | (tr, Returned a, m') =>
    let '(tr', od, m'') := exec E d m' in (tr ++ tr', andThen (Returned a) od, m'')
  | (tr, Panicked v, m') =>
    let '(tr', od, m'') := exec E d m' in (tr ++ tr', andThen (Panicked v) od, m'')
  | (tr, Blocked, m') => (tr, Blocked, m')
  | (tr, Fatal msg, m') => (tr, Fatal msg, m')
  end.
Proof.
  revert m.
  induction p as [a|v|k IH|k IH|k IH|c req k IH|msg k IH|x k IH|dd k IH|s k IH];
    intros m; cbn [defer exec app];
    try (destruct (locked m); [try reflexivity|try reflexivity]);
    try (destruct (RoundTrip E (world m) c req) as [res w]);
    rewrite ?IH, ?exec_bind; cbn [exec]; exec_cases.
Qed.

(** The execution of one goroutine is its actions one after the other. *)
Lemma exec_act {A : Type} (p : Prog A) (m : Machine E) :
  exec E p m =
  match act p m with
  | Some (ev, p', m') => after ev (exec E p' m')
  | None => ([], ended p, m)
  end.
Proof.
  destruct p; cbn; try reflexivity.
  - destruct (locked m); reflexivity.
  - destruct (locked m); reflexivity.
  - destruct (RoundTrip E (world m) c req) as [res w]. reflexivity.
Qed.

End ExecFacts.

(** ** The label values of the collector are valid UTF-8 *)

Lemma isASCII_ValidString (s : string) : isASCII s = true -> utf8.ValidString s = true.
Proof.
  unfold utf8.ValidString.
  induction s as [|a t IH]; [reflexivity|].
  cbn [isASCII]. intros [Ha Ht]%andb_prop. apply Z.ltb_lt in Ha.
  cbn [utf8.validFrom utf8.DecodeRuneInString]. unfold utf8.first.
  destruct (Z.ltb_spec (utf8.byteOf a) 0x80) as [_|Hge]; [|lia].
  cbn [Nat.eqb andb Nat.sub].
  destruct (Z.eqb_spec (utf8.byteOf a) utf8.RuneError) as [Heq|_].
  - unfold utf8.RuneError in Heq. lia.
  - exact (IH Ht).
Qed.

Lemma isASCII_pretty_N_go (x : N) (s : string) :
  isASCII s = true -> isASCII (pretty_N_go x s) = true.
Proof.
  revert s. induction (N.lt_wf_0 x) as [x _ IH]; intros s Hs.
  destruct (decide (x = 0)%N) as [->|Hx]; [exact Hs|].
  rewrite pretty_N_go_step by lia.
  apply IH; [apply N.div_lt; lia|].
  cbn [isASCII]. rewrite Hs, andb_true_r.
  unfold pretty_N_char. repeat case_match; reflexivity.
Qed.

Lemma isASCII_Sprintf_d (n : Z) : isASCII (fmt.Sprintf_d n) = true.
Proof.
  unfold fmt.Sprintf_d, pretty, pretty_Z.
  destruct n as [|x|x]; [reflexivity| |];
    unfold pretty, pretty_positive, pretty, pretty_N;
    (destruct (decide (N.pos x = 0)%N); [discriminate|]).
  - apply isASCII_pretty_N_go. reflexivity.
  - cbn [String.append isASCII]. apply isASCII_pretty_N_go. reflexivity.
Qed.

(** A gauge of the right arity with ASCII label values is built. *)
Lemma MustNewConstMetric_ascii (d : prometheus.Desc) (v : prometheus.float64)
      (lvs : list string) :
  length lvs = length (prometheus.variableLabels d) ->
  forallb isASCII lvs = true ->
  MustNewConstMetric d prometheus.GaugeValue v lvs
  = Ret {| prometheus.desc := d; prometheus.valType := prometheus.GaugeValue;
           prometheus.val := v; prometheus.labelValues := lvs |}.
Proof.
  intros Hlen Hascii.
  unfold MustNewConstMetric, prometheus.NewConstMetric, prometheus.validateLabelValues.
  rewrite Hlen, Nat.eqb_refl. cbn [negb].
  replace (forallb utf8.ValidString lvs) with true; [reflexivity|].
  symmetry. apply forallb_forall. intros x Hx.
  apply isASCII_ValidString. revert x Hx. apply forallb_forall. exact Hascii.
Qed.

(** ** One scrape cycle, step by step *)

Section CycleFacts.

Variable L : Library.
Variable E : Environment.

Lemma upstream_metricsOf (tr : list Event) :
  Forall upstreamEvent tr -> metricsOf tr = [].
Proof.
  induction 1 as [|ev tr Hev _ IH]; [reflexivity|].
  destruct ev; simpl in Hev; try contradiction; exact IH.
Qed.

Lemma upstream_logsOf (tr : list Event) :
  Forall upstreamEvent tr -> logsOf tr = [].
Proof.
  induction 1 as [|ev tr Hev _ IH]; [reflexivity|].
  destruct ev; simpl in Hev; try contradiction; exact IH.
Qed.

Lemma upstream_locksOf (tr : list Event) :
  Forall upstreamEvent tr -> locksOf tr = [].
Proof.
  induction 1 as [|ev tr Hev _ IH]; [reflexivity|].
  destruct ev; simpl in Hev; try contradiction; exact IH.
Qed.

(** [fetchClusterHealth] always returns; it touches neither the mutex
    nor the channel, and sends its request unless the URL is bad. *)
Lemma fetchClusterHealth_exec (c : ShardCollector) (m : Machine E) :
  exists tr h err w',
    exec E (fetchClusterHealth L c) m
    = (tr, Returned (h, err), Build_Machine w' (locked m)) /\
    (err = None -> is_Some h) /\
    Forall upstreamEvent tr /\
    requestsOf tr
    = sentIf (url_Parse L (ESURL (config c) +:+ "/_cluster/health")) (healthRequest L c) /\
    (clockLaws E -> monotonic E (world m) <= monotonic E w').
Proof.
  destruct m as [w0 b0]. cbn [world locked].
  unfold fetchClusterHealth, healthRequest, requestTo, NewRequest.
  destruct (url_Parse L _) as [e|]; cbn.
  { eexists _, _, _, _. split; [reflexivity|].
    split; [discriminate|]. split; [constructor|]. split; [reflexivity|]. lia. }
  destruct (RoundTrip E w0 _ _) as [res w'] eqn:HRT.
  assert (Hclk : clockLaws E -> monotonic E w0 <= monotonic E w').
  { intros (_ & _ & Hrt). specialize (Hrt w0 (client c) (healthRequest L c)).
    unfold healthRequest, requestTo in Hrt. cbn in Hrt. rewrite HRT in Hrt. exact Hrt. }
  destruct res as [e|resp]; cbn.
  { eexists _, _, _, _. split; [reflexivity|].
    split; [discriminate|]. repeat (split; [repeat constructor|]). exact Hclk. }
  destruct (negb (http.StatusCode resp =? http.StatusOK)); cbn.
  { eexists _, _, _, _. split; [reflexivity|].
    split; [discriminate|]. repeat (split; [repeat constructor|]). exact Hclk. }
  destruct (json_DecodeHealth L (http.Body resp)) as [e|h]; cbn.
  { eexists _, _, _, _. split; [reflexivity|].
    split; [discriminate|]. repeat (split; [repeat constructor|]). exact Hclk. }
  eexists _, _, _, _. split; [reflexivity|].
  split; [eauto|]. repeat (split; [repeat constructor|]). exact Hclk.
Qed.

(** [fetchMaxReplicaCount] always returns, with the count [0] beside
    every error. *)
Lemma fetchMaxReplicaCount_exec (c : ShardCollector) (m : Machine E) :
  exists tr n err w',
    exec E (fetchMaxReplicaCount L c) m
    = (tr, Returned (n, err), Build_Machine w' (locked m)) /\
    (is_Some err -> n = 0) /\
    Forall upstreamEvent tr /\
    requestsOf tr
    = sentIf (url_Parse L (ESURL (config c) +:+ "/_settings")) (settingsRequest L c) /\
    (clockLaws E -> monotonic E (world m) <= monotonic E w').
Proof.
  destruct m as [w0 b0]. cbn [world locked].
  unfold fetchMaxReplicaCount, settingsRequest, requestTo, NewRequest.
  destruct (url_Parse L _) as [e|]; cbn.
  { eexists _, _, _, _. split; [reflexivity|].
    split; [reflexivity|]. split; [constructor|]. split; [reflexivity|]. lia. }
  destruct (RoundTrip E w0 _ _) as [res w'] eqn:HRT.
  assert (Hclk : clockLaws E -> monotonic E w0 <= monotonic E w').
  { intros (_ & _ & Hrt). specialize (Hrt w0 (client c) (settingsRequest L c)).
    unfold settingsRequest, requestTo in Hrt. cbn in Hrt. rewrite HRT in Hrt. exact Hrt. }
  destruct res as [e|resp]; cbn.
  { eexists _, _, _, _. split; [reflexivity|].
    split; [reflexivity|]. repeat (split; [repeat constructor|]). exact Hclk. }
  destruct (negb (http.StatusCode resp =? http.StatusOK)); cbn.
  { eexists _, _, _, _. split; [reflexivity|].
    split; [reflexivity|]. repeat (split; [repeat constructor|]). exact Hclk. }
  destruct (json_DecodeSettings L (http.Body resp)) as [e|settings]; cbn.
  { eexists _, _, _, _. split; [reflexivity|].
    split; [reflexivity|]. repeat (split; [repeat constructor|]). exact Hclk. }
  eexists _, _, _, _. split; [reflexivity|].
  split; [intros [? ?]; discriminate|]. repeat (split; [repeat constructor|]). exact Hclk.
Qed.

(** [Collect] is its pieces. *)
Lemma Collect_pieces (c : ShardCollector) :
  Collect L c = bind mutexLock (fun _ => defer mutexUnlock (collectBody L c)).
Proof. reflexivity. Qed.

(** The whole cycle in closed form, from the runs of its two fetches. *)
Lemma Collect_exec (cfg : CollectorConfig) (w : World E)
      trH h errH wH trS n errS wS :
  let c := (NewShardCollector cfg).1 in
  let t0 := monotonic E (tick E w) in
  let t1 := monotonic E (tick E wS) in
  healthFetch L E c (tick E w) = (trH, Returned (h, errH), Build_Machine wH true) ->
  (errH = None -> is_Some h) ->
  settingsFetch L E c wH = (trS, Returned (n, errS), Build_Machine wS true) ->
  exec E (Collect L c) (Build_Machine w false) =
  ([EvLock; EvNow t0] ++ trH ++ healthEvents c h errH ++ trS
     ++ replicaEvents c n errS
     ++ [EvMetric (scrapeErrorSample c (errorFlag errH errS)); EvNow t1;
         EvMetric (scrapeDurationSample c (time.subMono t1 t0)); EvUnlock],
   Returned tt, Build_Machine (tick E wS) false).
Proof.
  intros c t0 t1 HH Hh HS.
  rewrite Collect_pieces. cbn [bind mutexLock exec locked world].
  rewrite exec_defer.
  unfold collectBody. cbn [mbind Prog_bind bind timeNow exec locked world].
  change (exec E (fetchClusterHealth L c ≫= ?f) ?m) with
    (exec E (bind (fetchClusterHealth L c) f) m).
  rewrite exec_bind. unfold healthFetch in HH. rewrite HH.
  assert (Hrep : exec E (reportHealth c 0 h errH) (Build_Machine wH true) =
                 (healthEvents c h errH, Returned (errorFlag errH None),
                  Build_Machine wH true)).
  { destruct errH as [e|]; [reflexivity|].
    destruct (Hh eq_refl) as [h' ->].
    unfold reportHealth, healthEvents, relocationSample, relocationLabel.
    destruct (RelocatingShards h' >? 0); reflexivity. }
  change (exec E (reportHealth c 0 h errH ≫= ?f) ?m) with
    (exec E (bind (reportHealth c 0 h errH) f) m).
  rewrite exec_bind, Hrep.
  change (exec E (fetchMaxReplicaCount L c ≫= ?f) ?m) with
    (exec E (bind (fetchMaxReplicaCount L c) f) m).
  rewrite exec_bind. unfold settingsFetch in HS. rewrite HS.
  match goal with
  | |- context [exec E ?p {| world := wS; locked := true |}] =>
    assert (Htail : exec E p (Build_Machine wS true) =
                    (replicaEvents c n errS
                       ++ [EvMetric (scrapeErrorSample c (errorFlag errH errS));
                           EvNow t1;
                           EvMetric (scrapeDurationSample c (time.subMono t1 t0))],
                     Returned tt, Build_Machine (tick E wS) true))
      by (destruct errS as [eS|], errH as [eH|]; try reflexivity;
          unfold reportReplicas;
          rewrite MustNewConstMetric_ascii
            by (first [reflexivity
                      |cbn [forallb]; rewrite isASCII_Sprintf_d; reflexivity]);
          reflexivity);
      rewrite Htail
  end.
  subst t0 t1. clearbody c. cbn. rewrite <- !app_assoc. reflexivity.
Qed.

Lemma metricsOf_app (tr1 tr2 : list Event) :
  metricsOf (tr1 ++ tr2) = metricsOf tr1 ++ metricsOf tr2.
Proof. apply omap_app. Qed.

Lemma requestsOf_app (tr1 tr2 : list Event) :
  requestsOf (tr1 ++ tr2) = requestsOf tr1 ++ requestsOf tr2.
Proof. apply omap_app. Qed.

Lemma locksOf_app (tr1 tr2 : list Event) :
  locksOf (tr1 ++ tr2) = locksOf tr1 ++ locksOf tr2.
Proof. apply omap_app. Qed.

(** Every cycle runs both fetches and ends; its trace and its samples
    in terms of the two results. *)
Lemma cycle_summary (cfg : CollectorConfig) (w : World E) :
  let c := (NewShardCollector cfg).1 in
  exists trH h errH wH trS n errS wS,
    cycleHealth L E cfg w = (trH, Returned (h, errH), Build_Machine wH true) /\
    (errH = None -> is_Some h) /\
    Forall upstreamEvent trH /\
    requestsOf trH
    = sentIf (url_Parse L (ESURL cfg +:+ "/_cluster/health")) (healthRequest L c) /\
    (clockLaws E -> monotonic E (tick E w) <= monotonic E wH) /\
    cycleSettings L E cfg w = (trS, Returned (n, errS), Build_Machine wS true) /\
    (is_Some errS -> n = 0) /\
    Forall upstreamEvent trS /\
    requestsOf trS
    = sentIf (url_Parse L (ESURL cfg +:+ "/_settings")) (settingsRequest L c) /\
    (clockLaws E -> monotonic E wH <= monotonic E wS) /\
    cycle L E cfg w =
    ([EvLock; EvNow (monotonic E (tick E w))] ++ trH ++ healthEvents c h errH
       ++ trS ++ replicaEvents c n errS
       ++ [EvMetric (scrapeErrorSample c (errorFlag errH errS));
           EvNow (monotonic E (tick E wS));
           EvMetric (scrapeDurationSample c
                       (time.subMono (monotonic E (tick E wS))
                                     (monotonic E (tick E w))));
           EvUnlock],
     Returned tt, Build_Machine (tick E wS) false) /\
    metricsOf (traceOf (cycle L E cfg w)) =
    healthSamples c h errH ++ replicaSamples c n errS
      ++ [scrapeErrorSample c (errorFlag errH errS);
          scrapeDurationSample c
            (time.subMono (monotonic E (tick E wS)) (monotonic E (tick E w)))].
Proof.
  intros c.
  destruct (fetchClusterHealth_exec c (Build_Machine (tick E w) true))
    as (trH & h & errH & wH & HH & Hh & HtrH & HrqH & HckH).
  destruct (fetchMaxReplicaCount_exec c (Build_Machine wH true))
    as (trS & n & errS & wS & HS & Hn & HtrS & HrqS & HckS).
  cbn [locked world] in HH, HS, HckH, HckS.
  exists trH, h, errH, wH, trS, n, errS, wS.
  assert (HcS : cycleSettings L E cfg w = (trS, Returned (n, errS), Build_Machine wS true)).
  { unfold cycleSettings, cycleHealth, healthFetch, settingsFetch. fold c.
    rewrite HH. exact HS. }
  pose proof (Collect_exec cfg w _ _ _ _ _ _ _ _ HH Hh HS) as HC.
  cbv zeta in HC. fold c in HC.
  repeat split; try assumption.
  unfold cycle. fold c. rewrite HC. unfold traceOf. cbn [fst].
  change (EvLock :: ?l) with ([EvLock] ++ l).
  rewrite !metricsOf_app, (upstream_metricsOf trH HtrH), (upstream_metricsOf trS HtrS).
  destruct errH as [eH|]; [|destruct (Hh eq_refl) as [h' ->]];
    destruct errS as [eS|]; reflexivity.
Qed.

(** The requests of a cycle: one per fetch whose URL is well formed. *)
Lemma cycle_requests (cfg : CollectorConfig) (w : World E) :
  let c := (NewShardCollector cfg).1 in
  requestsOf (traceOf (cycle L E cfg w))
  = sentIf (url_Parse L (ESURL cfg +:+ "/_cluster/health")) (healthRequest L c)
      ++ sentIf (url_Parse L (ESURL cfg +:+ "/_settings")) (settingsRequest L c).
Proof.
  intros c.
  destruct (cycle_summary cfg w)
    as (trH & h & errH & wH & trS & n & errS & wS
        & HH & Hh & HtrH & HrqH & _ & HS & _ & HtrS & HrqS & _ & HC & Hms).
  fold c in HC, HrqH, HrqS. rewrite HC. unfold traceOf. cbn [fst].
  change (EvLock :: ?l) with ([EvLock] ++ l).
  rewrite !requestsOf_app, HrqH, HrqS.
  destruct errH as [eH|]; [|destruct (Hh eq_refl) as [h' ->]];
    destruct errS as [eS|]; cbn; rewrite ?app_nil_r; reflexivity.
Qed.

End CycleFacts.

(** ** Properties of a scrape cycle *)

Lemma subMono_nonneg (t u : Z) :
  inInt64 t -> inInt64 u -> u <= t -> 0 <= time.subMono t u.
Proof.
  unfold inInt64, minInt64, maxInt64, time.subMono, time.maxDuration,
    time.minDuration, maxInt64, minInt64, wrap64.
  intros Ht Hu Hle.
  destruct (Z.ltb_spec ((t - u + 2 ^ 63) mod 2 ^ 64 - 2 ^ 63) 0) as [Hd|Hd];
    destruct (Z.ltb_spec u t) as [Hut|Hut]; cbn [andb].
  - lia.
  - assert (t = u) as -> by lia.
    replace (u - u + 2 ^ 63) with (2 ^ 63) in Hd by lia.
    rewrite Z.mod_small in Hd by lia. lia.
  - destruct (Z.ltb_spec 0 ((t - u + 2 ^ 63) mod 2 ^ 64 - 2 ^ 63));
      destruct (Z.ltb_spec t u); cbn [andb]; lia.
  - destruct (Z.ltb_spec 0 ((t - u + 2 ^ 63) mod 2 ^ 64 - 2 ^ 63));
      destruct (Z.ltb_spec t u); cbn [andb]; lia.
Qed.

Section Claims.

Variable L : Library.
Variable E : Environment.

(** C3. In every cycle the scrape-error gauge is sampled once, with
    value 1 exactly when the cluster-health fetch or the
    index-settings fetch of that cycle failed, and with value 0 exactly
    when both succeeded. *)
Theorem scrape_error_iff_a_fetch_failed (cfg : CollectorConfig) (w : World E) :
  let c := (NewShardCollector cfg).1 in
  exists v,
    samplesFor (scrapeErrorMetric c) (metricsOf (traceOf (cycle L E cfg w)))
    = [scrapeErrorSample c v] /\
    (v = 1 <-> failed E (cycleHealth L E cfg w) = true
               \/ failed E (cycleSettings L E cfg w) = true) /\
    (v = 0 <-> failed E (cycleHealth L E cfg w) = false
               /\ failed E (cycleSettings L E cfg w) = false).
Proof.
  intros c.
  destruct (cycle_summary L E cfg w)
    as (trH & h & errH & wH & trS & n & errS & wS
        & HH & Hh & _ & _ & _ & HS & _ & _ & _ & _ & _ & Hms).
  fold c in Hms. rewrite Hms.
  exists (errorFlag errH errS).
  unfold failed, outcomeOf. rewrite HH, HS. cbn [fst snd].
  split.
  - destruct errH as [eH|]; [|destruct (Hh eq_refl) as [h' ->]];
      destruct errS as [eS|]; reflexivity.
  - destruct errH as [eH|], errS as [eS|]; cbn; intuition congruence.
Qed.

(** C4. The two fetches of a cycle are independent.  Whatever the
    outcome of the other one, each fetch is run (its events are part
    of the cycle's trace, and its request is sent whenever its URL is
    well formed) and its metric is sampled once when it succeeded;
    when it failed, the cycle has no sample of its metric. *)
Theorem fetches_are_independent (cfg : CollectorConfig) (w : World E) :
  let c := (NewShardCollector cfg).1 in
  let ms := metricsOf (traceOf (cycle L E cfg w)) in
  (exists pre mid post,
      traceOf (cycle L E cfg w)
      = pre ++ traceOf (cycleHealth L E cfg w) ++ mid
            ++ traceOf (cycleSettings L E cfg w) ++ post) /\
  requestsOf (traceOf (cycle L E cfg w))
  = sentIf (url_Parse L (ESURL cfg +:+ "/_cluster/health")) (healthRequest L c)
      ++ sentIf (url_Parse L (ESURL cfg +:+ "/_settings")) (settingsRequest L c) /\
  (if failed E (cycleHealth L E cfg w)
   then samplesFor (shardRelocationMetric c) ms = []
   else exists x, samplesFor (shardRelocationMetric c) ms = [x]) /\
  (if failed E (cycleSettings L E cfg w)
   then samplesFor (shardReplicaMetric c) ms = []
   else exists x, samplesFor (shardReplicaMetric c) ms = [x]).
Proof.
  intros c ms. subst ms.
  destruct (cycle_summary L E cfg w)
    as (trH & h & errH & wH & trS & n & errS & wS
        & HH & Hh & _ & _ & _ & HS & _ & _ & _ & _ & HC & Hms).
  fold c in Hms, HC.
  split; [|split; [apply cycle_requests|]].
  - rewrite HC. unfold traceOf. rewrite HH, HS. cbn [fst snd].
    exists [EvLock; EvNow (monotonic E (tick E w))], (healthEvents c h errH).
    eexists. reflexivity.
  - rewrite Hms. unfold failed, outcomeOf. rewrite HH, HS. cbn [fst snd].
    split;
      (destruct errH as [eH|]; [|destruct (Hh eq_refl) as [h' ->]];
       destruct errS as [eS|]; try reflexivity; eexists; reflexivity).
Qed.

(** C5. In every cycle the samples sent are, in this order: the
    relocation sample if the health fetch succeeded, the replica sample
    if the settings fetch succeeded, the scrape-error sample, the
    scrape-duration sample.  No descriptor is sampled twice, the last
    two are sampled exactly once whatever the fetches did, and the
    duration is not negative (the clock being monotonic). *)
Theorem samples_once_and_in_order (cfg : CollectorConfig) (w : World E)
        (Hclock : clockLaws E) :
  let c := (NewShardCollector cfg).1 in
  let ms := metricsOf (traceOf (cycle L E cfg w)) in
  exists reloc repl v d,
    ms = reloc ++ repl ++ [scrapeErrorSample c v; scrapeDurationSample c d] /\
    (if failed E (cycleHealth L E cfg w) then reloc = []
     else exists l, reloc = [gauge (shardRelocationMetric c) (prometheus.Const 1) [l]]) /\
    (if failed E (cycleSettings L E cfg w) then repl = []
     else exists l, repl = [gauge (shardReplicaMetric c) (prometheus.Const 1) [l]]) /\
    NoDup (prometheus.desc <$> ms) /\
    samplesFor (scrapeErrorMetric c) ms = [scrapeErrorSample c v] /\
    samplesFor (scrapeDurationMetric c) ms = [scrapeDurationSample c d] /\
    0 <= d.
Proof.
  intros c ms. subst ms.
  destruct (cycle_summary L E cfg w)
    as (trH & h & errH & wH & trS & n & errS & wS
        & HH & Hh & _ & _ & HckH & HS & _ & _ & _ & HckS & _ & Hms).
  fold c in Hms. rewrite Hms.
  unfold failed, outcomeOf. rewrite HH, HS. cbn [fst snd].
  eexists (healthSamples c h errH), (replicaSamples c n errS), _, _.
  split; [reflexivity|].
  assert (Hd : 0 <= time.subMono (monotonic E (tick E wS)) (monotonic E (tick E w))).
  { pose proof Hclock as (Hrange & Htick & _).
    apply subMono_nonneg; [apply Hrange|apply Hrange|].
    specialize (HckH Hclock). specialize (HckS Hclock).
    pose proof (Htick wS). lia. }
  destruct errH as [eH|]; [|destruct (Hh eq_refl) as [h' ->]];
    destruct errS as [eS|]; cbn [healthSamples replicaSamples];
    (split; [first [reflexivity | eexists; reflexivity]|]);
    (split; [first [reflexivity | eexists; reflexivity]|]);
    (split; [apply (bool_decide_unpack _); vm_compute; reflexivity|]);
    (split; [reflexivity|]); (split; [reflexivity|]); exact Hd.
Qed.

(** C6. [Describe] sends the four fixed descriptors and nothing else:
    no request goes upstream, the mutex is neither taken nor waited
    for (the call returns whether it is locked or not), and the
    machine is left as it was. *)
Theorem Describe_sends_four_descriptors (cfg : CollectorConfig) (m : Machine E) :
  let c := (NewShardCollector cfg).1 in
  exec E (Describe c) m
  = ([EvDesc (prometheus.NewDesc "trendyol_nosql_shard_relocation"
                                 "Elasticsearch shard relocation status" ["status"]);
      EvDesc (prometheus.NewDesc "trendyol_nosql_shard_replica"
                                 "Elasticsearch shard replica count" ["count"]);
      EvDesc (prometheus.NewDesc "trendyol_nosql_exporter_scrape_error"
                                 "Scrape error status" []);
      EvDesc (prometheus.NewDesc "trendyol_nosql_exporter_scrape_duration_seconds"
                                 "Duration of the scrape in seconds" [])],
     Returned tt, m) /\
  requestsOf (traceOf (exec E (Describe c) m)) = [] /\
  locksOf (traceOf (exec E (Describe c) m)) = [] /\
  machineOf (exec E (Describe c) m) = m.
Proof. intros c. repeat split. Qed.

Lemma nonEmpty_spec (s : string) : nonEmpty s = true <-> s <> "".
Proof.
  unfold nonEmpty. destruct (String.eqb_spec s ""); cbn; intuition congruence.
Qed.

(** The [Authorization] header of the request a fetch builds. *)
Lemma authorization_built (c : ShardCollector) (path : string) :
  authorization (requestTo L c path)
  = if nonEmpty (ESUser (config c)) && nonEmpty (ESPass (config c))
    then Some ["Basic " +:+ basicAuth L (ESUser (config c)) (ESPass (config c))]
    else None.
Proof.
  unfold authorization, requestTo, SetBasicAuth, http.HeaderSet.
  destruct (nonEmpty (ESUser (config c)) && nonEmpty (ESPass (config c)));
    cbn [http.Header].
  - rewrite lookup_insert_ne by discriminate. apply lookup_insert_eq.
  - rewrite lookup_insert_ne by discriminate. apply lookup_empty.
Qed.

(** C7. The requests a cycle sends are the health request and the
    settings request, and each of them carries the basic-authentication
    header exactly when the configured user name and password are both
    non-empty; with either of them empty it has no such header. *)
Theorem basic_auth_iff_both_credentials (cfg : CollectorConfig) (w : World E) :
  let c := (NewShardCollector cfg).1 in
  requestsOf (traceOf (cycle L E cfg w))
  = sentIf (url_Parse L (ESURL cfg +:+ "/_cluster/health")) (healthRequest L c)
      ++ sentIf (url_Parse L (ESURL cfg +:+ "/_settings")) (settingsRequest L c) /\
  Forall (fun req =>
            (is_Some (authorization req) <-> ESUser cfg <> "" /\ ESPass cfg <> "") /\
            (ESUser cfg = "" \/ ESPass cfg = "" -> authorization req = None) /\
            (is_Some (authorization req) ->
             authorization req
             = Some ["Basic " +:+ basicAuth L (ESUser cfg) (ESPass cfg)]))
         [healthRequest L c; settingsRequest L c].
Proof.
  intros c. split; [apply cycle_requests|].
  assert (Hall : forall path,
             let req := requestTo L c path in
             (is_Some (authorization req) <-> ESUser cfg <> "" /\ ESPass cfg <> "") /\
             (ESUser cfg = "" \/ ESPass cfg = "" -> authorization req = None) /\
             (is_Some (authorization req) ->
              authorization req
              = Some ["Basic " +:+ basicAuth L (ESUser cfg) (ESPass cfg)])).
  { intros path req. subst req. rewrite authorization_built.
    change (ESUser (config c)) with (ESUser cfg).
    change (ESPass (config c)) with (ESPass cfg).
    pose proof (nonEmpty_spec (ESUser cfg)) as Hu.
    pose proof (nonEmpty_spec (ESPass cfg)) as Hp.
    destruct (nonEmpty (ESUser cfg)), (nonEmpty (ESPass cfg)); cbn [andb].
    - split; [split; [intros _; split; [apply Hu|apply Hp]; reflexivity
                     |intros _; eexists; reflexivity]|].
      split; [|reflexivity].
      intros [Hx|Hx]; [apply Hu in Hx|apply Hp in Hx]; [contradiction| |contradiction|];
        reflexivity.
    - split; [split; [intros [? ?]; discriminate|]|split; [reflexivity|]].
      + intros [_ Hx]. apply Hp in Hx. discriminate.
      + intros [? ?]; discriminate.
    - split; [split; [intros [? ?]; discriminate|]|split; [reflexivity|]].
      + intros [Hx _]. apply Hu in Hx. discriminate.
      + intros [? ?]; discriminate.
    - split; [split; [intros [? ?]; discriminate|]|split; [reflexivity|]].
      + intros [Hx _]. apply Hu in Hx. discriminate.
      + intros [? ?]; discriminate. }
  apply Forall_cons; split; [apply Hall|].
  apply Forall_cons; split; [apply Hall|apply Forall_nil; exact I].
Qed.

(** C10. [fetchMaxReplicaCount] always returns, and whenever the
    error it returns is not nil the count beside it is 0.  Each of the
    four causes gives such a result: a request that cannot be built, a
    round trip that fails, a status other than 200, a body that does
    not decode; the error names the cause.  There is no other error:
    the error is nil only when the request was built and answered with
    status 200 and a body that decodes. *)
Theorem replica_count_zero_on_error (c : ShardCollector) (m : Machine E) :
  (exists tr n err m',
      exec E (fetchMaxReplicaCount L c) m = (tr, Returned (n, err), m') /\
      (is_Some err -> n = 0) /\
      (err = None ->
       url_Parse L (ESURL (config c) +:+ "/_settings") = None /\
       exists resp settings,
         (RoundTrip E (world m) (client c) (settingsRequest L c)).1 = inr resp /\
         http.StatusCode resp = http.StatusOK /\
         json_DecodeSettings L (http.Body resp) = inr settings)) /\
  (forall e,
      url_Parse L (ESURL (config c) +:+ "/_settings") = Some e ->
      outcomeOf (exec E (fetchMaxReplicaCount L c) m)
      = Returned (0, Some (Errorf_w "failed to create request: " e))) /\
  (forall e,
      url_Parse L (ESURL (config c) +:+ "/_settings") = None ->
      (RoundTrip E (world m) (client c) (settingsRequest L c)).1 = inl e ->
      outcomeOf (exec E (fetchMaxReplicaCount L c) m)
      = Returned (0, Some (Errorf_w "failed to fetch index settings: " e))) /\
  (forall resp,
      url_Parse L (ESURL (config c) +:+ "/_settings") = None ->
      (RoundTrip E (world m) (client c) (settingsRequest L c)).1 = inr resp ->
      http.StatusCode resp <> http.StatusOK ->
      outcomeOf (exec E (fetchMaxReplicaCount L c) m)
      = Returned (0, Some (statusError resp))) /\
  (forall resp e,
      url_Parse L (ESURL (config c) +:+ "/_settings") = None ->
      (RoundTrip E (world m) (client c) (settingsRequest L c)).1 = inr resp ->
      http.StatusCode resp = http.StatusOK ->
      json_DecodeSettings L (http.Body resp) = inl e ->
      outcomeOf (exec E (fetchMaxReplicaCount L c) m)
      = Returned (0, Some (Errorf_w "failed to decode response: " e))).
Proof.
  destruct m as [w0 b0]. cbn [world].
  unfold fetchMaxReplicaCount, settingsRequest, requestTo, NewRequest, outcomeOf.
  destruct (url_Parse L _) as [e0|]; cbn.
  { split; [eexists _, _, _, _; split; [reflexivity|];
            split; [reflexivity|discriminate]|].
    split; [intros e [= <-]; reflexivity|].
    repeat split; intros; discriminate. }
  destruct (RoundTrip E w0 _ _) as [[e0|resp0] w']; cbn.
  { split; [eexists _, _, _, _; split; [reflexivity|];
            split; [reflexivity|discriminate]|].
    split; [intros; discriminate|].
    split; [intros e _ [= <-]; reflexivity|].
    split; intros; discriminate. }
  destruct (Z.eqb_spec (http.StatusCode resp0) http.StatusOK) as [Hok|Hother]; cbn.
  2:{ split; [eexists _, _, _, _; split; [reflexivity|];
              split; [reflexivity|discriminate]|].
      split; [intros; discriminate|].
      split; [intros; discriminate|].
      split; [intros resp _ [= <-] _; reflexivity|].
      intros resp e _ [= <-] Hstatus. contradiction. }
  destruct (json_DecodeSettings L (http.Body resp0)) as [e0|settings] eqn:Hdecode; cbn.
  { split; [eexists _, _, _, _; split; [reflexivity|];
            split; [reflexivity|discriminate]|].
    split; [intros; discriminate|].
    split; [intros; discriminate|].
    split; [intros resp _ [= <-] Hstatus; contradiction|].
    intros resp e _ [= <-] _ He. rewrite Hdecode in He.
    injection He as <-. reflexivity. }
  split.
  { eexists _, _, _, _. split; [reflexivity|].
    split; [intros [? ?]; discriminate|].
    intros _. split; [reflexivity|]. exists resp0, settings. auto. }
  split; [intros; discriminate|].
  split; [intros; discriminate|].
  split; [intros resp _ [= <-] Hstatus; contradiction|].
  intros resp e _ [= <-] _ He. rewrite Hdecode in He. discriminate He.
Qed.

End Claims.

Lemma upstream_clockLaws (status : Z) : clockLaws (Fixture.upstream status).
Proof.
  unfold clockLaws, inInt64, minInt64, maxInt64, Fixture.upstream.
  cbn [monotonic tick RoundTrip snd World].
  unfold time.Second, time.Nanosecond.
  repeat split; intros; lia.
Defined.

Lemma upstream_rangeLaw (status : Z) : rangeLaw (Fixture.upstream status).
Proof. intros w m. reflexivity. Defined.

Lemma replica_count_zero_on_error_witness :
  let L := Fixture.library (inr (Fixture.health 0)) (inl (errorString "EOF")) in
  let E := Fixture.upstream 200 in
  let c := (NewShardCollector (Fixture.cfg "" "")).1 in
  outcomeOf (settingsFetch L E c 0)
  = Returned (0, Some (Errorf_w "failed to decode response: " (errorString "EOF"))).
Proof.
  intros L E c.
  destruct (replica_count_zero_on_error L E c {| world := 0 : World E; locked := true |})
    as (_ & _ & _ & _ & Hdecode).
  exact (Hdecode {| http.StatusCode := 200; http.Body := "{}" |} (errorString "EOF")
                 eq_refl eq_refl eq_refl eq_refl).
Defined.

(** ** The relocation label *)

Section Relocation.

Variable L : Library.
Variable E : Environment.

(** The label of the relocation sample for every value the [int] field
    [RelocatingShards] may hold: ["active"] above 0, ["inactive"] at 0
    and below. *)
Lemma relocation_label_by_sign (cfg : CollectorConfig) (w : World E)
      (h : ClusterHealthResponse) :
  outcomeOf (cycleHealth L E cfg w) = Returned (Some h, None) ->
  relocationLabelled L E (fun n => n <= 0) cfg w h.
Proof.
  intros Hok. unfold relocationLabelled.
  destruct (cycle_summary L E cfg w)
    as (trH & h0 & errH & wH & trS & n & errS & wS
        & HH & _ & _ & _ & _ & _ & _ & _ & _ & _ & _ & Hms).
  rewrite Hms. rewrite HH in Hok. unfold outcomeOf in Hok. cbn [fst snd] in Hok.
  injection Hok as -> ->.
  exists (relocationLabel h). split.
  - destruct errS as [eS|]; reflexivity.
  - unfold relocationLabel.
    destruct (Z.gtb_spec (RelocatingShards h) 0); split; split; intros Hl;
      first [reflexivity | lia | discriminate Hl | exfalso; lia].
Qed.

(** C2. For every successfully fetched cluster-health response, whose
    [RelocatingShards] is a count of shards and so is not negative, the
    cycle sends exactly one relocation sample, of value 1, labelled
    ["active"] if and only if [RelocatingShards > 0] and ["inactive"]
    if and only if [RelocatingShards = 0]. *)
Theorem relocation_label_of_health (cfg : CollectorConfig) (w : World E)
        (h : ClusterHealthResponse) :
  outcomeOf (cycleHealth L E cfg w) = Returned (Some h, None) ->
  0 <= RelocatingShards h ->
  relocationLabelled L E (fun n => n = 0) cfg w h.
Proof.
  intros Hok Hcount.
  destruct (relocation_label_by_sign cfg w h Hok) as (l & Hsample & Hactive & Hinactive).
  exists l. split; [exact Hsample|]. split; [exact Hactive|].
  split; intros Hl.
  - apply Hinactive in Hl. lia.
  - apply Hinactive. lia.
Qed.

End Relocation.

Lemma relocation_label_of_health_witness :
  let L := fun n => Fixture.library (inr (Fixture.health n)) (inl (errorString "EOF")) in
  let E := Fixture.upstream 200 in
  (outcomeOf (cycleHealth (L 3) E (Fixture.cfg "" "") 0)
   = Returned (Some (Fixture.health 3), None) /\
   0 <= RelocatingShards (Fixture.health 3) /\
   relocationLabelled (L 3) E (fun n => n = 0) (Fixture.cfg "" "") 0 (Fixture.health 3)) /\
  (outcomeOf (cycleHealth (L 0) E (Fixture.cfg "" "") 0)
   = Returned (Some (Fixture.health 0), None) /\
   0 <= RelocatingShards (Fixture.health 0) /\
   relocationLabelled (L 0) E (fun n => n = 0) (Fixture.cfg "" "") 0 (Fixture.health 0)).
Proof.
  intros L E. split.
  - split; [reflexivity|]. split; [cbn; lia|].
    apply relocation_label_of_health; [reflexivity|cbn; lia].
  - split; [reflexivity|]. split; [cbn; lia|].
    apply relocation_label_of_health; [reflexivity|cbn; lia].
Defined.

(** ** The replica derivation *)

Lemma replicaStep_max (maxReplicas : Z) (s : IndexSettings) :
  replicaStep maxReplicas s = Z.max maxReplicas (scannedReplicas s).
Proof.
  unfold replicaStep, scannedReplicas.
  destruct (fmt.Sscanf_d _ 0) as [[replicas n] err]. cbn [fst].
  destruct (Z.gtb_spec replicas maxReplicas); lia.
Qed.

(** The loop from any starting maximum: an upper bound of the start and
    of every entry, and reached by one of them. *)
Lemma replica_fold_max (entries : list (string * IndexSettings)) (start : Z) :
  let r := fold_left (fun acc kv => replicaStep acc kv.2) entries start in
  start <= r /\
  (forall kv, kv ∈ entries -> scannedReplicas kv.2 <= r) /\
  (r = start \/ exists kv, kv ∈ entries /\ scannedReplicas kv.2 = r).
Proof.
  revert start. induction entries as [|kv entries IH]; intros start; cbn.
  - split; [lia|]. split; [|left; reflexivity].
    intros kv Hin. inversion Hin.
  - specialize (IH (replicaStep start kv.2)). cbv zeta in IH.
    destruct IH as (Hge & Hub & Hreach).
    rewrite replicaStep_max in Hge, Hub, Hreach |- *.
    split; [lia|]. split.
    + intros kv' Hin. apply elem_of_cons in Hin as [->|Hin]; [lia|auto].
    + destruct Hreach as [Heq|(kv' & Hin & Heq)].
      * destruct (Z.max_spec start (scannedReplicas kv.2)) as [[_ Hm]|[_ Hm]].
        -- right. exists kv. split; [left|]. lia.
        -- left. lia.
      * right. exists kv'. split; [right; exact Hin|exact Heq].
Qed.

Lemma replicaLoop_isMaxOver (settings : IndexSettingsResponse)
      (entries : list (string * IndexSettings)) :
  entries ≡ₚ map_to_list settings ->
  isMaxOver scannedReplicas settings (replicaLoop entries).
Proof.
  intros Hperm. unfold replicaLoop.
  destruct (replica_fold_max entries 0) as (Hge & Hub & Hreach).
  split; [exact Hge|]. split.
  - intros k s Hks. apply (Hub (k, s)).
    rewrite Hperm. apply elem_of_map_to_list. exact Hks.
  - destruct Hreach as [Heq|([k s] & Hin & Heq)]; [left; exact Heq|].
    right. exists k, s. split; [|exact Heq].
    rewrite Hperm in Hin. apply elem_of_map_to_list in Hin. exact Hin.
Qed.

Section Replicas.

Variable L : Library.
Variable E : Environment.

(** C1, as amended. For every decoded index-settings map the replica
    derivation returns no error, and returns the maximum, over all
    entries, of the integer [fmt.Sscanf] with [%d] reads at the front of
    the entry's [number_of_replicas] string (leading spaces skipped, an
    optional sign, decimal digits, whatever follows ignored), an entry
    contributing 0 when there is no such integer or it does not fit an
    [int]; the running maximum starts at 0, so an empty map yields 0.
    The order in which [range] walks the map does not matter. *)
Theorem max_replicas_of_decoded_settings (c : ShardCollector) (w : World E)
        (settings : IndexSettingsResponse) :
  rangeLaw E ->
  settingsDecoded L E c w settings ->
  derivesMaxOver L E scannedReplicas c w settings.
Proof.
  intros Hrange (Hurl & resp & w' & HRT & Hstatus & Hdecode).
  unfold derivesMaxOver, settingsFetch, fetchMaxReplicaCount, NewRequest.
  rewrite Hurl. cbn [mbind Prog_bind bind clientDo exec world locked].
  unfold settingsRequest, requestTo in HRT. cbv zeta in HRT.
  unfold failed, outcomeOf.
  rewrite HRT, Hstatus, Hdecode. cbn.
  eexists. split; [reflexivity|]. split; [reflexivity|].
  apply replicaLoop_isMaxOver, Hrange.
Qed.

End Replicas.

Example scanned_prefix : scannedReplicas (Fixture.index "2abc") = 2.
Proof. reflexivity. Qed.

Example parsed_prefix : parsedReplicas (Fixture.index "2abc") = 0.
Proof. reflexivity. Qed.

Example scanned_malformed : scannedReplicas (Fixture.index "abc") = 0.
Proof. reflexivity. Qed.

Example scanned_overflow :
  scannedReplicas (Fixture.index "9223372036854775808") = 0.
Proof. reflexivity. Qed.

Lemma max_replicas_of_decoded_settings_witness :
  let settings : IndexSettingsResponse :=
    <["logs" := Fixture.index "abc"]>
      (<["metrics" := Fixture.index "2"]> (<["traces" := Fixture.index "1"]> ∅)) in
  let L := Fixture.library (inl (errorString "EOF")) (inr settings) in
  let E := Fixture.upstream 200 in
  let c := (NewShardCollector (Fixture.cfg "elastic" "changeme")).1 in
  rangeLaw E /\
  settingsDecoded L E c 0 settings /\
  derivesMaxOver L E scannedReplicas c 0 settings.
Proof.
  intros settings L E c.
  assert (Hrange : rangeLaw E) by (intros w m; reflexivity).
  assert (Hdec : settingsDecoded L E c 0 settings).
  { split; [reflexivity|]. eexists _, _. repeat split; reflexivity. }
  split; [exact Hrange|]. split; [exact Hdec|].
  exact (max_replicas_of_decoded_settings L E c 0 settings Hrange Hdec).
Defined.

(** C1, as stated, fails for an entry whose string starts with digits
    but is not an integer: the scan reads 2 from ["2abc"], where a
    string that is not a valid integer should contribute 0. *)
Lemma max_replicas_strict_parse_counterexample :
  let settings : IndexSettingsResponse := {["logs" := Fixture.index "2abc"]} in
  let L := Fixture.library (inl (errorString "EOF")) (inr settings) in
  let E := Fixture.upstream 200 in
  let c := (NewShardCollector (Fixture.cfg "" "")).1 in
  ~ (rangeLaw E ->
     settingsDecoded L E c 0 settings ->
     derivesMaxOver L E parsedReplicas c 0 settings).
Proof.
  intros settings L E c Hclaim.
  assert (Hrange : rangeLaw E) by (intros w m; reflexivity).
  assert (Hdec : settingsDecoded L E c 0 settings).
  { split; [reflexivity|]. eexists _, _. repeat split; reflexivity. }
  destruct (Hclaim Hrange Hdec) as (r & Hout & _ & _ & _ & Hreach).
  vm_compute in Hout. injection Hout as <-.
  destruct Hreach as [Hzero|(k & s & Hks & Hval)]; [discriminate Hzero|].
  apply lookup_singleton_Some in Hks as [_ <-].
  vm_compute in Hval. discriminate Hval.
Qed.

Lemma samples_once_and_in_order_witness :
  let L := Fixture.library (inr (Fixture.health 3))
                           (inr {["logs" := Fixture.index "1"]}) in
  let E := Fixture.upstream 200 in
  let c := (NewShardCollector (Fixture.cfg "" "")).1 in
  clockLaws E /\
  exists d,
    samplesFor (scrapeDurationMetric c)
               (metricsOf (traceOf (cycle L E (Fixture.cfg "" "") 0)))
    = [scrapeDurationSample c d] /\
    0 <= d.
Proof.
  intros L E c.
  pose proof (upstream_clockLaws 200) as Hclock.
  split; [exact Hclock|].
  destruct (samples_once_and_in_order L E (Fixture.cfg "" "") 0 Hclock)
    as (reloc & repl & v & d & _ & _ & _ & _ & _ & Hdur & Hd).
  exists d. split; [exact Hdur|exact Hd].
Defined.

(** ** Which fields of the health response matter *)

Section HealthFields.

Variable L : Library.
Variable E : Environment.
Variable d : string -> error + ClusterHealthResponse.
Hypothesis Hagree : forall body, agreeOnRelocating (json_DecodeHealth L body) (d body).

Lemma healthFetch_agree (c : ShardCollector) (w : World E) :
  exists tr h h' err w',
    healthFetch L E c w = (tr, Returned (h, err), Build_Machine w' true) /\
    healthFetch (withHealthDecoder L d) E c w
    = (tr, Returned (h', err), Build_Machine w' true) /\
    (err = None ->
     exists x x', h = Some x /\ h' = Some x' /\
                  RelocatingShards x = RelocatingShards x').
Proof.
  unfold healthFetch, fetchClusterHealth, NewRequest.
  cbn [url_Parse withHealthDecoder].
  destruct (url_Parse L _) as [e|]; cbn.
  { eexists _, _, _, _, _. split; [reflexivity|]. split; [reflexivity|discriminate]. }
  destruct (RoundTrip E w _ _) as [[e|resp] w']; cbn.
  { eexists _, _, _, _, _. split; [reflexivity|]. split; [reflexivity|discriminate]. }
  destruct (negb (http.StatusCode resp =? http.StatusOK)); cbn.
  { eexists _, _, _, _, _. split; [reflexivity|]. split; [reflexivity|discriminate]. }
  specialize (Hagree (http.Body resp)).
  destruct (json_DecodeHealth L (http.Body resp)) as [e|h],
           (d (http.Body resp)) as [e'|h']; cbn in Hagree |- *;
    try contradiction.
  - subst e'. eexists _, _, _, _, _.
    split; [reflexivity|]. split; [reflexivity|discriminate].
  - eexists _, _, _, _, _.
    split; [reflexivity|]. split; [reflexivity|]. intros _. eauto.
Qed.

(** C8. When two decoders of the health response agree on
    [RelocatingShards] (and on failures) and are free on every other
    field, the cycles run with them send the same samples; they even do
    the same things altogether. *)
Theorem only_relocating_shards_matters (cfg : CollectorConfig) (w : World E) :
  metricsOf (traceOf (cycle L E cfg w))
  = metricsOf (traceOf (cycle (withHealthDecoder L d) E cfg w)) /\
  cycle L E cfg w = cycle (withHealthDecoder L d) E cfg w.
Proof.
  assert (Hrun : cycle L E cfg w = cycle (withHealthDecoder L d) E cfg w).
  { pose (c := (NewShardCollector cfg).1).
    destruct (healthFetch_agree c (tick E w))
      as (trH & h & h' & errH & wH & HH & HH' & Hrel).
    destruct (fetchMaxReplicaCount_exec L E c (Build_Machine wH true))
      as (trS & n & errS & wS & HS & _).
    cbn [locked] in HS.
    assert (Hh : errH = None -> is_Some h).
    { intros He. destruct (Hrel He) as (x & x' & -> & _). eauto. }
    assert (Hh' : errH = None -> is_Some h').
    { intros He. destruct (Hrel He) as (x & x' & _ & -> & _). eauto. }
    unfold cycle.
    rewrite (Collect_exec L E cfg w _ _ _ _ _ _ _ _ HH Hh HS).
    rewrite (Collect_exec (withHealthDecoder L d) E cfg w _ _ _ _ _ _ _ _ HH' Hh' HS).
    fold c.
    assert (Hev : healthEvents c h errH = healthEvents c h' errH).
    { destruct errH as [e|]; [reflexivity|].
      destruct (Hrel eq_refl) as (x & x' & -> & -> & Hrs).
      unfold healthEvents, relocationSample, relocationLabel. rewrite Hrs. reflexivity. }
    rewrite Hev. reflexivity. }
  split; [rewrite Hrun; reflexivity|exact Hrun].
Qed.

End HealthFields.

Lemma only_relocating_shards_matters_witness :
  let h1 := Fixture.health 2 in
  let h2 := {| ClusterName := "other"; Status := "red"; TimedOut := true;
               NumberOfNodes := 1; NumberOfDataNodes := 1;
               ActivePrimaryShards := 40; ActiveShards := 41;
               RelocatingShards := 2;
               InitializingShards := 7; UnassignedShards := 9;
               DelayedUnassignedShards := 4; NumberOfPendingTasks := 12;
               NumberOfInFlightFetch := 3; TaskMaxWaitingInQueueMillis := 250;
               ActiveShardsPercentAsNumber := "61.5" |} in
  let L := Fixture.library (inr h1) (inr {["logs" := Fixture.index "1"]}) in
  let E := Fixture.upstream 200 in
  (forall body, agreeOnRelocating (json_DecodeHealth L body) (inr h2)) /\
  metricsOf (traceOf (cycle L E (Fixture.cfg "" "") 0))
  = metricsOf (traceOf (cycle (withHealthDecoder L (fun _ => inr h2)) E
                              (Fixture.cfg "" "") 0)).
Proof.
  intros h1 h2 L E.
  assert (Hagree : forall body : string,
             agreeOnRelocating (json_DecodeHealth L body) ((fun _ => inr h2) body))
    by (intros body; reflexivity).
  split; [exact Hagree|].
  exact (proj1 (only_relocating_shards_matters L E (fun _ => inr h2) Hagree
                                              (Fixture.cfg "" "") 0)).
Defined.

(** ** Concurrent scrapes *)

Lemma lockFree_bind {A B : Type} (p : Prog A) (f : A -> Prog B) :
  lockFree p -> (forall a, lockFree (f a)) -> lockFree (bind p f).
Proof.
  intros Hp Hf. induction Hp; cbn; try constructor; auto.
Qed.

Lemma lockFree_mbind {A B : Type} (p : Prog A) (f : A -> Prog B) :
  lockFree p -> (forall a, lockFree (f a)) -> lockFree (p ≫= f).
Proof. apply lockFree_bind. Qed.

Lemma defer_unlock_inCritical {A : Type} (p : Prog A) :
  lockFree p -> inCritical (defer mutexUnlock p).
Proof.
  induction 1; cbn; constructor; cbn; auto.
Qed.

Lemma lockFree_MustNewConstMetric d vt v lvs :
  lockFree (MustNewConstMetric d vt v lvs).
Proof.
  unfold MustNewConstMetric.
  destruct (prometheus.NewConstMetric d vt v lvs); constructor.
Qed.

Lemma lockFree_fetchClusterHealth (L : Library) (c : ShardCollector) :
  lockFree (fetchClusterHealth L c).
Proof.
  unfold fetchClusterHealth.
  destruct (NewRequest L "GET" _) as [e|req]; [constructor|].
  apply lockFree_mbind; [repeat constructor|].
  intros [e|resp]; [constructor|].
  destruct (negb _); [constructor|].
  destruct (json_DecodeHealth L _); constructor.
Qed.

Lemma lockFree_fetchMaxReplicaCount (L : Library) (c : ShardCollector) :
  lockFree (fetchMaxReplicaCount L c).
Proof.
  unfold fetchMaxReplicaCount.
  destruct (NewRequest L "GET" _) as [e|req]; [constructor|].
  apply lockFree_mbind; [repeat constructor|].
  intros [e|resp]; [constructor|].
  destruct (negb _); [constructor|].
  destruct (json_DecodeSettings L _); [constructor|].
  apply lockFree_mbind; repeat constructor.
Qed.

Lemma lockFree_collectBody (L : Library) (c : ShardCollector) :
  lockFree (collectBody L c).
Proof.
  unfold collectBody.
  apply lockFree_mbind; [repeat constructor|]. intros start.
  apply lockFree_mbind; [apply lockFree_fetchClusterHealth|]. intros [health err].
  apply lockFree_mbind.
  { unfold reportHealth. destruct err as [e|]; [repeat constructor|].
    destruct health as [h|]; [|constructor].
    apply lockFree_mbind; [apply lockFree_MustNewConstMetric|].
    intros m. repeat constructor. }
  intros scrapeError.
  apply lockFree_mbind; [apply lockFree_fetchMaxReplicaCount|]. intros [replicas err'].
  apply lockFree_mbind.
  { unfold reportReplicas. destruct err' as [e|]; [repeat constructor|].
    apply lockFree_mbind; [apply lockFree_MustNewConstMetric|].
    intros m. repeat constructor. }
  intros scrapeError'.
  apply lockFree_mbind; [apply lockFree_MustNewConstMetric|]. intros m.
  apply lockFree_mbind; [repeat constructor|]. intros _.
  apply lockFree_mbind; [repeat constructor|]. intros d.
  apply lockFree_mbind; [apply lockFree_MustNewConstMetric|]. intros m'.
  repeat constructor.
Qed.

(** [Collect] is a [Lock] followed by a critical section, whatever the
    library functions answer. *)
Lemma Collect_shape (L : Library) (c : ShardCollector) :
  exists k, Collect L c = MutexLock k /\ inCritical k.
Proof.
  eexists. split; [reflexivity|].
  apply (defer_unlock_inCritical (collectBody L c)), lockFree_collectBody.
Qed.

Lemma serialFrom_app (st : option (option nat)) (h1 h2 : list (nat * Event)) :
  serialFrom st (h1 ++ h2) = serialFrom (serialFrom st h1) h2.
Proof. apply fold_left_app. Qed.

Lemma serialFrom_None (h : list (nat * Event)) : serialFrom None h = None.
Proof. induction h as [|e h IH]; [reflexivity|exact IH]. Qed.

(** Inside a critical section without [Unlock] the holder stays. *)
Lemma serialFrom_held (i : nat) (mid : list (nat * Event)) (st : option nat) :
  Forall (fun e => e.2 <> EvUnlock) mid ->
  serialFrom (Some (Some i)) mid = Some st ->
  st = Some i.
Proof.
  induction mid as [|[j ev] mid IH]; intros Hmid Hrun.
  - cbn in Hrun. congruence.
  - apply Forall_cons in Hmid as [Hev Hmid]. cbn in Hev.
    cbn [serialFrom fold_left] in Hrun. fold (serialFrom (serialStep (Some i) (j, ev)) mid) in Hrun.
    unfold serialStep in Hrun.
    destruct (negb (i =? j)%nat); [rewrite serialFrom_None in Hrun; discriminate|].
    destruct ev; try (apply IH; assumption);
      first [rewrite serialFrom_None in Hrun; discriminate | contradiction].
Qed.

(** In an accepted history, whatever happens after a [Lock] and before
    the next [Unlock] is done by the goroutine that locked. *)
Lemma serialRun_section (h1 mid h2 : list (nat * Event)) (i j : nat) (ev : Event)
      (st : option nat) :
  serialRun (h1 ++ (i, EvLock) :: mid ++ (j, ev) :: h2) = Some st ->
  Forall (fun e => e.2 <> EvUnlock) mid ->
  j = i.
Proof.
  unfold serialRun. intros Hrun Hmid.
  rewrite serialFrom_app in Hrun.
  destruct (serialFrom (Some None) h1) as [[h|]|] eqn:H1.
  - cbn [serialFrom fold_left serialStep] in Hrun.
    destruct (negb (h =? i)%nat); fold (serialFrom None (mid ++ (j, ev) :: h2)) in Hrun;
      rewrite serialFrom_None in Hrun; discriminate.
  - cbn [serialFrom fold_left serialStep] in Hrun.
    fold (serialFrom (Some (Some i)) (mid ++ (j, ev) :: h2)) in Hrun.
    rewrite serialFrom_app in Hrun.
    destruct (serialFrom (Some (Some i)) mid) as [st'|] eqn:H2.
    + apply serialFrom_held in H2; [|exact Hmid]. subst st'.
      cbn [serialFrom fold_left serialStep] in Hrun.
      destruct (Nat.eqb_spec i j) as [->|Hne]; [reflexivity|].
      cbn [negb] in Hrun. fold (serialFrom None h2) in Hrun.
      rewrite serialFrom_None in Hrun. discriminate.
    + rewrite serialFrom_None in Hrun. discriminate.
  - rewrite serialFrom_None in Hrun. discriminate.
Qed.

Section Serialization.

Variable L : Library.
Variable E : Environment.
Variable c : ShardCollector.

Lemma invariant_scraping (n : nat) (w : World E) : invariant L E c (scraping L E c n w).
Proof.
  exists None. repeat split; [discriminate|].
  intros j p Hj. apply lookup_replicate in Hj as [-> _].
  unfold goroutineOK. rewrite decide_False by discriminate. left. reflexivity.
Qed.

(** What one action of a goroutine inside its critical section is. *)
Lemma act_inCritical (p : Prog unit) (m : Machine E) :
  inCritical p -> locked m = true ->
  exists ev p' m',
    act p m = Some (ev, p', m') /\
    ev <> EvLock /\
    ((ev = EvUnlock /\ atRest p' /\ locked m' = false) \/
     (ev <> EvUnlock /\ inCritical p' /\ locked m' = true)).
Proof.
  intros Hp Hm. destruct Hp; cbn; rewrite ?Hm.
  - eexists _, _, _. split; [reflexivity|]. split; [discriminate|]. left. auto.
  - eexists _, _, _. split; [reflexivity|]. split; [discriminate|].
    right. split; [discriminate|]. split; [auto|first [exact Hm|reflexivity]].
  - destruct (RoundTrip E (world m) c0 req) as [res w].
    eexists _, _, _. split; [reflexivity|]. split; [discriminate|].
    right. split; [discriminate|]. split; [auto|first [exact Hm|reflexivity]].
  - eexists _, _, _. split; [reflexivity|]. split; [discriminate|].
    right. split; [discriminate|]. split; [auto|first [exact Hm|reflexivity]].
  - eexists _, _, _. split; [reflexivity|]. split; [discriminate|].
    right. split; [discriminate|]. split; [auto|first [exact Hm|reflexivity]].
  - eexists _, _, _. split; [reflexivity|]. split; [discriminate|].
    right. split; [discriminate|]. split; [auto|first [exact Hm|reflexivity]].
  - eexists _, _, _. split; [reflexivity|]. split; [discriminate|].
    right. split; [discriminate|]. split; [auto|first [exact Hm|reflexivity]].
Qed.

Lemma act_atRest (p : Prog unit) (m : Machine E) : atRest p -> act p m = None.
Proof. destruct p; cbn; intros H; try contradiction; reflexivity. Qed.

Lemma serialRun_snoc (h : list (nat * Event)) (holder : option nat) (e : nat * Event) :
  serialRun h = Some holder ->
  serialRun (h ++ [e]) = serialStep holder e.
Proof.
  unfold serialRun. intros Hh. rewrite serialFrom_app, Hh. reflexivity.
Qed.

(** With the mutex held, only the holder can act. *)
Lemma step_by_holder (P P' : Pool E) (holder : option nat) (i : nat) :
  locked (shared P) = true ->
  (forall j p, goroutines P !! j = Some p -> goroutineOK L c holder j p) ->
  holder = Some i ->
  step P P' ->
  exists ev, history P' = history P ++ [(i, ev)].
Proof.
  intros Hlocked Hok -> Hstep.
  destruct Hstep as [P j p p' ev m' Hj Hact]. cbn [history].
  specialize (Hok j p Hj). unfold goroutineOK in Hok.
  destruct (decide (Some i = Some j)) as [Heq|Hne].
  - injection Heq as ->. eauto.
  - exfalso. destruct Hok as [->|Hrest].
    + destruct (Collect_shape L c) as (k & Hk & _). rewrite Hk in Hact.
      cbn in Hact. rewrite Hlocked in Hact. discriminate.
    + rewrite act_atRest in Hact by exact Hrest. discriminate.
Qed.

Lemma invariant_step (P P' : Pool E) : invariant L E c P -> step P P' -> invariant L E c P'.
Proof.
  intros (holder & Hrun & Hlocked & _ & Hok) Hstep.
  destruct Hstep as [P i p p' ev m' Hi Hact]. unfold invariant. cbn [history shared goroutines].
  assert (Hthere : is_Some (<[i:=p']> (goroutines P) !! i)).
  { apply lookup_lt_is_Some. rewrite length_insert.
    apply lookup_lt_is_Some. eauto. }
  pose proof (Hok i p Hi) as Hp. unfold goroutineOK in Hp.
  destruct (decide (holder = Some i)) as [->|Hne].
  - (* the holder acts *)
    destruct (act_inCritical p (shared P) Hp Hlocked)
      as (ev0 & p0 & m0 & Hact0 & HnoLock & Hcase).
    rewrite Hact0 in Hact. injection Hact as <- <- <-.
    destruct Hcase as [(-> & Hrest & Hm)|(HnoUnlock & Hcrit & Hm)].
    + exists None. split; [|split; [exact Hm|split; [discriminate|]]].
      * rewrite (serialRun_snoc _ _ _ Hrun). cbn. rewrite Nat.eqb_refl. reflexivity.
      * intros j q Hj. unfold goroutineOK. rewrite decide_False by discriminate.
        apply list_lookup_insert_Some in Hj as [(-> & <- & _)|(Hij & Hj)].
        -- right. exact Hrest.
        -- specialize (Hok j q Hj). unfold goroutineOK in Hok.
           rewrite decide_False in Hok by congruence. exact Hok.
    + exists (Some i). split; [|split; [exact Hm|split; [intros ? [= <-]; exact Hthere|]]].
      * rewrite (serialRun_snoc _ _ _ Hrun). cbn. rewrite Nat.eqb_refl. cbn.
        destruct ev0; try reflexivity; contradiction.
      * intros j q Hj. unfold goroutineOK.
        apply list_lookup_insert_Some in Hj as [(-> & <- & _)|(Hij & Hj)].
        -- rewrite decide_True by reflexivity. exact Hcrit.
        -- specialize (Hok j q Hj). unfold goroutineOK in Hok.
           rewrite decide_False by congruence.
           rewrite decide_False in Hok by congruence. exact Hok.
  - (* a goroutine that does not hold the mutex acts: it locks *)
    destruct Hp as [->|Hrest]; [|rewrite act_atRest in Hact by exact Hrest; discriminate].
    destruct (Collect_shape L c) as (k & Hk & Hcrit). rewrite Hk in Hact.
    cbn in Hact. destruct (locked (shared P)) eqn:Hl; [discriminate|].
    injection Hact as <- <- <-.
    destruct holder as [h|]; [cbn in Hlocked; discriminate|].
    exists (Some i). split; [|split; [reflexivity|split; [intros ? [= <-]; exact Hthere|]]].
    + rewrite (serialRun_snoc _ _ _ Hrun). reflexivity.
    + intros j q Hj. unfold goroutineOK.
      apply list_lookup_insert_Some in Hj as [(-> & <- & _)|(Hij & Hj)].
      * rewrite decide_True by reflexivity. exact Hcrit.
      * specialize (Hok j q Hj). unfold goroutineOK in Hok.
        rewrite decide_False by congruence.
        rewrite decide_False in Hok by discriminate. exact Hok.
Qed.

Lemma invariant_reachable (n : nat) (w : World E) (P : Pool E) :
  rtc step (scraping L E c n w) P -> invariant L E c P.
Proof.
  revert P. apply rtc_ind_r.
  - apply invariant_scraping.
  - intros P P' _ Hstep IH. exact (invariant_step P P' IH Hstep).
Qed.

(** A critical section run by one goroutine ends with the [Unlock],
    after a return and after a panic alike, and leaves the mutex free. *)
Lemma exec_inCritical (p : Prog unit) (m : Machine E) :
  inCritical p -> locked m = true ->
  exists tr o w',
    exec E p m = (tr ++ [EvUnlock], o, Build_Machine w' false) /\
    locksOf tr = [] /\
    (o = Returned tt \/ exists v, o = Panicked v).
Proof.
  intros Hp. revert m.
  induction Hp as [k Hk|k _ IH|c0 req k _ IH|msg k _ IH|x k _ IH|d k _ IH|s k _ IH];
    intros [w0 b0] Hm; cbn in Hm; subst b0; cbn [exec locked world].
  - destruct k as [[]|v| | | | | | | | ]; cbn in Hk; try contradiction; cbn.
    + exists [], (Returned tt), w0. repeat split. left. reflexivity.
    + exists [], (Panicked v), w0. repeat split. right. eauto.
  - destruct (IH (monotonic E (tick E w0)) (Build_Machine (tick E w0) true) eq_refl)
      as (tr & o & w' & -> & Htr & Ho).
    eexists (_ :: tr), o, w'. repeat split; assumption.
  - destruct (RoundTrip E w0 c0 req) as [res w].
    destruct (IH res (Build_Machine w true) eq_refl) as (tr & o & w' & -> & Htr & Ho).
    eexists (_ :: tr), o, w'. repeat split; assumption.
  - destruct (IH (Build_Machine w0 true) eq_refl) as (tr & o & w' & -> & Htr & Ho).
    eexists (_ :: tr), o, w'. repeat split; assumption.
  - destruct (IH (Build_Machine w0 true) eq_refl) as (tr & o & w' & -> & Htr & Ho).
    eexists (_ :: tr), o, w'. repeat split; assumption.
  - destruct (IH (Build_Machine w0 true) eq_refl) as (tr & o & w' & -> & Htr & Ho).
    eexists (_ :: tr), o, w'. repeat split; assumption.
  - destruct (IH (rangeOrder E w0 s) (Build_Machine w0 true) eq_refl)
      as (tr & o & w' & -> & Htr & Ho).
    eexists (_ :: tr), o, w'. repeat split; assumption.
Qed.

(** C9. Concurrent calls of [Collect] never interleave.  Taken alone, a
    call locks first and unlocks last, on every exit path (return or
    panic).  In every state that goroutines calling [Collect] can reach,
    the history is a sequence of critical sections: whatever happens
    between a [Lock] and the next [Unlock], every sample sent included,
    is done by the goroutine that locked; and while a goroutine holds
    the mutex it can go on, and it is the only one that can: the others
    wait for its [Unlock]. *)
Theorem scrapes_never_interleave (n : nat) (w : World E) (P : Pool E) :
  rtc step (scraping L E c n w) P ->
  (forall w0, exists tr o w',
      exec E (Collect L c) (Build_Machine w0 false)
      = (EvLock :: tr ++ [EvUnlock], o, Build_Machine w' false) /\
      locksOf tr = [] /\
      (o = Returned tt \/ exists v, o = Panicked v)) /\
  exists holder,
    serialRun (history P) = Some holder /\
    locked (shared P) = held holder /\
    (forall h1 i mid j ev h2,
        history P = h1 ++ (i, EvLock) :: mid ++ (j, ev) :: h2 ->
        Forall (fun e => e.2 <> EvUnlock) mid ->
        j = i) /\
    (forall i, holder = Some i ->
               (exists P', step P P') /\
               (forall P', step P P' -> exists ev, history P' = history P ++ [(i, ev)])).
Proof.
  intros Hreach. split.
  - intros w0. destruct (Collect_shape L c) as (k & Hk & Hcrit). rewrite Hk.
    cbn [exec locked world].
    destruct (exec_inCritical k (Build_Machine w0 true) Hcrit eq_refl)
      as (tr & o & w' & -> & Htr & Ho).
    exists tr, o, w'. repeat split; assumption.
  - destruct (invariant_reachable n w P Hreach)
      as (holder & Hrun & Hlocked & Hthere & Hok).
    exists holder. split; [exact Hrun|]. split; [exact Hlocked|]. split.
    + intros h1 i mid j ev h2 Hh Hmid. rewrite Hh in Hrun.
      exact (serialRun_section _ _ _ _ _ _ _ Hrun Hmid).
    + intros i ->. cbn in Hlocked. split.
      * destruct (Hthere i eq_refl) as [p Hp].
        pose proof (Hok i p Hp) as Hcrit. unfold goroutineOK in Hcrit.
        rewrite decide_True in Hcrit by reflexivity.
        destruct (act_inCritical p (shared P) Hcrit Hlocked)
          as (ev & p' & m' & Hact & _).
        eexists. exact (step_goroutine P i p p' ev m' Hp Hact).
      * intros P' Hstep.
        exact (step_by_holder P P' (Some i) i Hlocked Hok eq_refl Hstep).
Qed.

End Serialization.

(** Two goroutines scrape the scripted upstream; the second one has
    taken the mutex and read the clock. *)
Lemma scrapes_never_interleave_witness :
  let L := Fixture.library (inr (Fixture.health 0))
                           (inr {["logs" := Fixture.index "1"]}) in
  let E := Fixture.upstream 200 in
  let c := (NewShardCollector (Fixture.cfg "" "")).1 in
  exists P : Pool E,
    rtc step (scraping L E c 2 0) P /\
    history P = [(1%nat, EvLock); (1%nat, EvNow 1)] /\
    serialRun (history P) = Some (Some 1%nat) /\
    forall P', step P P' -> exists ev, history P' = history P ++ [(1%nat, ev)].
Proof.
  intros L E c.
  eexists. split; [|split; [|split]].
  - eapply rtc_l.
    { eapply (step_goroutine _ 1%nat); [reflexivity|reflexivity]. }
    eapply rtc_l.
    { eapply (step_goroutine _ 1%nat); [reflexivity|reflexivity]. }
    apply rtc_refl.
  - reflexivity.
  - reflexivity.
  - match goal with
    | |- forall P', step ?P P' -> _ =>
      assert (Hreach : rtc step (scraping L E c 2 0) P)
    end.
    { eapply rtc_l.
      { eapply (step_goroutine _ 1%nat); [reflexivity|reflexivity]. }
      eapply rtc_l.
      { eapply (step_goroutine _ 1%nat); [reflexivity|reflexivity]. }
      apply rtc_refl. }
    destruct (scrapes_never_interleave L E c 2 0 _ Hreach)
      as (_ & holder & Hrun & _ & _ & Hblock).
    cbn in Hrun. injection Hrun as <-.
    exact (proj2 (Hblock 1%nat eq_refl)).
Defined.

(** ** Where the scan and the strict parse agree *)

Lemma parseUintLoop_range (cs : list Z) (n un : Z) :
  strconv.parseUintLoop cs n = (un, Some strconv.ErrRange) -> un = maxUint64.
Proof.
  revert n. induction cs as [|c cs IH]; intros n; cbn [strconv.parseUintLoop].
  - discriminate.
  - destruct (negb (strconv.isDigit c)); [discriminate|].
    destruct (maxUint64 / 10 + 1 <=? n); [congruence|].
    destruct (_ || _); [congruence|]. apply IH.
Qed.

Lemma parseUintLoop_ok (cs : list Z) (n un : Z) :
  0 <= n ->
  strconv.parseUintLoop cs n = (un, None) ->
  Forall (fun c => strconv.isDigit c = true) cs /\ 0 <= un.
Proof.
  revert n. induction cs as [|c cs IH]; intros n Hn; cbn [strconv.parseUintLoop].
  - intros [= <-]. split; [constructor|exact Hn].
  - destruct (strconv.isDigit c) eqn:Hc; cbn [negb]; [|discriminate].
    destruct (maxUint64 / 10 + 1 <=? n); [discriminate|].
    destruct (_ || _); [discriminate|].
    intros Hrest. apply IH in Hrest as [Hcs Hun].
    + split; [constructor; assumption|exact Hun].
    + apply Z.mod_pos_bound. lia.
Qed.

(** A successful [ParseInt]: an optional sign, then digits only, at
    least one, and a value that fits [int64]. *)
Lemma ParseInt_ok (cs : list Z) (n : Z) :
  strconv.ParseInt cs = (n, None) ->
  exists sgn digits,
    cs = sgn ++ digits /\
    (sgn = [] \/ sgn = [0x2B] \/ sgn = [0x2D]) /\
    digits <> [] /\
    Forall (fun c => strconv.isDigit c = true) digits /\
    inInt64 n.
Proof.
  unfold strconv.ParseInt. destruct cs as [|c0 rest]; [discriminate|].
  set (split := if c0 =? 0x2B then (false, rest)
                else if c0 =? 0x2D then (true, rest) else (false, c0 :: rest)).
  assert (Hsplit : exists sgn, c0 :: rest = sgn ++ split.2 /\
                               (sgn = [] \/ sgn = [0x2B] \/ sgn = [0x2D])).
  { subst split. destruct (Z.eqb_spec c0 0x2B) as [->|_].
    { exists [0x2B]. cbn. auto. }
    destruct (Z.eqb_spec c0 0x2D) as [->|_].
    { exists [0x2D]. cbn. auto. }
    exists []. cbn. auto. }
  destruct split as [neg digits]. cbn [snd] in Hsplit.
  destruct Hsplit as (sgn & Hcs & Hsgn).
  unfold strconv.ParseUint.
  destruct digits as [|d ds]; [discriminate|].
  destruct (strconv.parseUintLoop (d :: ds) 0) as [un [[]|]] eqn:Hloop.
  - discriminate.
  - apply parseUintLoop_range in Hloop. subst un. unfold maxUint64.
    destruct neg; cbn; discriminate.
  - apply parseUintLoop_ok in Hloop as [Hdigits Hun]; [|lia].
    intros Hres. exists sgn, (d :: ds).
    split; [exact Hcs|]. split; [exact Hsgn|]. split; [discriminate|].
    split; [exact Hdigits|].
    unfold inInt64, minInt64, maxInt64.
    destruct neg; cbn [negb andb] in Hres.
    + destruct (Z.ltb_spec (2 ^ 63) un); [discriminate|].
      injection Hres as <-. lia.
    + destruct (Z.leb_spec (2 ^ 63) un); [discriminate|].
      injection Hres as <-. lia.
Qed.

Lemma runesFrom_ascii (s : string) :
  isASCII s = true ->
  utf8.runesFrom 0 s = utf8.byteOf <$> list_ascii_of_string s.
Proof.
  induction s as [|a t IH]; [reflexivity|].
  cbn [isASCII]. intros [Ha Ht]%andb_prop. apply Z.ltb_lt in Ha.
  cbn [utf8.runesFrom utf8.DecodeRuneInString list_ascii_of_string fmap list_fmap].
  unfold utf8.first.
  destruct (Z.ltb_spec (utf8.byteOf a) 0x80) as [_|Hge]; [|lia].
  cbn [Nat.sub]. rewrite (IH Ht). reflexivity.
Qed.

Lemma isASCII_bytes (s : string) :
  Forall (fun b => b < 0x80) (utf8.byteOf <$> list_ascii_of_string s) ->
  isASCII s = true.
Proof.
  induction s as [|a t IH]; [reflexivity|].
  cbn [list_ascii_of_string fmap list_fmap isASCII].
  intros [Ha Ht]%Forall_cons. rewrite (IH Ht), andb_true_r.
  apply Z.ltb_lt. exact Ha.
Qed.

Lemma digit_bounds (c : Z) : strconv.isDigit c = true -> 0x30 <= c <= 0x39.
Proof. unfold strconv.isDigit. intros [H1 H2]%andb_prop. lia. Qed.

Lemma digit_is_decimal (c : Z) :
  strconv.isDigit c = true -> fmt.indexRune fmt.decimalDigits c = true.
Proof.
  intros Hc. apply digit_bounds in Hc.
  assert (c = 0x30 \/ c = 0x31 \/ c = 0x32 \/ c = 0x33 \/ c = 0x34 \/
          c = 0x35 \/ c = 0x36 \/ c = 0x37 \/ c = 0x38 \/ c = 0x39) as Hcases by lia.
  repeat (destruct Hcases as [->|Hcases]; [reflexivity|]). subst c. reflexivity.
Qed.

Lemma digit_not_sign (c : Z) :
  strconv.isDigit c = true -> fmt.indexRune fmt.sign c = false.
Proof.
  intros Hc. apply digit_bounds in Hc. unfold fmt.indexRune, fmt.sign. cbn [existsb].
  destruct (Z.eqb_spec c 0x2B); [lia|]. destruct (Z.eqb_spec c 0x2D); [lia|]. reflexivity.
Qed.

(** Neither a sign nor a digit is white space or a newline. *)
Lemma printable_not_space (r : Z) :
  0x21 <= r < 0x85 -> fmt.isSpace r = false /\ (r =? 0x0A) = false.
Proof.
  intros Hr. split; [|apply Z.eqb_neq; lia].
  unfold fmt.isSpace. destruct (Z.leb_spec (2 ^ 16) r); [reflexivity|].
  unfold fmt.space, fmt.inRanges.
  repeat match goal with
         | |- context [?a <? ?b] => destruct (Z.ltb_spec a b); try lia; try reflexivity
         | |- context [?a <=? ?b] => destruct (Z.leb_spec a b); try lia; try reflexivity
         end.
Qed.

Lemma skipSpaceFrom_printable (r : Z) (rest : list Z) (n lim : Z) (tok : list Z) :
  0x21 <= r < 0x85 ->
  fmt.skipSpaceFrom (r :: rest) n lim tok = inr (fmt.mkSS (r :: rest) n lim tok).
Proof.
  intros Hr. destruct (printable_not_space r Hr) as [Hsp Hnl].
  cbn [fmt.skipSpaceFrom]. rewrite Hsp, Hnl.
  destruct (lim <=? n); reflexivity.
Qed.

(** The digit loop reads all the digits there are, within the limit. *)
Lemma acceptAllFrom_digits (l : list Z) (n lim : Z) (tok : list Z) :
  Forall (fun c => strconv.isDigit c = true) l ->
  n + Z.of_nat (length l) <= lim ->
  fmt.acceptAllFrom fmt.decimalDigits l n lim tok
  = fmt.mkSS [] (n + Z.of_nat (length l)) lim (tok ++ l).
Proof.
  revert n tok. induction l as [|c l IH]; intros n tok Hl Hlim.
  - cbn. rewrite Z.add_0_r, app_nil_r. destruct (lim <=? n); reflexivity.
  - apply Forall_cons in Hl as [Hc Hl]. cbn [length] in Hlim.
    cbn [fmt.acceptAllFrom]. destruct (Z.leb_spec lim n); [lia|].
    rewrite (digit_is_decimal c Hc).
    rewrite IH by (try assumption; lia).
    cbn [length]. f_equal; [lia|]. rewrite <- app_assoc. reflexivity.
Qed.

Lemma ReadRune_cons (r : Z) (rest : list Z) (n lim : Z) (tok : list Z) :
  n < lim ->
  fmt.ReadRune (fmt.mkSS (r :: rest) n lim tok)
  = Some (r, fmt.mkSS rest (n + 1) lim tok).
Proof.
  intros Hn. unfold fmt.ReadRune. cbn [fmt.rs fmt.count fmt.argLimit fmt.buf].
  destruct (Z.leb_spec lim n); [lia|reflexivity].
Qed.

Lemma notEOF_cons (r : Z) (rest : list Z) (n lim : Z) (tok : list Z) :
  n < lim ->
  fmt.notEOF (fmt.mkSS (r :: rest) n lim tok) = inr (fmt.mkSS (r :: rest) n lim tok).
Proof. intros Hn. unfold fmt.notEOF. rewrite ReadRune_cons by exact Hn. reflexivity. Qed.

Lemma accept_hit (ok : list Z) (r : Z) (rest : list Z) (n lim : Z) (tok : list Z) :
  n < lim -> fmt.indexRune ok r = true ->
  fmt.accept ok (fmt.mkSS (r :: rest) n lim tok)
  = (true, fmt.mkSS rest (n + 1) lim (tok ++ [r])).
Proof.
  intros Hn Hr. unfold fmt.accept. rewrite ReadRune_cons by exact Hn.
  rewrite Hr. reflexivity.
Qed.

Lemma accept_miss (ok : list Z) (r : Z) (rest : list Z) (n lim : Z) (tok : list Z) :
  n < lim -> fmt.indexRune ok r = false ->
  fmt.accept ok (fmt.mkSS (r :: rest) n lim tok)
  = (false, fmt.mkSS (r :: rest) n lim tok).
Proof.
  intros Hn Hr. unfold fmt.accept. rewrite ReadRune_cons by exact Hn.
  rewrite Hr. reflexivity.
Qed.

Lemma scanNumber_digits (d : Z) (ds : list Z) (n lim : Z) (tok : list Z) :
  strconv.isDigit d = true ->
  Forall (fun c => strconv.isDigit c = true) ds ->
  n + 1 + Z.of_nat (length ds) <= lim ->
  fmt.scanNumber fmt.decimalDigits false (fmt.mkSS (d :: ds) n lim tok)
  = inr (tok ++ d :: ds,
         fmt.mkSS [] (n + 1 + Z.of_nat (length ds)) lim (tok ++ d :: ds)).
Proof.
  intros Hd Hds Hlim. unfold fmt.scanNumber.
  rewrite notEOF_cons by lia.
  rewrite accept_hit by (first [lia|exact (digit_is_decimal d Hd)]).
  cbn [fmt.rs fmt.count fmt.argLimit fmt.buf].
  rewrite acceptAllFrom_digits by (try assumption; lia).
  cbn [fmt.buf]. rewrite <- app_assoc. reflexivity.
Qed.

(** [scanInt] on an optional sign followed by digits only. *)
Lemma scanInt_integer (sgn : list Z) (d : Z) (ds : list Z) (lim : Z) (n : Z) :
  sgn = [] \/ sgn = [0x2B] \/ sgn = [0x2D] ->
  strconv.isDigit d = true ->
  Forall (fun c => strconv.isDigit c = true) ds ->
  Z.of_nat (length sgn) + 1 + Z.of_nat (length ds) <= lim ->
  strconv.ParseInt (sgn ++ d :: ds) = (n, None) ->
  inInt64 n ->
  exists s', fmt.scanInt intBits (fmt.mkSS (sgn ++ d :: ds) 0 lim []) = inr (n, s').
Proof.
  intros Hsgn Hd Hds Hlim Hparse Hn.
  pose proof (digit_bounds d Hd) as Hdb.
  assert (Hcheck : negb (Z.shiftr (wrap64 (Z.shiftl n (64 - intBits))) (64 - intBits)
                         =? n) = false).
  { unfold intBits. cbn [Z.sub Z.add Z.opp Z.pos_sub].
    rewrite Z.shiftl_0_r, Z.shiftr_0_r.
    unfold wrap64. unfold inInt64, minInt64, maxInt64 in Hn.
    rewrite Z.mod_small by lia.
    replace (n + 2 ^ 63 - 2 ^ 63) with n by lia. rewrite Z.eqb_refl. reflexivity. }
  unfold fmt.scanInt, fmt.SkipSpace. cbn [fmt.rs fmt.count fmt.argLimit fmt.buf].
  destruct Hsgn as [->|[->| ->]]; cbn [app length Z.of_nat] in *.
  - rewrite skipSpaceFrom_printable by lia.
    rewrite notEOF_cons by lia.
    rewrite accept_miss by (first [lia|exact (digit_not_sign d Hd)]).
    rewrite scanNumber_digits by (try assumption; lia).
    cbn [app]. rewrite Hparse, Hcheck. eauto.
  - rewrite skipSpaceFrom_printable by lia.
    rewrite notEOF_cons by lia.
    rewrite accept_hit by (first [lia|reflexivity]).
    rewrite scanNumber_digits by (try assumption; lia).
    cbn [app]. rewrite Hparse, Hcheck. eauto.
  - rewrite skipSpaceFrom_printable by lia.
    rewrite notEOF_cons by lia.
    rewrite accept_hit by (first [lia|reflexivity]).
    rewrite scanNumber_digits by (try assumption; lia).
    cbn [app]. rewrite Hparse, Hcheck. eauto.
Qed.

(** On a string that [strconv.Atoi] accepts (and that is shorter than
    the width limit of the scanner) [Sscanf] with [%d] stores the same
    integer: for well-formed replica counts the scan is the parse. *)
Lemma Sscanf_d_Atoi (str : string) (n v : Z) :
  strconv.Atoi str = (n, None) ->
  Z.of_nat (String.length str) < fmt.hugeWid ->
  fmt.Sscanf_d str v = (n, 1, None).
Proof.
  unfold strconv.Atoi. intros Hparse Hlen.
  set (bs := utf8.byteOf <$> list_ascii_of_string str) in *.
  assert (Hbs : length bs = String.length str).
  { subst bs. rewrite length_fmap. clear. induction str; cbn; congruence. }
  destruct (ParseInt_ok bs n Hparse) as (sgn & digits & Hcs & Hsgn & Hne & Hdigits & Hn).
  assert (Hascii : isASCII str = true).
  { apply isASCII_bytes. fold bs. rewrite Hcs. apply Forall_app. split.
    - destruct Hsgn as [->|[->| ->]]; repeat constructor.
    - eapply Forall_impl; [exact Hdigits|]. intros c Hc. apply digit_bounds in Hc. lia. }
  unfold fmt.Sscanf_d, utf8.runes. rewrite (runesFrom_ascii str Hascii). fold bs.
  destruct digits as [|d ds]; [contradiction|].
  apply Forall_cons in Hdigits as [Hd Hds].
  pose proof (digit_bounds d Hd) as Hdb.
  assert (Hlim : Z.of_nat (length sgn) + 1 + Z.of_nat (length ds) <= fmt.hugeWid).
  { rewrite <- Hbs, Hcs, length_app in Hlen. cbn [length] in Hlen. lia. }
  rewrite Hcs in Hparse |- *.
  destruct (scanInt_integer sgn d ds fmt.hugeWid n Hsgn Hd Hds Hlim Hparse Hn)
    as [s' Hscan].
  assert (Hskip : fmt.SkipSpace (fmt.mkSS (sgn ++ d :: ds) 0 fmt.hugeWid [])
                  = inr (fmt.mkSS (sgn ++ d :: ds) 0 fmt.hugeWid [])).
  { unfold fmt.SkipSpace. cbn [fmt.rs fmt.count fmt.argLimit fmt.buf].
    destruct Hsgn as [->|[->| ->]]; cbn [app];
      apply skipSpaceFrom_printable; lia. }
  rewrite Hskip. cbn [fmt.rs fmt.count fmt.argLimit fmt.buf].
  rewrite Hscan. reflexivity.
Qed.

(** So the scan and the strict parse give the same contribution for
    every entry that holds a decimal integer: the two readings of C1
    differ only on malformed strings. *)
Lemma scanned_is_parsed (s : IndexSettings) (n : Z) :
  strconv.Atoi (NumberOfReplicas (Index (Settings s))) = (n, None) ->
  Z.of_nat (String.length (NumberOfReplicas (Index (Settings s)))) < fmt.hugeWid ->
  scannedReplicas s = parsedReplicas s.
Proof.
  intros Hparse Hlen. unfold scannedReplicas, parsedReplicas.
  rewrite (Sscanf_d_Atoi _ n 0 Hparse Hlen), Hparse. reflexivity.
Qed.

(** ** Further properties of the collector *)

Lemma logsOf_app (tr1 tr2 : list Event) :
  logsOf (tr1 ++ tr2) = logsOf tr1 ++ logsOf tr2.
Proof. apply omap_app. Qed.

Lemma clockReads_app (tr1 tr2 : list Event) :
  clockReads (tr1 ++ tr2) = clockReads tr1 ++ clockReads tr2.
Proof. apply omap_app. Qed.

Lemma upstream_clockReads (tr : list Event) :
  Forall upstreamEvent tr -> clockReads tr = [].
Proof.
  induction 1 as [|ev tr Hev _ IH]; [reflexivity|].
  destruct ev; simpl in Hev; try contradiction; exact IH.
Qed.

Section CollectorFacts.

Variable L : Library.
Variable E : Environment.

(** X1. Every scrape cycle of a collector built by [NewShardCollector]
    returns normally, whatever the library and the upstream do: it
    neither panics (the label values it builds pass the checks of
    [MustNewConstMetric], and [health] is never dereferenced when nil),
    nor blocks, and it leaves the mutex free.  It sends at least two
    samples and at most four. *)
Theorem Collect_returns_and_unlocks (cfg : CollectorConfig) (w : World E) :
  outcomeOf (cycle L E cfg w) = Returned tt /\
  locked (machineOf (cycle L E cfg w)) = false /\
  (2 <= length (metricsOf (traceOf (cycle L E cfg w))) <= 4)%nat.
Proof.
  destruct (cycle_summary L E cfg w)
    as (trH & h & errH & wH & trS & n & errS & wS
        & _ & Hh & _ & _ & _ & _ & _ & _ & _ & _ & HC & Hms).
  rewrite Hms. rewrite HC. unfold outcomeOf, machineOf. cbn [fst snd locked].
  split; [reflexivity|]. split; [reflexivity|].
  destruct errH as [eH|]; [|destruct (Hh eq_refl) as [h' ->]];
    destruct errS as [eS|]; cbn; lia.
Qed.

(** X2. [fetchClusterHealth] returns a response or an error, never both and
    never neither.  It sends at most one request (there is no retry),
    and it neither logs, nor sends a sample, nor touches the mutex. *)
Theorem health_fetch_result (c : ShardCollector) (m : Machine E) :
  exists tr h err m',
    exec E (fetchClusterHealth L c) m = (tr, Returned (h, err), m') /\
    (is_Some h <-> err = None) /\
    locked m' = locked m /\
    (length (requestsOf tr) <= 1)%nat /\
    metricsOf tr = [] /\
    logsOf tr = [] /\
    locksOf tr = [].
Proof.
  destruct m as [w0 b0].
  unfold fetchClusterHealth, NewRequest.
  destruct (url_Parse L _) as [e|]; cbn.
  { eexists _, _, _, _. split; [reflexivity|].
    split; [split; [intros [? ?]|]; discriminate|]. repeat split; cbn; lia. }
  destruct (RoundTrip E w0 _ _) as [[e|resp] w']; cbn.
  { eexists _, _, _, _. split; [reflexivity|].
    split; [split; [intros [? ?]|]; discriminate|]. repeat split; cbn; lia. }
  destruct (negb (http.StatusCode resp =? http.StatusOK)); cbn.
  { eexists _, _, _, _. split; [reflexivity|].
    split; [split; [intros [? ?]|]; discriminate|]. repeat split; cbn; lia. }
  destruct (json_DecodeHealth L (http.Body resp)) as [e|h]; cbn.
  { eexists _, _, _, _. split; [reflexivity|].
    split; [split; [intros [? ?]|]; discriminate|]. repeat split; cbn; lia. }
  eexists _, _, _, _. split; [reflexivity|].
  split; [split; [reflexivity|eauto]|]. repeat split; cbn; lia.
Qed.

(** X3. Only the status 200 is a success.  When the upstream answers a
    fetch with any other status (a 500, but a 201 or a 204 as well), the
    fetch fails with an error that carries the status code and the body,
    whether the body would decode or not; the replica count is then 0. *)
Theorem other_status_is_an_error (c : ShardCollector) (w : World E)
        (resp : http.Response) :
  http.StatusCode resp <> http.StatusOK ->
  (url_Parse L (ESURL (config c) +:+ "/_cluster/health") = None ->
   (RoundTrip E w (client c) (healthRequest L c)).1 = inr resp ->
   outcomeOf (healthFetch L E c w)
   = Returned (None, Some (errorString
                             ("unexpected status code "
                                +:+ fmt.Sprintf_d (http.StatusCode resp)
                                +:+ ": " +:+ http.Body resp)))) /\
  (url_Parse L (ESURL (config c) +:+ "/_settings") = None ->
   (RoundTrip E w (client c) (settingsRequest L c)).1 = inr resp ->
   outcomeOf (settingsFetch L E c w)
   = Returned (0, Some (errorString
                          ("unexpected status code "
                             +:+ fmt.Sprintf_d (http.StatusCode resp)
                             +:+ ": " +:+ http.Body resp)))).
Proof.
  intros Hstatus.
  assert (Hneg : negb (http.StatusCode resp =? http.StatusOK) = true).
  { apply negb_true_iff, Z.eqb_neq. exact Hstatus. }
  split; intros Hurl HRT.
  - unfold healthFetch, fetchClusterHealth, NewRequest. rewrite Hurl.
    cbn [mbind Prog_bind bind clientDo exec world locked].
    unfold healthRequest, requestTo in HRT. cbv zeta in HRT.
    destruct (RoundTrip E w _ _) as [res w']. cbn [fst] in HRT. subst res.
    rewrite Hneg. reflexivity.
  - unfold settingsFetch, fetchMaxReplicaCount, NewRequest. rewrite Hurl.
    cbn [mbind Prog_bind bind clientDo exec world locked].
    unfold settingsRequest, requestTo in HRT. cbv zeta in HRT.
    destruct (RoundTrip E w _ _) as [res w']. cbn [fst] in HRT. subst res.
    rewrite Hneg. reflexivity.
Qed.

(** X4. What a cycle logs: one line for each fetch that failed, the health
    line before the replica line, each with the message of the error the
    fetch returned; a cycle whose fetches both succeed logs nothing. *)
Theorem cycle_logs (cfg : CollectorConfig) (w : World E) :
  exists h errH n errS,
    outcomeOf (cycleHealth L E cfg w) = Returned (h, errH) /\
    outcomeOf (cycleSettings L E cfg w) = Returned (n, errS) /\
    logsOf (traceOf (cycle L E cfg w))
    = logLine "Error fetching cluster health: " errH
        ++ logLine "Error fetching replica count: " errS.
Proof.
  destruct (cycle_summary L E cfg w)
    as (trH & h & errH & wH & trS & n & errS & wS
        & HH & Hh & HtrH & _ & _ & HS & _ & HtrS & _ & _ & HC & _).
  exists h, errH, n, errS. rewrite HH, HS, HC. unfold outcomeOf, traceOf. cbn [fst snd].
  split; [reflexivity|]. split; [reflexivity|].
  change (EvLock :: ?l) with ([EvLock] ++ l).
  rewrite !logsOf_app, (upstream_logsOf trH HtrH), (upstream_logsOf trS HtrS).
  destruct errH as [eH|]; [|destruct (Hh eq_refl) as [h' ->]];
    destruct errS as [eS|]; reflexivity.
Qed.

End CollectorFacts.

Lemma other_status_is_an_error_witness :
  let L := Fixture.library (inr (Fixture.health 3))
                           (inr {["logs" := Fixture.index "1"]}) in
  let E := Fixture.upstream 201 in
  let c := (NewShardCollector (Fixture.cfg "" "")).1 in
  201 <> http.StatusOK /\
  outcomeOf (healthFetch L E c 0)
  = Returned (None, Some (errorString "unexpected status code 201: {}")) /\
  outcomeOf (settingsFetch L E c 0)
  = Returned (0, Some (errorString "unexpected status code 201: {}")).
Proof.
  intros L E c.
  assert (Hne : http.StatusCode {| http.StatusCode := 201; http.Body := "{}" |}
                <> http.StatusOK) by discriminate.
  split; [exact Hne|].
  destruct (other_status_is_an_error L E c 0 _ Hne) as [Hh Hs].
  split; [exact (Hh eq_refl eq_refl)|exact (Hs eq_refl eq_refl)].
Defined.

(** The difference of two readings of a monotonic clock is the time
    elapsed, cut at the largest [Duration]. *)
Lemma subMono_elapsed (t u : Z) :
  inInt64 t -> inInt64 u -> u <= t -> time.subMono t u = Z.min (t - u) maxInt64.
Proof.
  unfold inInt64, minInt64, maxInt64, time.subMono, time.maxDuration,
    time.minDuration, maxInt64, minInt64, wrap64.
  intros Ht Hu Hle.
  destruct (Z.le_gt_cases (t - u) (2 ^ 63 - 1)) as [Hfit|Hbig].
  - rewrite Z.mod_small by lia.
    destruct (Z.ltb_spec (t - u + 2 ^ 63 - 2 ^ 63) 0); [lia|]. cbn [andb].
    destruct (Z.ltb_spec t u); [lia|]. rewrite andb_false_r. lia.
  - replace ((t - u + 2 ^ 63) mod 2 ^ 64) with (t - u + 2 ^ 63 - 2 ^ 64).
    + destruct (Z.ltb_spec (t - u + 2 ^ 63 - 2 ^ 64 - 2 ^ 63) 0); [|lia].
      destruct (Z.ltb_spec u t); [|lia]. cbn [andb]. lia.
    + apply Z.mod_unique with (q := 1); lia.
Qed.

Section CycleShape.

Variable L : Library.
Variable E : Environment.

(** X5. The clock is read twice in a cycle: once right after the mutex is
    taken, and once after the scrape-error sample.  Everything else the
    cycle does, both requests included, happens between the two
    readings, and the duration sample is the second reading less the
    first: on a monotonic clock the time elapsed, cut at the largest
    [Duration]. *)
Theorem duration_spans_the_cycle (cfg : CollectorConfig) (w : World E) :
  let c := (NewShardCollector cfg).1 in
  exists t0 t1 mid,
    traceOf (cycle L E cfg w)
    = [EvLock; EvNow t0] ++ mid
        ++ [EvNow t1; EvMetric (scrapeDurationSample c (time.subMono t1 t0));
            EvUnlock] /\
    clockReads mid = [] /\
    requestsOf mid = requestsOf (traceOf (cycle L E cfg w)) /\
    (clockLaws E -> time.subMono t1 t0 = Z.min (t1 - t0) maxInt64).
Proof.
  intros c.
  destruct (cycle_summary L E cfg w)
    as (trH & h & errH & wH & trS & n & errS & wS
        & _ & Hh & HtrH & _ & HckH & _ & _ & HtrS & _ & HckS & HC & _).
  fold c in HC. rewrite HC. unfold traceOf. cbn [fst].
  exists (monotonic E (tick E w)), (monotonic E (tick E wS)),
    (trH ++ healthEvents c h errH ++ trS ++ replicaEvents c n errS
         ++ [EvMetric (scrapeErrorSample c (errorFlag errH errS))]).
  split; [rewrite <- !app_assoc; reflexivity|].
  split; [|split].
  - rewrite !clockReads_app, (upstream_clockReads trH HtrH), (upstream_clockReads trS HtrS).
    destruct errH as [eH|]; [|destruct (Hh eq_refl) as [h' ->]];
      destruct errS as [eS|]; reflexivity.
  - change (EvLock :: ?l) with ([EvLock] ++ l).
    rewrite !requestsOf_app.
    destruct errH as [eH|]; [|destruct (Hh eq_refl) as [h' ->]];
      destruct errS as [eS|]; cbn; rewrite ?app_nil_r; reflexivity.
  - intros Hclock. pose proof Hclock as (Hrange & Htick & _).
    apply subMono_elapsed; [apply Hrange|apply Hrange|].
    specialize (HckH Hclock). specialize (HckS Hclock).
    pose proof (Htick wS). lia.
Qed.

(** X6. The requests of a cycle are plain: each is a [GET] with the header
    [Accept: application/json] and no header other than [Accept] and
    [Authorization]; their URLs are the configured base URL followed by
    [/_cluster/health] and by [/_settings], in this order, nothing being
    added or removed between the two parts (a base URL that ends with a
    slash gives a double slash). *)
Theorem requests_are_plain_gets (cfg : CollectorConfig) (w : World E) :
  Forall (fun req =>
            http.Method req = "GET" /\
            http.Header req !! "Accept" = Some ["application/json"] /\
            (forall k, is_Some (http.Header req !! k) ->
                       k = "Accept" \/ k = "Authorization"))
         (requestsOf (traceOf (cycle L E cfg w))) /\
  http.URL <$> requestsOf (traceOf (cycle L E cfg w))
  = urlIfParsed L (ESURL cfg +:+ "/_cluster/health")
      ++ urlIfParsed L (ESURL cfg +:+ "/_settings").
Proof.
  rewrite cycle_requests. set (c := (NewShardCollector cfg).1).
  assert (Hall : forall path,
             let req := requestTo L c path in
             http.Method req = "GET" /\
             http.Header req !! "Accept" = Some ["application/json"] /\
             (forall k, is_Some (http.Header req !! k) ->
                        k = "Accept" \/ k = "Authorization")).
  { intros path req. subst req. unfold requestTo, SetBasicAuth, http.HeaderSet.
    destruct (nonEmpty (ESUser (config c)) && nonEmpty (ESPass (config c)));
      cbn [http.Method http.Header]; (split; [reflexivity|]);
      (split; [apply lookup_insert_eq|]); intros k [v Hk].
    - destruct (decide (k = "Accept")) as [->|Hne]; [left; reflexivity|].
      rewrite lookup_insert_ne in Hk by congruence.
      destruct (decide (k = "Authorization")) as [->|Hne']; [right; reflexivity|].
      rewrite lookup_insert_ne, lookup_empty in Hk by congruence. discriminate.
    - destruct (decide (k = "Accept")) as [->|Hne]; [left; reflexivity|].
      rewrite lookup_insert_ne, lookup_empty in Hk by congruence. discriminate. }
  unfold urlIfParsed, healthRequest, settingsRequest.
  destruct (url_Parse L (ESURL cfg +:+ "/_cluster/health")),
           (url_Parse L (ESURL cfg +:+ "/_settings")); cbn [sentIf app fmap list_fmap];
    (split; [repeat (apply Forall_cons; split; [apply Hall|]); apply Forall_nil; exact I|]);
    unfold requestTo, SetBasicAuth, http.HeaderSet;
    destruct (nonEmpty (ESUser (config c)) && nonEmpty (ESPass (config c)));
    reflexivity.
Qed.

(** X7. Two scrapes one after the other are two cycles: the second one is
    the cycle started in the world the first one leaves.  Nothing else
    goes from one scrape to the next: no cached result, no error flag,
    no held mutex. *)
Theorem scrapes_in_sequence_are_cycles (cfg : CollectorConfig) (w : World E) :
  let c := (NewShardCollector cfg).1 in
  let first := cycle L E cfg w in
  let second := cycle L E cfg (world (machineOf first)) in
  exec E (Collect L c;; Collect L c) (Build_Machine w false)
  = (traceOf first ++ traceOf second, Returned tt, machineOf second).
Proof.
  intros c first second.
  change (exec E (Collect L c ≫= ?f) ?m) with (exec E (bind (Collect L c) f) m).
  rewrite exec_bind.
  destruct (cycle_summary L E cfg w)
    as (trH & h & errH & wH & trS & n & errS & wS
        & _ & _ & _ & _ & _ & _ & _ & _ & _ & _ & HC & _).
  assert (H1 : first = cycle L E cfg w) by reflexivity.
  unfold cycle in HC. fold c in HC. rewrite HC.
  unfold cycle in H1. fold c in H1. rewrite HC in H1.
  assert (H2 : second = exec E (Collect L c) (Build_Machine (tick E wS) false)).
  { subst second. rewrite H1. reflexivity. }
  destruct (cycle_summary L E cfg (tick E wS))
    as (trH' & h' & errH' & wH' & trS' & n' & errS' & wS'
        & _ & _ & _ & _ & _ & _ & _ & _ & _ & _ & HC' & _).
  unfold cycle in HC'. fold c in HC'. rewrite HC' in H2 |- *.
  rewrite H1, H2. reflexivity.
Qed.

(** X8. Without [SSLEnable] the flag [SSLSkipVerify] changes nothing: the
    HTTP client is the same, and so is everything a cycle does. *)
Theorem skip_verify_needs_ssl_enable (url user pass : string) (skip skip' : bool)
        (w : World E) :
  let cfg := {| ESURL := url; ESUser := user; ESPass := pass;
                SSLEnable := false; SSLSkipVerify := skip |} in
  let cfg' := {| ESURL := url; ESUser := user; ESPass := pass;
                 SSLEnable := false; SSLSkipVerify := skip' |} in
  client (NewShardCollector cfg).1 = client (NewShardCollector cfg').1 /\
  http.TLSClientConfig (http.transport (client (NewShardCollector cfg).1)) = None /\
  cycle L E cfg w = cycle L E cfg' w.
Proof.
  intros cfg cfg'. repeat split.
Qed.

End CycleShape.

(** ** The collector keeps the contract of a Prometheus collector *)

Section Contract.

Variable L : Library.
Variable E : Environment.

(** X9. Every sample a cycle sends belongs to one of the four descriptors
    [Describe] sends, is a gauge, has as many label values as its
    descriptor has label names, and its label values are valid UTF-8:
    what [Collect] emits is consistent with what [Describe] announces. *)
Theorem samples_are_described (cfg : CollectorConfig) (w : World E) (m : Machine E) :
  let c := (NewShardCollector cfg).1 in
  Forall (fun x =>
            prometheus.desc x ∈ descsOf (traceOf (exec E (Describe c) m)) /\
            prometheus.valType x = prometheus.GaugeValue /\
            length (prometheus.labelValues x)
            = length (prometheus.variableLabels (prometheus.desc x)) /\
            forallb utf8.ValidString (prometheus.labelValues x) = true)
         (metricsOf (traceOf (cycle L E cfg w))).
Proof.
  intros c.
  destruct (cycle_summary L E cfg w)
    as (trH & h & errH & wH & trS & n & errS & wS
        & _ & Hh & _ & _ & _ & _ & _ & _ & _ & _ & _ & Hms).
  fold c in Hms. rewrite Hms.
  assert (Hreloc : forall h', forallb utf8.ValidString [relocationLabel h'] = true).
  { intros h'. unfold relocationLabel. destruct (RelocatingShards h' >? 0); reflexivity. }
  assert (Hrepl : forallb utf8.ValidString [fmt.Sprintf_d n] = true).
  { cbn [forallb]. rewrite (isASCII_ValidString _ (isASCII_Sprintf_d n)). reflexivity. }
  assert (Hdescs : descsOf (traceOf (exec E (Describe c) m))
                   = [shardRelocationMetric c; shardReplicaMetric c;
                      scrapeErrorMetric c; scrapeDurationMetric c]) by reflexivity.
  rewrite Hdescs.
  destruct errH as [eH|]; [|destruct (Hh eq_refl) as [h' ->]];
    destruct errS as [eS|]; cbn [healthSamples replicaSamples app];
    repeat (apply Forall_cons; split;
            [split; [cbn [prometheus.desc relocationSample replicaSample
                          scrapeErrorSample scrapeDurationSample gauge];
                     set_solver
                    |split; [reflexivity|split; [reflexivity|]]];
             first [apply Hreloc | exact Hrepl | reflexivity]|]);
    apply Forall_nil; exact I.
Qed.

(** X10. A base URL that [url.Parse] refuses sends nothing upstream: both
    fetches fail while building their request, the cycle logs the two
    errors with their cause, and still sends the scrape-error sample,
    with value 1, and the duration sample. *)
Theorem malformed_url_sends_nothing (cfg : CollectorConfig) (w : World E)
        (e1 e2 : error) :
  url_Parse L (ESURL cfg +:+ "/_cluster/health") = Some e1 ->
  url_Parse L (ESURL cfg +:+ "/_settings") = Some e2 ->
  let c := (NewShardCollector cfg).1 in
  requestsOf (traceOf (cycle L E cfg w)) = [] /\
  logsOf (traceOf (cycle L E cfg w))
  = ["Error fetching cluster health: failed to create request: " +:+ Error e1;
     "Error fetching replica count: failed to create request: " +:+ Error e2] /\
  exists d,
    metricsOf (traceOf (cycle L E cfg w))
    = [scrapeErrorSample c 1; scrapeDurationSample c d].
Proof.
  intros Hurl1 Hurl2 c.
  assert (HH : healthFetch L E c (tick E w)
               = ([], Returned (None, Some (Errorf_w "failed to create request: " e1)),
                  Build_Machine (tick E w) true)).
  { unfold healthFetch, fetchClusterHealth, NewRequest.
    change (ESURL (config c)) with (ESURL cfg). rewrite Hurl1. reflexivity. }
  assert (HS : settingsFetch L E c (tick E w)
               = ([], Returned (0, Some (Errorf_w "failed to create request: " e2)),
                  Build_Machine (tick E w) true)).
  { unfold settingsFetch, fetchMaxReplicaCount, NewRequest.
    change (ESURL (config c)) with (ESURL cfg). rewrite Hurl2. reflexivity. }
  assert (Hh : Some (Errorf_w "failed to create request: " e1) = None
               -> is_Some (@None ClusterHealthResponse)) by discriminate.
  pose proof (Collect_exec L E cfg w _ _ _ _ _ _ _ _ HH Hh HS) as HC.
  cbv zeta in HC. fold c in HC.
  unfold cycle. fold c. rewrite HC. unfold traceOf. cbn [fst].
  split; [reflexivity|]. split; [reflexivity|]. eexists. reflexivity.
Qed.

End Contract.

Lemma malformed_url_sends_nothing_witness :
  let L := {| url_Parse := fun _ => Some (errorString "parse: invalid URL escape");
              base64_EncodeToString := fun x => x;
              json_DecodeHealth := fun _ => inr (Fixture.health 0);
              json_DecodeSettings := fun _ => inr ∅ |} in
  let E := Fixture.upstream 200 in
  let cfg := {| ESURL := "http://es:9200/%zz"; ESUser := ""; ESPass := "";
                SSLEnable := false; SSLSkipVerify := false |} in
  url_Parse L (ESURL cfg +:+ "/_cluster/health")
  = Some (errorString "parse: invalid URL escape") /\
  requestsOf (traceOf (cycle L E cfg 0)) = [] /\
  length (metricsOf (traceOf (cycle L E cfg 0))) = 2%nat.
Proof.
  intros L E cfg. split; [reflexivity|].
  destruct (malformed_url_sends_nothing L E cfg 0 _ _ eq_refl eq_refl)
    as (Hreq & _ & d & Hms).
  split; [exact Hreq|]. rewrite Hms. reflexivity.
Defined.

(** ** The replica count: any order, and its range *)

Lemma replica_fold_perm (l1 l2 : list (string * IndexSettings)) :
  l1 ≡ₚ l2 ->
  forall start,
    fold_left (fun acc kv => replicaStep acc kv.2) l1 start
    = fold_left (fun acc kv => replicaStep acc kv.2) l2 start.
Proof.
  induction 1 as [|x l1 l2 _ IH|x y l|l1 l2 l3 _ IH1 _ IH2]; intros start; cbn.
  - reflexivity.
  - apply IH.
  - f_equal. rewrite !replicaStep_max. lia.
  - rewrite IH1. apply IH2.
Qed.

Lemma scanInt_inInt64 (bitSize : Z) (s s' : fmt.ss) (i : Z) :
  fmt.scanInt bitSize s = inr (i, s') -> inInt64 i.
Proof.
  unfold fmt.scanInt.
  destruct (fmt.SkipSpace s) as [e|s1]; [discriminate|].
  destruct (fmt.notEOF s1) as [e|s2]; [discriminate|].
  destruct (fmt.accept fmt.sign s2) as [ok s3].
  destruct (fmt.scanNumber fmt.decimalDigits false s3) as [e|[tok s4]]; [discriminate|].
  destruct (strconv.ParseInt tok) as [i' [e|]] eqn:Hparse; [discriminate|].
  destruct (negb _); [discriminate|].
  intros [= <- _].
  destruct (ParseInt_ok tok i' Hparse) as (_ & _ & _ & _ & _ & _ & Hi). exact Hi.
Qed.

Lemma scannedReplicas_inInt64 (s : IndexSettings) : inInt64 (scannedReplicas s).
Proof.
  unfold scannedReplicas, fmt.Sscanf_d.
  destruct (fmt.SkipSpace _) as [e|s1]; [cbn; unfold inInt64, minInt64, maxInt64; lia|].
  destruct (fmt.scanInt _ _) as [e|[i s2]] eqn:Hscan;
    [cbn; unfold inInt64, minInt64, maxInt64; lia|].
  cbn. exact (scanInt_inInt64 _ _ _ _ Hscan).
Qed.

Lemma replicaLoop_range (entries : list (string * IndexSettings)) :
  0 <= replicaLoop entries <= maxInt64.
Proof.
  unfold replicaLoop.
  destruct (replica_fold_max entries 0) as (Hge & _ & Hreach).
  split; [exact Hge|].
  destruct Hreach as [->|(kv & _ & <-)]; [unfold maxInt64; lia|].
  apply scannedReplicas_inInt64.
Qed.

Lemma allDigits_pretty_N_go (x : N) (s : string) :
  allDigits s = true -> allDigits (pretty_N_go x s) = true.
Proof.
  revert s. induction (N.lt_wf_0 x) as [x _ IH]; intros s Hs.
  destruct (decide (x = 0)%N) as [->|Hx]; [exact Hs|].
  rewrite pretty_N_go_step by lia.
  apply IH; [apply N.div_lt; lia|].
  unfold allDigits. cbn [list_ascii_of_string fmap list_fmap forallb].
  fold (allDigits s). rewrite Hs, andb_true_r.
  unfold pretty_N_char. repeat case_match; reflexivity.
Qed.

Lemma allDigits_Sprintf_d (n : Z) : 0 <= n -> allDigits (fmt.Sprintf_d n) = true.
Proof.
  intros Hn. unfold fmt.Sprintf_d, pretty, pretty_Z.
  destruct n as [|x|x]; [reflexivity| |lia].
  unfold pretty, pretty_positive, pretty, pretty_N.
  destruct (decide (N.pos x = 0)%N); [discriminate|].
  apply allDigits_pretty_N_go. reflexivity.
Qed.

Section ReplicaCount.

Variable L : Library.
Variable E : Environment.

(** X11. The replica count does not depend on the order in which the runtime
    walks the settings map: with any other order that visits every entry
    once, the fetch returns the same count and the same error. *)
Theorem replica_count_in_any_order (c : ShardCollector) (w : World E)
        (order : World E -> IndexSettingsResponse -> list (string * IndexSettings)) :
  rangeLaw E ->
  rangeLaw (withRangeOrder E order) ->
  outcomeOf (settingsFetch L (withRangeOrder E order) c w)
  = outcomeOf (settingsFetch L E c w).
Proof.
  intros HE Horder.
  unfold settingsFetch, fetchMaxReplicaCount, NewRequest.
  destruct (url_Parse L _) as [e|]; [reflexivity|].
  cbn [mbind Prog_bind bind clientDo exec world locked RoundTrip withRangeOrder].
  destruct (RoundTrip E w _ _) as [[e|resp] w']; [reflexivity|].
  destruct (negb (http.StatusCode resp =? http.StatusOK)); [reflexivity|].
  destruct (json_DecodeSettings L (http.Body resp)) as [e|settings]; [reflexivity|].
  cbn. unfold outcomeOf. cbn [fst snd]. do 2 f_equal.
  apply replica_fold_perm.
  specialize (HE w' settings). specialize (Horder w' settings).
  cbn [rangeOrder withRangeOrder] in Horder.
  rewrite Horder, HE. reflexivity.
Qed.

(** The count [fetchMaxReplicaCount] returns lies between 0 and the
    largest [int], for every answer of the upstream and every content of
    the settings (negative and oversized entries included). *)
Lemma fetched_count_range (c : ShardCollector) (m : Machine E) :
  exists tr n err m',
    exec E (fetchMaxReplicaCount L c) m = (tr, Returned (n, err), m') /\
    0 <= n <= maxInt64.
Proof.
  assert (Hzero : 0 <= 0 <= maxInt64) by (unfold maxInt64; lia).
  destruct m as [w0 b0].
  unfold fetchMaxReplicaCount, NewRequest.
  destruct (url_Parse L _) as [e|]; cbn.
  { eexists _, _, _, _. split; [reflexivity|exact Hzero]. }
  destruct (RoundTrip E w0 _ _) as [[e|resp] w']; cbn.
  { eexists _, _, _, _. split; [reflexivity|exact Hzero]. }
  destruct (negb (http.StatusCode resp =? http.StatusOK)); cbn.
  { eexists _, _, _, _. split; [reflexivity|exact Hzero]. }
  destruct (json_DecodeSettings L (http.Body resp)) as [e|settings]; cbn.
  { eexists _, _, _, _. split; [reflexivity|exact Hzero]. }
  eexists _, _, _, _. split; [reflexivity|].
  exact (replicaLoop_range (rangeOrder E w' settings)).
Qed.

(** X12. The count the settings fetch of a cycle returns lies between 0
    and the largest [int], for every answer of the upstream and every
    content of the settings (negative and oversized entries included).
    When the fetch succeeded, the cycle sends one replica sample, whose
    only label value is that count written by [Sprintf] with [%d]: a
    string of decimal digits, without a sign.  When it failed, the
    cycle sends no replica sample. *)
Theorem replica_count_range (cfg : CollectorConfig) (w : World E) :
  let c := (NewShardCollector cfg).1 in
  exists n err,
    outcomeOf (cycleSettings L E cfg w) = Returned (n, err) /\
    0 <= n <= maxInt64 /\
    (is_Some err ->
     samplesFor (shardReplicaMetric c) (metricsOf (traceOf (cycle L E cfg w))) = []) /\
    (err = None ->
     exists x label,
       samplesFor (shardReplicaMetric c) (metricsOf (traceOf (cycle L E cfg w))) = [x] /\
       prometheus.labelValues x = [label] /\
       label = fmt.Sprintf_d n /\
       allDigits label = true).
Proof.
  intros c.
  destruct (cycle_summary L E cfg w)
    as (trH & h & errH & wH & trS & n & errS & wS
        & _ & Hh & _ & _ & _ & HS & _ & _ & _ & _ & _ & Hms).
  fold c in Hms. rewrite Hms.
  exists n, errS. unfold outcomeOf. rewrite HS. cbn [fst snd].
  split; [reflexivity|].
  assert (Hn : 0 <= n <= maxInt64).
  { destruct (fetched_count_range
                c (Build_Machine (world (machineOf (cycleHealth L E cfg w))) true))
      as (tr' & n' & err' & m' & Hx & Hr).
    unfold cycleSettings, settingsFetch in HS. fold c in HS.
    rewrite HS in Hx. injection Hx as _ <- _ _. exact Hr. }
  split; [exact Hn|]. split.
  - intros [e ->].
    destruct errH as [eH|]; [|destruct (Hh eq_refl) as [h' ->]]; reflexivity.
  - intros ->. exists (replicaSample c n), (fmt.Sprintf_d n).
    split; [destruct errH as [eH|]; [|destruct (Hh eq_refl) as [h' ->]]; reflexivity|].
    split; [reflexivity|]. split; [reflexivity|].
    apply allDigits_Sprintf_d. lia.
Qed.

End ReplicaCount.

Lemma replica_count_in_any_order_witness :
  let settings : IndexSettingsResponse :=
    <["logs" := Fixture.index "1"]>
      (<["metrics" := Fixture.index "3"]> (<["traces" := Fixture.index "2"]> ∅)) in
  let L := Fixture.library (inl (errorString "EOF")) (inr settings) in
  let E := Fixture.upstream 200 in
  let c := (NewShardCollector (Fixture.cfg "" "")).1 in
  let order := fun (_ : World E) (m : IndexSettingsResponse) => reverse (map_to_list m) in
  rangeLaw E /\
  rangeLaw (withRangeOrder E order) /\
  outcomeOf (settingsFetch L (withRangeOrder E order) c 0) = Returned (3, None) /\
  outcomeOf (settingsFetch L (withRangeOrder E order) c 0)
  = outcomeOf (settingsFetch L E c 0).
Proof.
  intros settings L E c order.
  assert (HE : rangeLaw E) by (intros w m; reflexivity).
  assert (Horder : rangeLaw (withRangeOrder E order))
    by (intros w m; apply reverse_Permutation).
  split; [exact HE|]. split; [exact Horder|]. split; [vm_compute; reflexivity|].
  exact (replica_count_in_any_order L E c 0 order HE Horder).
Defined.

(** ** More indices never lower the count *)

(** X13. The count grows with the settings: when every entry walked in one
    run is also walked in another, the count of the first is at most the
    count of the second.  An index added to the cluster can raise the
    replica count and cannot lower it. *)
Theorem replica_count_grows_with_the_settings
        (entries entries' : list (string * IndexSettings)) :
  entries ⊆ entries' -> replicaLoop entries <= replicaLoop entries'.
Proof.
  intros Hsub. unfold replicaLoop.
  destruct (replica_fold_max entries 0) as (_ & _ & Hreach).
  destruct (replica_fold_max entries' 0) as (Hge' & Hub' & _).
  destruct Hreach as [->|(kv & Hin & <-)]; [exact Hge'|].
  apply Hub', Hsub, Hin.
Qed.

Lemma replica_count_grows_with_the_settings_witness :
  [("logs", Fixture.index "1")] ⊆ [("metrics", Fixture.index "3"); ("logs", Fixture.index "1")] /\
  replicaLoop [("logs", Fixture.index "1")] = 1 /\
  replicaLoop [("metrics", Fixture.index "3"); ("logs", Fixture.index "1")] = 3 /\
  replicaLoop [("logs", Fixture.index "1")]
  <= replicaLoop [("metrics", Fixture.index "3"); ("logs", Fixture.index "1")].
Proof.
  assert (Hsub : [("logs", Fixture.index "1")]
                 ⊆ [("metrics", Fixture.index "3"); ("logs", Fixture.index "1")]).
  { intros x Hx. apply list_elem_of_singleton in Hx as ->. right. left. }
  split; [exact Hsub|]. split; [reflexivity|]. split; [reflexivity|].
  exact (replica_count_grows_with_the_settings _ _ Hsub).
Defined.

(** ** Decimal strings are read back exactly *)

Lemma byteOf_pretty_N_char (r : N) :
  (r < 10)%N -> utf8.byteOf (pretty_N_char r) = 0x30 + Z.of_N r.
Proof.
  intros Hr.
  assert (r = 0 \/ r = 1 \/ r = 2 \/ r = 3 \/ r = 4 \/ r = 5 \/ r = 6 \/ r = 7
          \/ r = 8 \/ r = 9)%N as Hcases by lia.
  repeat (destruct Hcases as [->|Hcases]; [reflexivity|]). subst r. reflexivity.
Qed.

(** Parsing the digits [pretty_N_go] puts in front of [s] gives [x];
    the parse then goes on in [s]. *)
Lemma parseUintLoop_pretty_N_go (x : N) (s : string) :
  Z.of_N x <= maxUint64 ->
  strconv.parseUintLoop (utf8.byteOf <$> list_ascii_of_string (pretty_N_go x s)) 0
  = strconv.parseUintLoop (utf8.byteOf <$> list_ascii_of_string s) (Z.of_N x).
Proof.
  revert s. induction (N.lt_wf_0 x) as [x _ IH]; intros s Hx.
  destruct (decide (x = 0)%N) as [->|Hpos]; [reflexivity|].
  rewrite pretty_N_go_step by lia.
  assert (Hdiv : Z.of_N (x `div` 10) = Z.of_N x / 10) by (rewrite N2Z.inj_div; reflexivity).
  assert (Hmod : Z.of_N (x `mod` 10) = Z.of_N x mod 10) by (rewrite N2Z.inj_mod; reflexivity).
  pose proof (Z.div_mod (Z.of_N x) 10 ltac:(lia)) as Hdm.
  pose proof (Z.mod_pos_bound (Z.of_N x) 10 ltac:(lia)) as Hmb.
  unfold maxUint64 in Hx.
  rewrite IH; [|apply N.div_lt; lia|unfold maxUint64; lia].
  cbn [list_ascii_of_string fmap list_fmap strconv.parseUintLoop].
  rewrite byteOf_pretty_N_char by (apply N.mod_lt; lia).
  rewrite Hdiv, Hmod.
  assert (Hdigit : strconv.isDigit (0x30 + Z.of_N x mod 10) = true).
  { unfold strconv.isDigit. apply andb_true_intro. split; apply Z.leb_le; lia. }
  rewrite Hdigit. cbn [negb].
  unfold maxUint64.
  destruct (Z.leb_spec (( 2 ^ 64 - 1) / 10 + 1) (Z.of_N x / 10)) as [Hbig|_].
  { exfalso.
    assert ((2 ^ 64 - 1) / 10 = 1844674407370955161) as Hq by reflexivity.
    lia. }
  replace (0x30 + Z.of_N x mod 10 - 0x30) with (Z.of_N x mod 10) by lia.
  replace (Z.of_N x / 10 * 10 + Z.of_N x mod 10) with (Z.of_N x) by lia.
  rewrite Z.mod_small by lia.
  destruct (Z.ltb_spec (Z.of_N x) (Z.of_N x / 10 * 10)); [lia|].
  destruct (Z.ltb_spec (2 ^ 64 - 1) (Z.of_N x)); [lia|].
  reflexivity.
Qed.

Lemma length_pretty_N_go (k : nat) (x : N) (s : string) :
  (x < 10 ^ N.of_nat k)%N ->
  (String.length (pretty_N_go x s) <= String.length s + k)%nat.
Proof.
  revert x s. induction k as [|k IH]; intros x s Hx.
  - assert (x = 0%N) as -> by (cbn in Hx; lia). rewrite pretty_N_go_0. lia.
  - destruct (decide (x = 0)%N) as [->|Hpos]; [rewrite pretty_N_go_0; lia|].
    rewrite pretty_N_go_step by lia.
    etrans; [apply IH|cbn [String.length]; lia].
    rewrite Nat2N.inj_succ, N.pow_succ_r' in Hx.
    apply N.Div0.div_lt_upper_bound. exact Hx.
Qed.

Lemma length_bytes (s : string) :
  length (utf8.byteOf <$> list_ascii_of_string s) = String.length s.
Proof. rewrite length_fmap. induction s; cbn; congruence. Qed.

(** [strconv.Atoi] reads back what [Sprintf("%d", n)] wrote. *)
Lemma Atoi_Sprintf_d (n : Z) :
  inInt64 n -> strconv.Atoi (fmt.Sprintf_d n) = (n, None).
Proof.
  unfold inInt64, minInt64, maxInt64. intros Hn.
  assert (Hloop : forall x : positive,
             Z.pos x <= 2 ^ 63 ->
             strconv.parseUintLoop
               (utf8.byteOf <$> list_ascii_of_string (pretty_N_go (N.pos x) "")) 0
             = (Z.pos x, None)).
  { intros x Hx. rewrite parseUintLoop_pretty_N_go; [reflexivity|].
    unfold maxUint64. cbn [Z.of_N]. lia. }
  unfold strconv.Atoi, fmt.Sprintf_d, pretty, pretty_Z.
  destruct n as [|x|x]; [reflexivity| |].
  - unfold pretty, pretty_positive, pretty, pretty_N.
    destruct (decide (N.pos x = 0)%N); [discriminate|].
    specialize (Hloop x ltac:(lia)).
    pose proof (allDigits_pretty_N_go (N.pos x) "" eq_refl) as Hdigits.
    unfold allDigits in Hdigits.
    destruct (utf8.byteOf <$> list_ascii_of_string (pretty_N_go (N.pos x) ""))
      as [|c0 rest] eqn:Hbytes; [discriminate Hloop|].
    cbn [forallb] in Hdigits. apply andb_prop in Hdigits as [Hc0 _].
    apply digit_bounds in Hc0.
    unfold strconv.ParseInt.
    destruct (Z.eqb_spec c0 0x2B); [lia|]. destruct (Z.eqb_spec c0 0x2D); [lia|].
    unfold strconv.ParseUint. rewrite Hloop. cbn [negb andb].
    destruct (Z.leb_spec (2 ^ 63) (Z.pos x)); [lia|]. reflexivity.
  - unfold pretty, pretty_positive, pretty, pretty_N.
    destruct (decide (N.pos x = 0)%N); [discriminate|].
    specialize (Hloop x ltac:(lia)).
    change (utf8.byteOf <$> list_ascii_of_string ("-" +:+ pretty_N_go (N.pos x) ""))
      with (0x2D :: (utf8.byteOf <$> list_ascii_of_string (pretty_N_go (N.pos x) ""))).
    unfold strconv.ParseInt.
    change (0x2D =? 0x2B) with false.
    change (0x2D =? 0x2D) with true. cbv iota.
    unfold strconv.ParseUint.
    destruct (utf8.byteOf <$> list_ascii_of_string (pretty_N_go (N.pos x) ""))
      as [|c0 rest] eqn:Hbytes; [discriminate Hloop|].
    rewrite Hloop. cbn [negb andb].
    destruct (Z.ltb_spec (2 ^ 63) (Z.pos x)); [lia|]. reflexivity.
Qed.

Lemma length_Sprintf_d (n : Z) :
  inInt64 n -> Z.of_nat (String.length (fmt.Sprintf_d n)) < fmt.hugeWid.
Proof.
  unfold inInt64, minInt64, maxInt64. intros Hn.
  assert (Hgo : forall x : positive,
             Z.pos x <= 2 ^ 63 ->
             (String.length (pretty_N_go (N.pos x) "") <= 20)%nat).
  { intros x Hx.
    apply (length_pretty_N_go 20 (N.pos x) "").
    change (10 ^ N.of_nat 20)%N with 100000000000000000000%N. lia. }
  unfold fmt.hugeWid, fmt.Sprintf_d, pretty, pretty_Z.
  destruct n as [|x|x]; [reflexivity| |].
  - unfold pretty, pretty_positive, pretty, pretty_N.
    destruct (decide (N.pos x = 0)%N); [discriminate|].
    specialize (Hgo x ltac:(lia)). lia.
  - unfold pretty, pretty_positive, pretty, pretty_N.
    destruct (decide (N.pos x = 0)%N); [discriminate|].
    change (String.length ("-" +:+ pretty_N_go (N.pos x) ""))
      with (S (String.length (pretty_N_go (N.pos x) ""))).
    specialize (Hgo x ltac:(lia)). lia.
Qed.

(** X14. An index whose [number_of_replicas] is the decimal writing of an
    [int] [n], as [Sprintf("%d", n)] gives it, contributes exactly [n]:
    the scan of the loop reads [n], with no error, and so does the
    strict parse; one pass of the loop takes the maximum with [n]. *)
Theorem decimal_replicas_read_exactly (s : IndexSettings) (n maxReplicas : Z) :
  inInt64 n ->
  NumberOfReplicas (Index (Settings s)) = fmt.Sprintf_d n ->
  fmt.Sscanf_d (NumberOfReplicas (Index (Settings s))) 0 = (n, 1, None) /\
  scannedReplicas s = n /\
  parsedReplicas s = n /\
  replicaStep maxReplicas s = Z.max maxReplicas n.
Proof.
  intros Hn Hs.
  assert (Hscan : fmt.Sscanf_d (NumberOfReplicas (Index (Settings s))) 0 = (n, 1, None)).
  { rewrite Hs. apply Sscanf_d_Atoi; [apply Atoi_Sprintf_d|apply length_Sprintf_d]; exact Hn. }
  assert (Hscanned : scannedReplicas s = n) by (unfold scannedReplicas; rewrite Hscan; reflexivity).
  split; [exact Hscan|]. split; [exact Hscanned|]. split.
  - unfold parsedReplicas. rewrite Hs, (Atoi_Sprintf_d n Hn). reflexivity.
  - rewrite replicaStep_max, Hscanned. reflexivity.
Qed.

Lemma decimal_replicas_read_exactly_witness :
  inInt64 (-7) /\
  NumberOfReplicas (Index (Settings (Fixture.index "-7"))) = fmt.Sprintf_d (-7) /\
  scannedReplicas (Fixture.index "-7") = -7 /\
  replicaStep 2 (Fixture.index "-7") = Z.max 2 (-7).
Proof.
  assert (Hn : inInt64 (-7)) by (unfold inInt64, minInt64, maxInt64; lia).
  split; [exact Hn|]. split; [reflexivity|].
  destruct (decimal_replicas_read_exactly (Fixture.index "-7") (-7) 2 Hn eq_refl)
    as (_ & Hscanned & _ & Hstep).
  split; [exact Hscanned|exact Hstep].
Defined.

(** ** Concurrent scrapes never get stuck *)

Lemma waiting_or_all_at_rest (p0 : Prog unit) (ps : list (Prog unit)) :
  (forall j p, ps !! j = Some p -> p = p0 \/ atRest p) ->
  (exists j, ps !! j = Some p0) \/ Forall atRest ps.
Proof.
  induction ps as [|p ps IH]; intros Hps; [right; constructor|].
  destruct (Hps 0%nat p eq_refl) as [->|Hrest]; [left; exists 0%nat; reflexivity|].
  destruct IH as [[j Hj]|Hall].
  - intros j q Hj. exact (Hps (S j) q Hj).
  - left. exists (S j). exact Hj.
  - right. constructor; assumption.
Qed.

Section Progress.

Variable L : Library.
Variable E : Environment.
Variable c : ShardCollector.

(** X15. Goroutines that call [Collect] on one collector never deadlock: in
    every state they can reach, either one of them can do its next
    action, or all of them have finished and the mutex is free. *)
Theorem scrapes_never_deadlock (n : nat) (w : World E) (P : Pool E) :
  rtc step (scraping L E c n w) P ->
  (exists P', step P P') \/
  (Forall atRest (goroutines P) /\ locked (shared P) = false).
Proof.
  intros Hreach.
  destruct (invariant_reachable L E c n w P Hreach)
    as (holder & _ & Hlocked & Hthere & Hok).
  destruct holder as [i|]; cbn [held] in Hlocked.
  - left. destruct (Hthere i eq_refl) as [p Hp].
    pose proof (Hok i p Hp) as Hcrit. unfold goroutineOK in Hcrit.
    rewrite decide_True in Hcrit by reflexivity.
    destruct (act_inCritical E p (shared P) Hcrit Hlocked)
      as (ev & p' & m' & Hact & _).
    eexists. exact (step_goroutine P i p p' ev m' Hp Hact).
  - destruct (waiting_or_all_at_rest (Collect L c) (goroutines P)) as [[j Hj]|Hall].
    + intros j p Hj. specialize (Hok j p Hj). unfold goroutineOK in Hok.
      rewrite decide_False in Hok by discriminate. exact Hok.
    + left. destruct (Collect_shape L c) as (k & Hk & _).
      eexists. apply (step_goroutine P j (Collect L c) k EvLock
                                     (Build_Machine (world (shared P)) true) Hj).
      rewrite Hk. cbn [act]. rewrite Hlocked. reflexivity.
    + right. split; [exact Hall|exact Hlocked].
Qed.

End Progress.

(** Two goroutines, the second of which holds the mutex: it can go on. *)
Lemma scrapes_never_deadlock_witness :
  let L := Fixture.library (inr (Fixture.health 0))
                           (inr {["logs" := Fixture.index "1"]}) in
  let E := Fixture.upstream 200 in
  let c := (NewShardCollector (Fixture.cfg "" "")).1 in
  exists P : Pool E,
    rtc step (scraping L E c 2 0) P /\
    history P = [(1%nat, EvLock)] /\
    ((exists P', step P P') \/
     (Forall atRest (goroutines P) /\ locked (shared P) = false)).
Proof.
  intros L E c.
  eexists. split; [|split].
  - eapply rtc_l; [|apply rtc_refl].
    eapply (step_goroutine _ 1%nat); [reflexivity|reflexivity].
  - reflexivity.
  - apply (scrapes_never_deadlock L E c 2 0).
    eapply rtc_l; [|apply rtc_refl].
    eapply (step_goroutine _ 1%nat); [reflexivity|reflexivity].
Defined.

(** ** Concurrent scrapes end *)

Lemma within_le {A : Type} (n m : nat) (p : Prog A) :
  within n p -> (n <= m)%nat -> within m p.
Proof.
  intros Hp. revert m. induction Hp; intros m Hm;
    try (constructor; fail);
    (destruct m as [|m]; [lia|]); constructor; auto with lia.
Qed.

Lemma within_bind {A B : Type} (n m : nat) (p : Prog A) (f : A -> Prog B) :
  within n p -> (forall a, within m (f a)) -> within (n + m) (bind p f).
Proof.
  intros Hp Hf. induction Hp; cbn [bind Nat.add]; try (constructor; auto; fail).
  - apply (within_le m); [apply Hf|lia].
Qed.

Lemma within_mbind {A B : Type} (n m : nat) (p : Prog A) (f : A -> Prog B) :
  within n p -> (forall a, within m (f a)) -> within (n + m) (p ≫= f).
Proof. apply within_bind. Qed.

Lemma within_defer {A : Type} (n m : nat) (d : Prog unit) (p : Prog A) :
  within n p -> within m d -> within (n + m) (defer d p).
Proof.
  intros Hp Hd. induction Hp; cbn [defer Nat.add]; try (constructor; auto; fail).
  - apply (within_le (m + 0)); [|lia]. apply within_bind; [exact Hd|]. intros _. constructor.
  - apply (within_le (m + 0)); [|lia]. apply within_bind; [exact Hd|]. intros _. constructor.
Qed.

Lemma within_MustNewConstMetric d vt v lvs :
  within 0 (MustNewConstMetric d vt v lvs).
Proof.
  unfold MustNewConstMetric.
  destruct (prometheus.NewConstMetric d vt v lvs); constructor.
Qed.

Lemma within_fetchClusterHealth (L : Library) (c : ShardCollector) :
  within 1 (fetchClusterHealth L c).
Proof.
  unfold fetchClusterHealth.
  destruct (NewRequest L "GET" _) as [e|req]; [constructor|].
  apply (within_mbind 1 0); [repeat constructor|].
  intros [e|resp]; [constructor|].
  destruct (negb _); [constructor|].
  destruct (json_DecodeHealth L _); constructor.
Qed.

Lemma within_fetchMaxReplicaCount (L : Library) (c : ShardCollector) :
  within 2 (fetchMaxReplicaCount L c).
Proof.
  unfold fetchMaxReplicaCount.
  destruct (NewRequest L "GET" _) as [e|req]; [constructor|].
  apply (within_mbind 1 1); [repeat constructor|].
  intros [e|resp]; [constructor|].
  destruct (negb _); [constructor|].
  destruct (json_DecodeSettings L _); [constructor|].
  apply (within_mbind 1 0); repeat constructor.
Qed.

Lemma within_collectBody (L : Library) (c : ShardCollector) :
  within 9 (collectBody L c).
Proof.
  unfold collectBody.
  apply (within_mbind 1 8); [repeat constructor|]. intros start.
  apply (within_mbind 1 7); [apply within_fetchClusterHealth|]. intros [health err].
  apply (within_mbind 1 6).
  { unfold reportHealth. destruct err as [e|]; [repeat constructor|].
    destruct health as [h|]; [|constructor].
    apply (within_mbind 0 1); [apply within_MustNewConstMetric|].
    intros m. repeat constructor. }
  intros scrapeError.
  apply (within_mbind 2 4); [apply within_fetchMaxReplicaCount|]. intros [replicas err'].
  apply (within_mbind 1 3).
  { unfold reportReplicas. destruct err' as [e|]; [repeat constructor|].
    apply (within_mbind 0 1); [apply within_MustNewConstMetric|].
    intros m. repeat constructor. }
  intros scrapeError'.
  apply (within_mbind 0 3); [apply within_MustNewConstMetric|]. intros m.
  apply (within_mbind 1 2); [repeat constructor|]. intros _.
  apply (within_mbind 1 1); [repeat constructor|]. intros d.
  apply (within_mbind 0 1); [apply within_MustNewConstMetric|]. intros m'.
  repeat constructor.
Qed.

(** A call of [Collect] does at most eleven actions. *)
Lemma within_Collect (L : Library) (c : ShardCollector) : within 11 (Collect L c).
Proof.
  rewrite Collect_pieces.
  apply (within_bind 1 10); [repeat constructor|]. intros _.
  apply (within_defer 9 1); [apply within_collectBody|repeat constructor].
Qed.

Lemma act_within {E : Environment} {A : Type} (n : nat) (p p' : Prog A)
      (m m' : Machine E) (ev : Event) :
  within n p -> act p m = Some (ev, p', m') ->
  exists n', n = S n' /\ within n' p'.
Proof.
  intros Hp Hact. destruct Hp; cbn in Hact; try discriminate.
  - destruct (locked m); [discriminate|]. injection Hact as <- <- <-. eauto.
  - destruct (locked m); [|discriminate]. injection Hact as <- <- <-. eauto.
  - injection Hact as <- <- <-. eauto.
  - destruct (RoundTrip E (world m) c req) as [res w].
    injection Hact as <- <- <-. eauto.
  - injection Hact as <- <- <-. eauto.
  - injection Hact as <- <- <-. eauto.
  - injection Hact as <- <- <-. eauto.
  - injection Hact as <- <- <-. eauto.
Qed.

Lemma sum_list_insert_pred (bounds : list nat) (i n' : nat) :
  bounds !! i = Some (S n') ->
  S (sum_list (<[i := n']> bounds)) = sum_list bounds.
Proof.
  revert i. induction bounds as [|b bounds IH]; intros [|i] Hi; try discriminate.
  - injection Hi as ->. reflexivity.
  - change (S (b + sum_list (<[i := n']> bounds)) = b + sum_list bounds)%nat.
    rewrite <- (IH i Hi). lia.
Qed.

Section Termination.

Variable L : Library.
Variable E : Environment.
Variable c : ShardCollector.

(** The actions done so far and the actions still possible never
    exceed eleven for each goroutine. *)
Lemma budget_reachable (n : nat) (w : World E) (P : Pool E) :
  rtc step (scraping L E c n w) P ->
  exists bounds,
    Forall2 within bounds (goroutines P) /\
    (length (history P) + sum_list bounds = 11 * n)%nat.
Proof.
  revert P. apply rtc_ind_r.
  - exists (replicate n 11%nat). split.
    + cbn [scraping goroutines]. apply Forall2_replicate. apply within_Collect.
    + cbn [scraping history length]. rewrite sum_list_replicate. lia.
  - intros P P' _ Hstep (bounds & Hall & Hsum).
    destruct Hstep as [P i p p' ev m' Hi Hact]. cbn [goroutines history].
    destruct (Forall2_lookup_r _ _ _ _ _ Hall Hi) as (b & Hb & Hwithin).
    destruct (act_within b p p' _ _ ev Hwithin Hact) as (b' & -> & Hwithin').
    exists (<[i := b']> bounds). split.
    + apply Forall2_insert; assumption.
    + rewrite length_app. cbn [length].
      pose proof (sum_list_insert_pred bounds i b' Hb). lia.
Qed.

(** X16. Scrapes end: however [n] goroutines that call [Collect] are
    scheduled, and whatever the upstream answers, a run has at most
    [11 * n] steps, a call of [Collect] doing at most eleven actions;
    so no run goes on for ever. *)
Theorem scrapes_end_within_bound (n : nat) (w : World E) (P : Pool E) :
  rtc step (scraping L E c n w) P ->
  (length (history P) <= 11 * n)%nat.
Proof.
  intros Hreach.
  destruct (budget_reachable n w P Hreach) as (bounds & _ & Hsum). lia.
Qed.

End Termination.

Lemma scrapes_end_within_bound_witness :
  let L := Fixture.library (inr (Fixture.health 0))
                           (inr {["logs" := Fixture.index "1"]}) in
  let E := Fixture.upstream 200 in
  let c := (NewShardCollector (Fixture.cfg "" "")).1 in
  exists P : Pool E,
    rtc step (scraping L E c 2 0) P /\
    history P = [(0%nat, EvLock); (0%nat, EvNow 1)] /\
    (length (history P) <= 11 * 2)%nat.
Proof.
  intros L E c.
  eexists. split; [|split].
  - eapply rtc_l; [eapply (step_goroutine _ 0%nat); reflexivity|].
    eapply rtc_l; [eapply (step_goroutine _ 0%nat); reflexivity|].
    apply rtc_refl.
  - reflexivity.
  - apply (scrapes_end_within_bound L E c 2 0).
    eapply rtc_l; [eapply (step_goroutine _ 0%nat); reflexivity|].
    eapply rtc_l; [eapply (step_goroutine _ 0%nat); reflexivity|].
    apply rtc_refl.
Defined.

(** ** Concurrent scrapes are scrapes one after the other *)

Section Serializable.

Variable L : Library.
Variable E : Environment.
Variable c : ShardCollector.

Lemma exec_atRest (p : Prog unit) (m : Machine E) :
  atRest p -> traceOf (exec E p m) = [] /\ machineOf (exec E p m) = m.
Proof. destruct p; cbn; intros Hp; try contradiction; split; reflexivity. Qed.

Lemma after_parts {A : Type} (ev : Event) (r : Run E A) :
  traceOf (after ev r) = ev :: traceOf r /\ machineOf (after ev r) = machineOf r.
Proof. destruct r as [[tr o] m]. split; reflexivity. Qed.

Lemma serialized_step (w : World E) (P P' : Pool E) :
  invariant L E c P -> serialized L E c w P -> step P P' -> serialized L E c w P'.
Proof.
  intros (holder & Hrun & Hlocked & Hthere & Hok) HJ Hstep.
  unfold serialized in HJ. rewrite Hrun in HJ.
  destruct Hstep as [P j p p' ev m' Hj Hact].
  unfold serialized. cbn [history shared goroutines].
  rewrite (serialRun_snoc _ _ _ Hrun).
  assert (Hlookup : forall q, <[j := q]> (goroutines P) !! j = Some q).
  { intros q. apply list_lookup_insert_eq. apply lookup_lt_is_Some. eauto. }
  pose proof (Hok j p Hj) as Hp. unfold goroutineOK in Hp.
  destruct holder as [i|]; cbn [held] in Hlocked.
  - (* the mutex is held: the holder goes on *)
    destruct (decide (Some i = Some j)) as [[= <-]|Hne].
    2: { exfalso. destruct Hp as [->|Hrest].
         - destruct (Collect_shape L c) as (k & Hk & _). rewrite Hk in Hact.
           cbn in Hact. rewrite Hlocked in Hact. discriminate.
         - rewrite act_atRest in Hact by exact Hrest. discriminate. }
    destruct HJ as (h0 & w0 & prefix & q & Hq & Hhist & Hser & Htr & Hm).
    rewrite Hj in Hq. injection Hq as <-.
    rewrite (exec_act E) in Htr, Hm. rewrite Hact in Htr, Hm.
    destruct (after_parts ev (exec E p' m')) as [Htr' Hm'].
    rewrite Htr' in Htr. rewrite Hm' in Hm.
    destruct (act_inCritical E p (shared P) Hp Hlocked)
      as (ev0 & p0 & m0 & Hact0 & HnoLock & Hcase).
    rewrite Hact in Hact0. injection Hact0 as <- <- <-.
    cbn [serialStep]. rewrite Nat.eqb_refl. cbn [negb].
    destruct Hcase as [(-> & Hrest & _)|(HnoUnlock & _ & _)].
    + destruct (exec_atRest p' m' Hrest) as [Hnil Hsame].
      rewrite Hnil in Htr. rewrite Hsame in Hm.
      rewrite Hhist, <- app_assoc.
      change [(i, EvUnlock)] with (doneBy i [EvUnlock]).
      unfold doneBy. rewrite <- fmap_app, Htr, Hm.
      apply serial_snoc. exact Hser.
    + assert (Hgo : underway L E c w
                      {| goroutines := <[i := p']> (goroutines P);
                         shared := m';
                         history := history P ++ [(i, ev)] |} i).
      { exists h0, w0, (prefix ++ [ev]), p'. cbn [history shared goroutines].
        split; [apply Hlookup|]. split.
        { rewrite Hhist, <- app_assoc. unfold doneBy. rewrite fmap_app. reflexivity. }
        split; [exact Hser|]. split; [rewrite <- app_assoc; exact Htr|exact Hm]. }
      destruct ev; try exact Hgo; contradiction.
  - (* the mutex is free: a goroutine that has not started takes it *)
    destruct Hp as [->|Hrest]; [|rewrite act_atRest in Hact by exact Hrest; discriminate].
    destruct (Collect_shape L c) as (k & Hk & _).
    assert (Halone : alone L E c (world (shared P))
                     = after EvLock (exec E k (Build_Machine (world (shared P)) true))).
    { unfold alone. rewrite Hk. reflexivity. }
    rewrite Hk in Hact. cbn in Hact. rewrite Hlocked in Hact.
    injection Hact as <- <- <-. cbn [serialStep].
    exists (history P), (world (shared P)), [EvLock], k. cbn [history shared goroutines].
    split; [apply Hlookup|]. split; [reflexivity|]. split; [exact HJ|].
    rewrite Halone.
    destruct (after_parts EvLock (exec E k (Build_Machine (world (shared P)) true)))
      as [-> ->].
    split; reflexivity.
Qed.

Lemma serialized_reachable (n : nat) (w : World E) (P : Pool E) :
  rtc step (scraping L E c n w) P -> serialized L E c w P.
Proof.
  revert P. apply rtc_ind_r.
  - apply serial_nil.
  - intros P P' Hreach Hstep IH.
    exact (serialized_step w P P' (invariant_reachable L E c n w P Hreach) IH Hstep).
Qed.

(** X17. Concurrent scrapes are serializable.  Whenever the mutex is free,
    in particular when all goroutines have finished, what has happened
    so far is a sequence of whole calls of [Collect]: each was done by
    one goroutine without interruption, and is exactly (same events,
    same effect on the world) what that call does alone in the world
    the call before it left. *)
Theorem scrapes_are_serializable (n : nat) (w : World E) (P : Pool E) :
  rtc step (scraping L E c n w) P ->
  locked (shared P) = false ->
  serial L E c w (history P) (world (shared P)).
Proof.
  intros Hreach Hfree.
  pose proof (serialized_reachable n w P Hreach) as HJ.
  destruct (invariant_reachable L E c n w P Hreach) as (holder & Hrun & Hlocked & _).
  unfold serialized in HJ. rewrite Hrun in HJ.
  destruct holder as [i|]; [cbn in Hlocked; congruence|exact HJ].
Qed.

End Serializable.

Section RunAlone.

Variable E : Environment.

(** One action of goroutine [i], then the rest of its program. *)
Lemma run_action (P : Pool E) (i : nat) (p p' : Prog unit) (ev : Event)
      (m' : Machine E) :
  goroutines P !! i = Some p ->
  act p (shared P) = Some (ev, p', m') ->
  ends (outcomeOf (exec E p (shared P))) ->
  (forall P1 : Pool E,
      goroutines P1 !! i = Some p' ->
      ends (outcomeOf (exec E p' (shared P1))) ->
      exists q, atRest q /\ rtc step P1 (ranAlone E P1 i p' q)) ->
  exists q, atRest q /\ rtc step P (ranAlone E P i p q).
Proof.
  intros Hi Hact Hends IH.
  set (P1 := {| goroutines := <[i := p']> (goroutines P);
                shared := m';
                history := history P ++ [(i, ev)] |}).
  assert (Hi1 : goroutines P1 !! i = Some p')
    by (apply list_lookup_insert_eq, lookup_lt_is_Some; eauto).
  assert (Hstep : step P P1) by exact (step_goroutine P i p p' ev m' Hi Hact).
  assert (Hsame : forall q, ranAlone E P1 i p' q = ranAlone E P i p q).
  { intros q. unfold ranAlone. subst P1. cbn [goroutines shared history].
    rewrite (exec_act E p (shared P)), Hact.
    destruct (exec E p' m') as [[tr o] m'']. cbn [after traceOf machineOf fst snd].
    rewrite list_insert_insert_eq, <- app_assoc. reflexivity. }
  rewrite (exec_act E p (shared P)), Hact in Hends.
  assert (Hends1 : ends (outcomeOf (exec E p' (shared P1)))).
  { subst P1. cbn [shared]. destruct (exec E p' m') as [[tr o] m'']. exact Hends. }
  destruct (IH P1 Hi1 Hends1) as (q & Hq & Hrun).
  exists q. split; [exact Hq|]. rewrite <- Hsame. eapply rtc_l; eassumption.
Qed.

(** A goroutine whose program, run from the present state, returns or
    panics can do the whole of it, one action after the other, without
    any other goroutine moving. *)
Lemma run_to_end (p : Prog unit) (P : Pool E) (i : nat) :
  goroutines P !! i = Some p ->
  ends (outcomeOf (exec E p (shared P))) ->
  exists q, atRest q /\ rtc step P (ranAlone E P i p q).
Proof.
  revert P.
  induction p as [a|v|k IH|k IH|k IH|c0 req k IH|msg k IH|x k IH|d k IH|s k IH];
    intros P Hi Hends.
  - exists (Ret a). split; [exact I|]. unfold ranAlone, doneBy.
    cbn [exec traceOf machineOf fst snd fmap list_fmap].
    rewrite app_nil_r, list_insert_id by exact Hi. destruct P. apply rtc_refl.
  - exists (Panic v). split; [exact I|]. unfold ranAlone, doneBy.
    cbn [exec traceOf machineOf fst snd fmap list_fmap].
    rewrite app_nil_r, list_insert_id by exact Hi. destruct P. apply rtc_refl.
  - destruct (locked (shared P)) eqn:Hl.
    { cbn [exec] in Hends. rewrite Hl in Hends. contradiction. }
    eapply (run_action P i (MutexLock k)); [exact Hi| |exact Hends|exact IH].
    cbn [act]. rewrite Hl. reflexivity.
  - destruct (locked (shared P)) eqn:Hl.
    2: { cbn [exec] in Hends. rewrite Hl in Hends. contradiction. }
    eapply (run_action P i (MutexUnlock k)); [exact Hi| |exact Hends|exact IH].
    cbn [act]. rewrite Hl. reflexivity.
  - eapply (run_action P i (TimeNow k)); [exact Hi|reflexivity|exact Hends|apply IH].
  - destruct (RoundTrip E (world (shared P)) c0 req) as [res w1] eqn:HRT.
    eapply (run_action P i (ClientDo c0 req k)); [exact Hi| |exact Hends|apply IH].
    cbn [act]. rewrite HRT. reflexivity.
  - eapply (run_action P i (LogPrintf msg k)); [exact Hi|reflexivity|exact Hends|exact IH].
  - eapply (run_action P i (SendMetric x k)); [exact Hi|reflexivity|exact Hends|exact IH].
  - eapply (run_action P i (SendDesc d k)); [exact Hi|reflexivity|exact Hends|exact IH].
  - eapply (run_action P i (MapRange s k)); [exact Hi|reflexivity|exact Hends|apply IH].
Qed.

End RunAlone.

(** Of two goroutines the second has done its whole scrape. *)
Lemma scrapes_are_serializable_witness :
  let L := Fixture.library (inr (Fixture.health 0))
                           (inr {["logs" := Fixture.index "1"]}) in
  let E := Fixture.upstream 200 in
  let c := (NewShardCollector (Fixture.cfg "" "")).1 in
  exists P : Pool E,
    rtc step (scraping L E c 2 0) P /\
    locked (shared P) = false /\
    history P = doneBy 1 (traceOf (cycle L E (Fixture.cfg "" "") 0)) /\
    length (history P) = 11%nat /\
    serial L E c 0 (history P) (world (shared P)).
Proof.
  intros L E c.
  destruct (run_to_end E (Collect L c) (scraping L E c 2 0) 1 eq_refl)
    as (q & _ & Hreach); [vm_compute; exact I|].
  exists (ranAlone E (scraping L E c 2 0) 1 (Collect L c) q).
  assert (Hfree : locked (shared (ranAlone E (scraping L E c 2 0) 1 (Collect L c) q)) = false)
    by (vm_compute; reflexivity).
  split; [exact Hreach|]. split; [exact Hfree|]. split; [reflexivity|].
  split; [vm_compute; reflexivity|].
  exact (scrapes_are_serializable L E c 2 0 _ Hreach Hfree).
Defined.

(** ** The command line *)

Section FlagFacts.

Context {T : Type}.

(** A flag seen takes at least one argument away, and leaves the
    defined flags as they are. *)
Lemma parseOne_seen (f f' : flag.FlagSet T) (err : option flag.Error) :
  flag.parseOne f = (true, err, f') ->
  (length (flag.args f') < length (flag.args f))%nat /\
  flag.formal f' = flag.formal f /\
  err = None.
Proof.
  unfold flag.parseOne.
  destruct (flag.args f) as [|s rest] eqn:Hargs; [discriminate|].
  destruct (_ || _); [discriminate|].
  destruct (_ && _); [discriminate|].
  destruct (_ || _); [discriminate|].
  destruct (match flag.indexEquals _ 1 with Some _ => _ | None => _ end)
    as [[name hasValue] value].
  cbn [flag.formal flag.setArgs].
  destruct (flag.formal f !! name) as [fl|]; [|destruct (_ || _); discriminate].
  destruct (flag.isBoolFlag (flag.FlagValue fl)).
  - destruct hasValue.
    + destruct (flag.Set_ _ _ _) as [x [|]]; [|discriminate].
      intros [= <- <-]. cbn. repeat split. lia.
    + destruct (flag.Set_ _ _ _) as [x [|]]; [|discriminate].
      intros [= <- <-]. cbn. repeat split. lia.
  - cbn [flag.args flag.setArgs].
    destruct hasValue.
    + cbn [negb]. destruct (flag.Set_ _ _ _) as [x [|]]; [|discriminate].
      intros [= <- <-]. cbn. repeat split. lia.
    + destruct rest as [|next rest']; cbn [negb]; [discriminate|].
      destruct (flag.Set_ _ _ _) as [x [|]]; [|discriminate].
      intros [= <- <-]. cbn. repeat split. lia.
Qed.

Lemma parseLoop_stop (n : nat) (f f' : flag.FlagSet T) (err : option flag.Error) :
  flag.parseOne f = (false, err, f') -> flag.parseLoop n f = (err, f').
Proof. intros H1. destruct n; cbn [flag.parseLoop]; rewrite H1; reflexivity. Qed.

(** More rounds than there are arguments change nothing. *)
Lemma parseLoop_rounds (n : nat) (f : flag.FlagSet T) :
  (length (flag.args f) <= n)%nat -> flag.parseLoop n f = flag.parseFrom f.
Proof.
  unfold flag.parseFrom.
  remember (length (flag.args f)) as k eqn:Hk.
  revert n f Hk. induction (lt_wf k) as [k _ IH]. intros n f Hk Hn.
  destruct (flag.parseOne f) as [[seen err] f'] eqn:H1.
  destruct seen; [|rewrite !(parseLoop_stop _ _ _ _ H1); reflexivity].
  destruct (parseOne_seen f f' err H1) as (Hlt & _ & _).
  destruct n as [|n]; [lia|]. destruct k as [|k]; [lia|].
  cbn [flag.parseLoop]. rewrite H1.
  rewrite (IH (length (flag.args f')) ltac:(lia) n f' eq_refl ltac:(lia)).
  rewrite (IH (length (flag.args f')) ltac:(lia) k f' eq_refl ltac:(lia)).
  reflexivity.
Qed.

(** The loop of [Parse], as the code has it: after a flag seen it goes
    on, otherwise it ends with the error of [parseOne]. *)
Lemma parseFrom_seen (f f' : flag.FlagSet T) (err : option flag.Error) :
  flag.parseOne f = (true, err, f') -> flag.parseFrom f = flag.parseFrom f'.
Proof.
  intros H1. destruct (parseOne_seen f f' err H1) as (Hlt & _ & _).
  unfold flag.parseFrom at 1.
  destruct (length (flag.args f)) as [|k] eqn:Hk; [lia|].
  cbn [flag.parseLoop]. rewrite H1. apply parseLoop_rounds. lia.
Qed.

Lemma parseFrom_stop (f f' : flag.FlagSet T) (err : option flag.Error) :
  flag.parseOne f = (false, err, f') -> flag.parseFrom f = (err, f').
Proof. apply parseLoop_stop. Qed.

Lemma parseFrom_formal (f : flag.FlagSet T) :
  flag.formal (flag.parseFrom f).2 = flag.formal f.
Proof.
  remember (length (flag.args f)) as k eqn:Hk.
  revert f Hk. induction (lt_wf k) as [k _ IH]. intros f Hk.
  destruct (flag.parseOne f) as [[seen err] f'] eqn:H1.
  destruct seen.
  - destruct (parseOne_seen f f' err H1) as (Hlt & Hformal & _).
    rewrite (parseFrom_seen f f' err H1), <- Hformal.
    apply (IH (length (flag.args f'))); [lia|reflexivity].
  - rewrite (parseFrom_stop f f' err H1). cbn [snd].
    revert H1. unfold flag.parseOne.
    destruct (flag.args f) as [|s rest]; [intros [= _ <-]; reflexivity|].
    destruct (_ || _); [intros [= _ <-]; reflexivity|].
    destruct (_ && _); [intros [= _ <-]; reflexivity|].
    destruct (_ || _); [intros [= _ <-]; reflexivity|].
    destruct (match flag.indexEquals _ 1 with Some _ => _ | None => _ end)
      as [[name hasValue] value].
    cbn [flag.formal flag.setArgs].
    destruct (flag.formal f !! name) as [fl|];
      [|destruct (_ || _); intros [= _ <-]; reflexivity].
    destruct (flag.isBoolFlag (flag.FlagValue fl)).
    + destruct hasValue; destruct (flag.Set_ _ _ _) as [x [|]];
        intros [= _ <-]; reflexivity.
    + cbn [flag.args flag.setArgs].
      destruct hasValue; [|destruct rest as [|next rest']]; cbn [negb];
        try (intros [= _ <-]; reflexivity);
        destruct (flag.Set_ _ _ _) as [x [|]]; intros [= _ <-]; reflexivity.
Qed.

End FlagFacts.

Lemma commandLine_stringFlags (name : string) (p : string -> main.Config -> main.Config) :
  (name, p) ∈ main.stringFlags ->
  exists usage def,
    flag.formal main.commandLine !! name
    = Some (flag.Build_Flag name usage (flag.stringValue p) def).
Proof.
  unfold main.stringFlags. intros Hin.
  repeat (apply elem_of_cons in Hin as [[= -> ->]|Hin];
          [eexists _, _; vm_compute; reflexivity|]).
  inversion Hin.
Qed.

Lemma commandLine_boolFlags (name : string) (p : bool -> main.Config -> main.Config) :
  (name, p) ∈ main.boolFlags ->
  exists usage def,
    flag.formal main.commandLine !! name
    = Some (flag.Build_Flag name usage (flag.boolValue p) def).
Proof.
  unfold main.boolFlags. intros Hin.
  repeat (apply elem_of_cons in Hin as [[= -> ->]|Hin];
          [eexists _, _; vm_compute; reflexivity|]).
  inversion Hin.
Qed.

Section CommandLine.

Variable f : flag.FlagSet main.Config.
Hypothesis Hformal : flag.formal f = flag.formal main.commandLine.

(** X18. A string flag of [main.go] may be written [-name=value],
    [--name=value], [-name value] or [--name value].  Each form stores
    the value in the field the flag is bound to and takes exactly these
    arguments; the parse then goes on with the rest.  The value is any
    string: in the last two forms also one that looks like a flag. *)
Theorem string_flag_forms (name : string) (p : string -> main.Config -> main.Config)
        (v : string) (rest : list string) :
  (name, p) ∈ main.stringFlags ->
  exists fl,
    flag.formal f !! name = Some fl /\
    Forall (fun form =>
              flag.parseFrom (flag.setArgs f (form ++ rest))
              = flag.parseFrom (flag.stored (flag.setArgs f rest) name fl
                                            (p v (flag.vars f))))
           [ ["-" +:+ name +:+ "=" +:+ v]; ["--" +:+ name +:+ "=" +:+ v];
             ["-" +:+ name; v]; ["--" +:+ name; v] ].
Proof.
  intros Hin.
  destruct (commandLine_stringFlags name p Hin) as (usage & def & Hlookup).
  eexists. split; [rewrite Hformal; exact Hlookup|].
  unfold main.stringFlags in Hin.
  repeat (apply elem_of_cons in Hin as [[= -> ->]|Hin];
          [repeat (apply Forall_cons; split;
                   [eapply parseFrom_seen; unfold flag.parseOne;
                    cbv beta iota delta [String.append]; cbn -[lookup]; rewrite Hformal, Hlookup; reflexivity|]);
           apply Forall_nil; exact I|]).
  inversion Hin.
Qed.

(** X19. A boolean flag of [main.go] takes no argument: [-name] and [--name]
    store [true] and leave the next argument where it is, so that
    [--ssl-enable false] turns the flag on (and ends the flags at
    [false]).  Only [-name=value] gives a value, which must be one of
    the texts [strconv.ParseBool] accepts; any other is an error. *)
Theorem bool_flag_takes_no_argument (name : string)
        (p : bool -> main.Config -> main.Config) (v : string) (rest : list string) :
  (name, p) ∈ main.boolFlags ->
  exists fl,
    flag.formal f !! name = Some fl /\
    Forall (fun form =>
              flag.parseFrom (flag.setArgs f (form :: rest))
              = flag.parseFrom (flag.stored (flag.setArgs f rest) name fl
                                            (p true (flag.vars f))))
           ["-" +:+ name; "--" +:+ name] /\
    Forall (fun form =>
              flag.parseFrom (flag.setArgs f (form :: rest))
              = match flag.ParseBool v with
                | Some b => flag.parseFrom (flag.stored (flag.setArgs f rest) name fl
                                                        (p b (flag.vars f)))
                | None => (Some (flag.errInvalidBoolValue v name),
                           flag.failed (flag.setArgs f rest) (p false (flag.vars f)))
                end)
           ["-" +:+ name +:+ "=" +:+ v; "--" +:+ name +:+ "=" +:+ v] /\
    (flag.parseFrom (flag.setArgs f (("--" +:+ name) :: "false" :: rest))).1 = None /\
    flag.args (flag.parseFrom (flag.setArgs f (("--" +:+ name) :: "false" :: rest))).2
    = "false" :: rest /\
    flag.vars (flag.parseFrom (flag.setArgs f (("--" +:+ name) :: "false" :: rest))).2
    = p true (flag.vars f).
Proof.
  intros Hin.
  destruct (commandLine_boolFlags name p Hin) as (usage & def & Hlookup).
  eexists. split; [rewrite Hformal; exact Hlookup|].
  unfold main.boolFlags in Hin.
  repeat (apply elem_of_cons in Hin as [[= -> ->]|Hin];
          [split; [|split];
           [repeat (apply Forall_cons; split;
                    [eapply parseFrom_seen; unfold flag.parseOne; cbv beta iota delta [String.append];
                     cbn -[lookup]; rewrite Hformal, Hlookup; reflexivity|]);
            apply Forall_nil; exact I
           |repeat (apply Forall_cons; split;
                    [destruct (flag.ParseBool v) as [b|] eqn:Hv;
                     [eapply parseFrom_seen|eapply parseFrom_stop];
                     unfold flag.parseOne; cbv beta iota delta [String.append];
                     cbn -[lookup]; rewrite Hformal, Hlookup; cbn; rewrite Hv; reflexivity|]);
            apply Forall_nil; exact I
           |erewrite parseFrom_seen
              by (unfold flag.parseOne; cbv beta iota delta [String.append]; cbn -[lookup]; rewrite Hformal, Hlookup; reflexivity);
            erewrite parseFrom_stop by reflexivity;
            repeat split]|]).
  inversion Hin.
Qed.

(** X20. The flags end at the first argument that is not one (the empty
    string, a lone dash, anything that does not start with a dash) and
    at [--]: what follows is left unread, flags included. *)
Theorem flags_end_at_first_operand (a : string) (rest : list string) :
  (main.isOperand a ->
   flag.parseFrom (flag.setArgs f (a :: rest)) = (None, flag.setArgs f (a :: rest))) /\
  flag.parseFrom (flag.setArgs f ("--" :: rest)) = (None, flag.setArgs f rest).
Proof.
  split; [|apply parseFrom_stop; reflexivity].
  intros [->|[->|(c & t & -> & Hc)]]; apply parseFrom_stop; try reflexivity.
  unfold flag.parseOne. cbn [flag.args flag.setArgs].
  replace (Ascii.eqb (flag.byteAt (String c t) 0) "-") with false.
  - rewrite orb_true_r. reflexivity.
  - symmetry. apply Ascii.eqb_neq. exact Hc.
Qed.

End CommandLine.

Lemma string_flag_forms_witness :
  ("es-url", main.atESUrl) ∈ main.stringFlags /\
  flag.vars (flag.Parse main.commandLine ["--es-user"; "--es-url"; "-es-url=http://es:9200"]).2
  = main.atESUrl "http://es:9200" (main.atESUser "--es-url" (flag.vars main.commandLine)) /\
  exists fl,
    flag.formal main.commandLine !! "es-url" = Some fl /\
    Forall (fun form =>
              flag.parseFrom (flag.setArgs main.commandLine (form ++ ["rest"]))
              = flag.parseFrom (flag.stored (flag.setArgs main.commandLine ["rest"])
                                            "es-url" fl
                                            (main.atESUrl "x" (flag.vars main.commandLine))))
           [ ["-" +:+ "es-url" +:+ "=" +:+ "x"]; ["--" +:+ "es-url" +:+ "=" +:+ "x"];
             ["-" +:+ "es-url"; "x"]; ["--" +:+ "es-url"; "x"] ].
Proof.
  assert (Hin : ("es-url", main.atESUrl) ∈ main.stringFlags)
    by (unfold main.stringFlags; do 2 right; left).
  split; [exact Hin|]. split; [vm_compute; reflexivity|].
  exact (string_flag_forms main.commandLine eq_refl "es-url" main.atESUrl "x" ["rest"] Hin).
Defined.

Lemma bool_flag_takes_no_argument_witness :
  ("ssl-enable", main.atSSLEnable) ∈ main.boolFlags /\
  flag.vars (flag.Parse main.commandLine ["--ssl-enable"; "false"; "--es-url=x"]).2
  = main.atSSLEnable true (flag.vars main.commandLine) /\
  flag.args (flag.Parse main.commandLine ["--ssl-enable"; "false"; "--es-url=x"]).2
  = ["false"; "--es-url=x"].
Proof.
  assert (Hin : ("ssl-enable", main.atSSLEnable) ∈ main.boolFlags)
    by (unfold main.boolFlags; left).
  split; [exact Hin|].
  destruct (bool_flag_takes_no_argument main.commandLine eq_refl "ssl-enable"
                                        main.atSSLEnable "" ["--es-url=x"] Hin)
    as (fl & _ & _ & _ & _ & Hargs & Hvars).
  split; [exact Hvars|exact Hargs].
Defined.

Lemma flags_end_at_first_operand_witness :
  main.isOperand "serve" /\
  flag.Parse main.commandLine ["serve"; "--es-url=x"]
  = (None, flag.setArgs main.commandLine ["serve"; "--es-url=x"]) /\
  flag.Parse main.commandLine ["--"; "--es-url=x"]
  = (None, flag.setArgs main.commandLine ["--es-url=x"]).
Proof.
  assert (Hop : main.isOperand "serve").
  { right; right. eexists _, _. split; [reflexivity|discriminate]. }
  split; [exact Hop|].
  destruct (flags_end_at_first_operand main.commandLine "serve" ["--es-url=x"])
    as [Hstop Hdashes].
  split; [exact (Hstop Hop)|].
  exact (proj2 (flags_end_at_first_operand main.commandLine "x" ["--es-url=x"])).
Defined.

(** ** A flag given twice *)

Section Repeated.

Variable f : flag.FlagSet main.Config.
Hypothesis Hformal : flag.formal f = flag.formal main.commandLine.

(** X21. When a string flag of [main.go] is given twice (written
    [--name=value] both times), the later value is the one that stays:
    the command line is read as if the earlier occurrence were not
    there. *)
Theorem later_flag_wins (name : string) (p : string -> main.Config -> main.Config)
        (a b : string) (rest : list string) :
  (name, p) ∈ main.stringFlags ->
  flag.parseFrom (flag.setArgs f (("--" +:+ name +:+ "=" +:+ a)
                                    :: ("--" +:+ name +:+ "=" +:+ b) :: rest))
  = flag.parseFrom (flag.setArgs f (("--" +:+ name +:+ "=" +:+ b) :: rest)).
Proof.
  intros Hin.
  destruct (commandLine_stringFlags name p Hin) as (usage & def & Hlookup).
  set (fl := flag.Build_Flag name usage (flag.stringValue p) def) in *.
  assert (Hone : forall (g : flag.FlagSet main.Config) (v : string) (l : list string),
             flag.formal g = flag.formal main.commandLine ->
             flag.parseOne (flag.setArgs g (("--" +:+ name +:+ "=" +:+ v) :: l))
             = (true, None, flag.stored (flag.setArgs g l) name fl (p v (flag.vars g)))).
  { intros g v l Hg. subst fl. unfold main.stringFlags in Hin.
    repeat (apply elem_of_cons in Hin as [[= -> ->]|Hin];
            [unfold flag.parseOne; cbv beta iota delta [String.append];
             cbn -[lookup]; rewrite Hg, Hlookup; reflexivity|]).
    inversion Hin. }
  rewrite (parseFrom_seen _ _ _ (Hone f a _ Hformal)).
  change (flag.stored (flag.setArgs f (("--" +:+ name +:+ "=" +:+ b) :: rest)) name fl
                      (p a (flag.vars f)))
    with (flag.setArgs (flag.stored f name fl (p a (flag.vars f)))
                       (("--" +:+ name +:+ "=" +:+ b) :: rest)).
  rewrite (parseFrom_seen _ _ _ (Hone (flag.stored f name fl (p a (flag.vars f))) b rest
                                      Hformal)).
  rewrite (parseFrom_seen _ _ _ (Hone f b rest Hformal)).
  f_equal. unfold flag.stored, flag.setArgs.
  cbn [flag.formal flag.actual flag.args flag.vars].
  rewrite insert_insert_eq. f_equal.
  unfold main.stringFlags in Hin.
  repeat (apply elem_of_cons in Hin as [[= _ ->]|Hin]; [reflexivity|]).
  inversion Hin.
Qed.

End Repeated.

Lemma later_flag_wins_witness :
  ("es-url", main.atESUrl) ∈ main.stringFlags /\
  flag.Parse main.commandLine ["--es-url=http://old:9200"; "--es-url=http://new:9200"]
  = flag.Parse main.commandLine ["--es-url=http://new:9200"] /\
  main.ESUrl (flag.vars (flag.Parse main.commandLine
                                    ["--es-url=http://old:9200";
                                     "--es-url=http://new:9200"]).2)
  = "http://new:9200".
Proof.
  assert (Hin : ("es-url", main.atESUrl) ∈ main.stringFlags)
    by (unfold main.stringFlags; do 2 right; left).
  split; [exact Hin|].
  split; [|vm_compute; reflexivity].
  exact (later_flag_wins main.commandLine eq_refl "es-url" main.atESUrl
                         "http://old:9200" "http://new:9200" [] Hin).
Defined.

(** ** The process *)

Lemma handledPatterns_app (evs1 evs2 : list main.Effect) :
  main.handledPatterns (evs1 ++ evs2)
  = main.handledPatterns evs1 ++ main.handledPatterns evs2.
Proof. apply omap_app. Qed.

(** Sequencing in [main]: the second part runs when the first returns,
    with the patterns the first part registered. *)
Lemma run_bind {A B : Type} (H : main.Host) (patterns : list string)
      (p : main.Proc A) (k : A -> main.Proc B) :
  main.run H patterns (main.bind p k) =
  match main.run H patterns p with
  | (evs, main.Returned a) =>
    let r := main.run H (patterns ++ main.handledPatterns evs) (k a) in
    (evs ++ r.1, r.2)
  | (evs, main.Exited code) => (evs, main.Exited code)
  | (evs, main.Panicked v) => (evs, main.Panicked v)
  | (evs, main.Serving) => (evs, main.Serving)
  end.
Proof.
  revert patterns.
  induction p as [a|code|k' IH|key k' IH|text k' IH|e k' IH|msg k' IH|c k' IH
                  |pattern h k' IH|addr k' IH]; intros patterns; cbn [main.bind main.run].
  - cbn. rewrite app_nil_r. destruct (main.run H patterns (k a)). reflexivity.
  - reflexivity.
  - apply IH.
  - apply IH.
  - rewrite IH. destruct (main.run H patterns k') as [evs [a|code|v|]]; reflexivity.
  - rewrite IH. destruct (main.run H patterns k') as [evs [a|code|v|]]; reflexivity.
  - rewrite IH. destruct (main.run H patterns k') as [evs [a|code|v|]]; reflexivity.
  - destruct (main.registerPanic H c); [reflexivity|].
    rewrite IH. destruct (main.run H patterns k') as [evs [a|code|v|]]; reflexivity.
  - destruct (main.handlePanic H patterns pattern); [reflexivity|].
    rewrite IH.
    destruct (main.run H (patterns ++ [pattern]) k') as [evs [a|code|v|]];
      try reflexivity.
    cbn [main.andAfter fst snd main.handledPatterns omap].
    fold (main.handledPatterns evs). rewrite <- app_assoc. reflexivity.
  - destruct (main.served H addr) as [r|]; [|reflexivity].
    rewrite IH. destruct (main.run H patterns (k' r)) as [evs [a|code|v|]]; reflexivity.
Qed.

Section Process.

Variable H : main.Host.

(** What [parseFlags] does once the command line is read: with an
    error of [flag.Parse] the process writes the failure and exits (0
    for the help, 2 otherwise) before the environment is read; without,
    the three [ES_] variables are read and each one that is not empty
    replaces the value of its flag. *)
Lemma parseFlags_run :
  main.run H [] main.parseFlags =
  match flag.Parse main.commandLine (main.commandLineArgs H) with
  | (None, f) =>
    let config := flag.vars f in
    let config := if nonEmpty (main.lookupEnv H "ES_URL")
                  then main.atESUrl (main.lookupEnv H "ES_URL") config else config in
    let config := if nonEmpty (main.lookupEnv H "ES_USER")
                  then main.atESUser (main.lookupEnv H "ES_USER") config else config in
    let config := if nonEmpty (main.lookupEnv H "ES_PASS")
                  then main.atESPass (main.lookupEnv H "ES_PASS") config else config in
    ([], main.Returned config)
  | (Some e, _) =>
    ([main.FlagFailed e],
     main.Exited (match e with flag.ErrHelp => 0 | _ => 2 end))
  end.
Proof.
  unfold main.parseFlags, main.flagParse.
  cbn [mbind main.Proc_bind main.bind main.osArgs main.run].
  destruct (flag.Parse main.commandLine (main.commandLineArgs H)) as [[e|] f];
    [destruct e; reflexivity|reflexivity].
Qed.

(** X22. The environment wins over the command line.  When the flags parse,
    [parseFlags] returns a configuration whose URL, user and password
    are the values of [ES_URL], [ES_USER] and [ES_PASS] where these are
    set and not empty, and the values of the flags otherwise; a variable
    that is unset or empty leaves the flag alone.  The other five
    settings come from the flags only. *)
Theorem environment_overrides_flags (f : flag.FlagSet main.Config) :
  flag.Parse main.commandLine (main.commandLineArgs H) = (None, f) ->
  let env := main.lookupEnv H in
  let pick (var flagValue : string) := if nonEmpty (env var) then env var else flagValue in
  exists config,
    main.run H [] main.parseFlags = ([], main.Returned config) /\
    main.ESUrl config = pick "ES_URL" (main.ESUrl (flag.vars f)) /\
    main.ESUser config = pick "ES_USER" (main.ESUser (flag.vars f)) /\
    main.ESPass config = pick "ES_PASS" (main.ESPass (flag.vars f)) /\
    main.ListenAddr config = main.ListenAddr (flag.vars f) /\
    main.MetricsPath config = main.MetricsPath (flag.vars f) /\
    main.SSLEnable config = main.SSLEnable (flag.vars f) /\
    main.SSLSkipVerify config = main.SSLSkipVerify (flag.vars f) /\
    main.ShowVersion config = main.ShowVersion (flag.vars f).
Proof.
  intros Hparse env pick. rewrite parseFlags_run, Hparse. cbv zeta.
  eexists. split; [reflexivity|]. subst pick env. cbv beta.
  destruct (nonEmpty (main.lookupEnv H "ES_URL")),
           (nonEmpty (main.lookupEnv H "ES_USER")),
           (nonEmpty (main.lookupEnv H "ES_PASS")); repeat split.
Qed.

(** X23. A command line [flag.Parse] refuses stops the process at once: the
    failure is written, the exit status is 0 for the help and 2 for
    every other error, and nothing else happens (no collector, no
    handler, no log line, no listener).  The help is what [-h], [--h],
    [-help] and [--help] ask for, none of them being a flag of
    [main.go]. *)
Theorem bad_command_line_exits (b : main.Build) :
  (forall (e : flag.Error) (f : flag.FlagSet main.Config),
      flag.Parse main.commandLine (main.commandLineArgs H) = (Some e, f) ->
      main.run H [] (main.main b)
      = ([main.FlagFailed e],
         main.Exited (match e with flag.ErrHelp => 0 | _ => 2 end))) /\
  (forall rest : list string,
      Forall (fun help =>
                (flag.Parse main.commandLine (help :: rest)).1 = Some flag.ErrHelp)
             ["-h"; "--h"; "-help"; "--help"]).
Proof.
  split.
  - intros e f Hparse. unfold main.main.
    change (main.run H [] (main.parseFlags ≫= ?k))
      with (main.run H [] (main.bind main.parseFlags k)).
    rewrite run_bind, parseFlags_run, Hparse. reflexivity.
  - intros rest.
    repeat (apply Forall_cons; split;
            [unfold flag.Parse;
             rewrite (parseFrom_stop _ (flag.setArgs main.commandLine rest)
                                     (Some flag.ErrHelp)) by reflexivity;
             reflexivity|]).
    apply Forall_nil; exact I.
Qed.

(** X24. [-version] comes first: when the flags ask for the version, the
    process prints it and exits with status 0, whether an Elasticsearch
    URL is configured or not, and starts nothing. *)
Theorem version_exits_before_validation (b : main.Build) (config : main.Config) :
  main.run H [] main.parseFlags = ([], main.Returned config) ->
  main.ShowVersion config = true ->
  main.run H [] (main.main b)
  = ([main.Printed ("elasticsearch-shard-exporter version " +:+ main.Version b
                      +:+ " (built: " +:+ main.BuildTime b +:+ ")" +:+ main.newline)],
     main.Exited 0).
Proof.
  intros Hflags Hversion. unfold main.main.
  change (main.run H [] (main.parseFlags ≫= ?k))
    with (main.run H [] (main.bind main.parseFlags k)).
  rewrite run_bind, Hflags. cbv zeta. rewrite Hversion. reflexivity.
Qed.

(** X25. When the version is not asked for and there is no Elasticsearch
    URL (no [-es-url] value and no [ES_URL]), the process logs the
    configuration error and exits with status 1 before anything is
    started: no collector is registered, no handler, and nothing
    listens. *)
Theorem missing_url_is_fatal (b : main.Build) (config : main.Config) :
  main.run H [] main.parseFlags = ([], main.Returned config) ->
  main.ShowVersion config = false ->
  main.ESUrl config = "" ->
  main.run H [] (main.main b)
  = ([main.Logged ("Configuration error: "
                     +:+ "--es-url is required (or set ES_URL environment variable)")],
     main.Exited 1).
Proof.
  intros Hflags Hversion Hurl. unfold main.main.
  change (main.run H [] (main.parseFlags ≫= ?k))
    with (main.run H [] (main.bind main.parseFlags k)).
  rewrite run_bind, Hflags. cbv zeta. rewrite Hversion.
  unfold main.validateConfig. rewrite Hurl. reflexivity.
Qed.


End Process.

(** X27. The two handlers of [main.go].  The health page answers every
    request with status 200 and the body [OK], whatever the state of the
    upstream.  The landing page answers with status 200, with the
    [Content-Type] header set before the status line goes out, and with
    a page that links to the configured metrics path. *)
Theorem handlers_answer_200 (b : main.Build) (config : main.Config) (r : http.Request) :
  main.serve main.healthHandler r
  = Some {| main.header := ∅; main.sent := Some (200, ∅); main.written := "OK" |} /\
  exists before between,
    main.serve (main.rootHandler b config) r
    = Some {| main.header := {["Content-Type" := ["text/html; charset=utf-8"]]};
              main.sent := Some (200, {["Content-Type" := ["text/html; charset=utf-8"]]});
              main.written :=
                before +:+ "<a href=" +:+ main.quote +:+ main.MetricsPath config
                       +:+ main.quote +:+ ">Metrics</a>" +:+ between
                       +:+ "Version: " +:+ main.Version b +:+ "</p>" +:+ main.newline
                       +:+ "</body>" +:+ main.newline +:+ "</html>" |}.
Proof.
  split; [reflexivity|].
  exists ("<!DOCTYPE html>" +:+ main.newline +:+ "<html>" +:+ main.newline
            +:+ "<head><title>Elasticsearch Shard Exporter</title></head>"
            +:+ main.newline +:+ "<body>" +:+ main.newline
            +:+ "<h1>Elasticsearch Shard Exporter</h1>" +:+ main.newline +:+ "<p>"),
         ("</p>" +:+ main.newline +:+ "<p>").
  reflexivity.
Qed.

Lemma environment_overrides_flags_witness :
  let H := Hosts.host ["--es-url=http://flag:9200"; "--es-user"; "bob"]
                      {["ES_URL" := "http://env:9200"; "ES_USER" := ""]} in
  (flag.Parse main.commandLine (main.commandLineArgs H)).1 = None /\
  exists config,
    main.run H [] main.parseFlags = ([], main.Returned config) /\
    main.ESUrl config = "http://env:9200" /\
    main.ESUser config = "bob" /\
    main.ESPass config = "".
Proof.
  intros H.
  destruct (flag.Parse main.commandLine (main.commandLineArgs H)) as [e f] eqn:Hparse.
  assert (He : e = None) by (apply (f_equal fst) in Hparse; vm_compute in Hparse; congruence).
  split; [exact He|]. subst e.
  destruct (environment_overrides_flags H f Hparse)
    as (config & Hrun & Hurl & Huser & Hpass & _).
  exists config. split; [exact Hrun|].
  apply (f_equal (fun r => flag.vars r.2)) in Hparse. cbn [snd] in Hparse.
  rewrite <- Hparse in Hurl, Huser, Hpass.
  split; [rewrite Hurl|split; [rewrite Huser|rewrite Hpass]]; vm_compute; reflexivity.
Defined.

Lemma bad_command_line_exits_witness :
  let H := Hosts.host ["--es-url=http://es:9200"; "--verbose"] ∅ in
  (flag.Parse main.commandLine (main.commandLineArgs H)).1
  = Some (flag.errNotDefined "verbose") /\
  main.run H [] (main.main main.sourceBuild)
  = ([main.FlagFailed (flag.errNotDefined "verbose")], main.Exited 2).
Proof.
  intros H.
  destruct (flag.Parse main.commandLine (main.commandLineArgs H)) as [e f] eqn:Hparse.
  assert (He : e = Some (flag.errNotDefined "verbose"))
    by (apply (f_equal fst) in Hparse; vm_compute in Hparse; congruence).
  split; [exact He|]. subst e.
  exact (proj1 (bad_command_line_exits H main.sourceBuild) _ f Hparse).
Defined.

Lemma version_exits_before_validation_witness :
  let H := Hosts.host ["-version"] ∅ in
  exists config,
    main.run H [] main.parseFlags = ([], main.Returned config) /\
    main.ShowVersion config = true /\
    main.ESUrl config = "" /\
    main.run H [] (main.main main.sourceBuild)
    = ([main.Printed ("elasticsearch-shard-exporter version 1.0.0 (built: unknown)"
                        +:+ main.newline)],
       main.Exited 0).
Proof.
  intros H. eexists.
  assert (Hrun : main.run H [] main.parseFlags
                 = ([], main.Returned (main.atShowVersion true (flag.vars main.commandLine))))
    by (vm_compute; reflexivity).
  split; [exact Hrun|]. split; [reflexivity|]. split; [reflexivity|].
  exact (version_exits_before_validation H main.sourceBuild _ Hrun eq_refl).
Defined.

Lemma missing_url_is_fatal_witness :
  let H := Hosts.host ["--es-user=elastic"] {["ES_URL" := ""]} in
  exists config,
    main.run H [] main.parseFlags = ([], main.Returned config) /\
    main.ShowVersion config = false /\
    main.ESUrl config = "" /\
    main.run H [] (main.main main.sourceBuild)
    = ([main.Logged "Configuration error: --es-url is required (or set ES_URL environment variable)"],
       main.Exited 1).
Proof.
  intros H. eexists.
  assert (Hrun : main.run H [] main.parseFlags
                 = ([], main.Returned (main.atESUser "elastic" (flag.vars main.commandLine))))
    by (vm_compute; reflexivity).
  split; [exact Hrun|]. split; [reflexivity|]. split; [reflexivity|].
  exact (missing_url_is_fatal H main.sourceBuild _ Hrun eq_refl eq_refl).
Defined.


(** ** From the command line to the requests *)

Section EndToEnd.

Variable H : main.Host.
Variable L : Library.
Variable E : Environment.

(** X28. The collector [main] registers is the one built from the
    configuration [parseFlags] returns, and no other is registered.
    So every scrape asks the configured Elasticsearch: its requests go to
    the configured URL followed by [/_cluster/health] and [/_settings],
    and they carry the basic-authentication header exactly when both the
    configured user and the configured password are not empty. *)
Theorem exporter_asks_the_configured_upstream (b : main.Build) (conf : main.Config)
        (c : ShardCollector) (w : World E) :
  main.run H [] main.parseFlags = ([], main.Returned conf) ->
  main.Registered c ∈ (main.run H [] (main.main b)).1 ->
  c = (NewShardCollector
         {| ESURL := main.ESUrl conf; ESUser := main.ESUser conf;
            ESPass := main.ESPass conf; SSLEnable := main.SSLEnable conf;
            SSLSkipVerify := main.SSLSkipVerify conf |}).1 /\
  http.URL <$> requestsOf (traceOf (exec E (Collect L c) (Build_Machine w false)))
  = urlIfParsed L (main.ESUrl conf +:+ "/_cluster/health")
      ++ urlIfParsed L (main.ESUrl conf +:+ "/_settings") /\
  Forall (fun req =>
            is_Some (authorization req)
            <-> main.ESUser conf <> "" /\ main.ESPass conf <> "")
         (requestsOf (traceOf (exec E (Collect L c) (Build_Machine w false)))).
Proof.
  intros Hflags Hin.
  set (cfg := {| ESURL := main.ESUrl conf; ESUser := main.ESUser conf;
                 ESPass := main.ESPass conf; SSLEnable := main.SSLEnable conf;
                 SSLSkipVerify := main.SSLSkipVerify conf |}).
  assert (Hc : c = (NewShardCollector cfg).1).
  { unfold main.main in Hin.
    change (main.run H [] (main.parseFlags ≫= ?k))
      with (main.run H [] (main.bind main.parseFlags k)) in Hin.
    rewrite run_bind, Hflags in Hin. cbv zeta in Hin.
    destruct (main.ShowVersion conf).
    { cbn in Hin. apply list_elem_of_singleton in Hin. discriminate Hin. }
    unfold main.validateConfig in Hin.
    destruct (String.eqb (main.ESUrl conf) "").
    { cbn in Hin. apply list_elem_of_singleton in Hin. discriminate Hin. }
    pose proof (eq_refl : NewShardCollector (main.collectorConfig conf)
                          = ((NewShardCollector cfg).1, None)) as Hnew.
    rewrite Hnew in Hin. clear Hnew.
    set (c0 := (NewShardCollector cfg).1) in *. clearbody c0.
    cbn [app fst snd mbind main.Proc_bind main.bind main.mustRegister main.handle
         main.logPrintf main.listenAndServe main.run] in Hin.
    change (main.handledPatterns []) with (@nil string) in Hin. cbn [app] in Hin.
    destruct (main.registerPanic H c0); [inversion Hin|].
    destruct (main.handlePanic H _ (main.MetricsPath conf));
      [|destruct (main.handlePanic H _ "/");
        [|destruct (main.handlePanic H _ "/health");
          [|destruct (main.served H (main.ListenAddr conf)) as [[err|]|]]]];
      cbn in Hin;
      repeat (apply elem_of_cons in Hin as [Hin|Hin];
              [first [discriminate Hin | injection Hin as ->; reflexivity]|]);
      inversion Hin. }
  split; [exact Hc|]. subst c.
  change (exec E (Collect L (NewShardCollector cfg).1) (Build_Machine w false))
    with (cycle L E cfg w).
  rewrite cycle_requests. set (c := (NewShardCollector cfg).1).
  change (ESURL cfg) with (main.ESUrl conf).
  assert (Hauth : forall path,
             is_Some (authorization (requestTo L c path))
             <-> main.ESUser conf <> "" /\ main.ESPass conf <> "").
  { intros path. rewrite authorization_built.
    change (ESUser (config c)) with (main.ESUser conf).
    change (ESPass (config c)) with (main.ESPass conf).
    rewrite <- !nonEmpty_spec.
    destruct (nonEmpty (main.ESUser conf)), (nonEmpty (main.ESPass conf));
      cbn [andb]; split;
      first [intros _; split; reflexivity
            |intros _; eexists; reflexivity
            |intros [? ?]; discriminate]. }
  unfold urlIfParsed, healthRequest, settingsRequest.
  destruct (url_Parse L (main.ESUrl conf +:+ "/_cluster/health")),
           (url_Parse L (main.ESUrl conf +:+ "/_settings"));
    cbn [sentIf app fmap list_fmap];
    (split; [|repeat (apply Forall_cons; split; [apply Hauth|]); apply Forall_nil; exact I]);
    unfold requestTo, SetBasicAuth, http.HeaderSet;
    destruct (nonEmpty (ESUser (config c)) && nonEmpty (ESPass (config c)));
    reflexivity.
Qed.

End EndToEnd.

Lemma exporter_asks_the_configured_upstream_witness :
  let H := Hosts.host ["--es-url=http://flag:9200"; "--es-user=elastic"]
                      {["ES_URL" := "http://es:9200"; "ES_PASS" := "changeme"]} in
  let L := Fixture.library (inr (Fixture.health 0)) (inr ∅) in
  let E := Fixture.upstream 200 in
  let c := (NewShardCollector
              {| ESURL := "http://es:9200"; ESUser := "elastic"; ESPass := "changeme";
                 SSLEnable := false; SSLSkipVerify := false |}).1 in
  exists conf,
    main.run H [] main.parseFlags = ([], main.Returned conf) /\
    main.Registered c ∈ (main.run H [] (main.main main.sourceBuild)).1 /\
    http.URL <$> requestsOf (traceOf (alone L E c 0))
    = ["http://es:9200/_cluster/health"; "http://es:9200/_settings"].
Proof.
  intros H L E c. eexists.
  assert (Hrun : main.run H [] main.parseFlags
                 = ([], main.Returned
                          (main.atESPass "changeme"
                             (main.atESUrl "http://es:9200"
                                (main.atESUser "elastic"
                                   (main.atESUrl "http://flag:9200"
                                                 (flag.vars main.commandLine)))))))
    by (vm_compute; reflexivity).
  assert (Hin : main.Registered c ∈ (main.run H [] (main.main main.sourceBuild)).1)
    by (vm_compute; left).
  split; [exact Hrun|]. split; [exact Hin|].
  destruct (exporter_asks_the_configured_upstream H L E main.sourceBuild _ c 0 Hrun Hin)
    as (_ & Hurls & _).
  exact Hurls.
Defined.
